(** * MMM-SynologyPhotos: a shallow embedding of the node helper
      (node_helper.js), of the connection diagnostic (test_connection.js) and
      of the front end (MMM-SynologyPhotos.js), with the properties of the
      specification stated against them. *)

From Stdlib Require Import ZArith NArith Ascii String List Bool Lia.
From Stdlib Require Import Permutation Sorted.
From stdpp Require Import base option list gmap strings pretty.

Import ListNotations.
Local Open Scope string_scope.
Local Open Scope Z_scope.

(** ** JavaScript values and strings *)

Module Js.

(** The primitive values that reach the code from the configuration object and
    from JSON payloads.  Numbers are the integers ([JNum]) plus [JNaN]
    (the result of a failed [parseInt]); fractional and infinite numbers do
    not occur in the modelled inputs.  Strings are held as their UTF-8 byte
    sequence; ill-formed UTF-16 (lone surrogates) is outside the model. *)
Inductive JsVal : Type :=
  | JUndefined
  | JNull
  | JBool (b : bool)
  | JNaN
  | JNum (n : Z)
  | JStr (s : string).

(** [ToBoolean]: what [if (v)], [v ? a : b], [!v] and [v || d] look at. *)
Definition truthy (v : JsVal) : bool :=
  match v with
  | JUndefined | JNull | JNaN => false
  | JBool b => b
  | JNum n => negb (n =? 0)
  | JStr s => negb (String.eqb s "")
  end.

(** [ToString]: template literals, [v.toString()] and string concatenation.
    Integers print in decimal, as JavaScript does below 1e21; [JNum n] stands
    for an integer a double holds exactly, which every integer of magnitude
    up to 2^53 is, so larger ones are outside the model. *)
Definition toString (v : JsVal) : string :=
  match v with
  | JUndefined => "undefined"
  | JNull => "null"
  | JBool true => "true"
  | JBool false => "false"
  | JNaN => "NaN"
  | JNum n => pretty n
  | JStr s => s
  end.

(** [a || b] *)
Definition or_else (a b : JsVal) : JsVal := if truthy a then a else b.

(** [a === b] on primitives: same type and same value, [NaN] equal to
    nothing. *)
Definition strict_eq (a b : JsVal) : bool :=
  match a, b with
  | JUndefined, JUndefined => true
  | JNull, JNull => true
  | JBool x, JBool y => Bool.eqb x y
  | JNum x, JNum y => x =? y
  | JStr x, JStr y => String.eqb x y
  | _, _ => false
  end.

(** [s.startsWith(p)] *)
Definition startsWith (s p : string) : bool := String.prefix p s.

(** [s.includes(needle)] *)
Fixpoint includes (s needle : string) : bool :=
  String.prefix needle s ||
  match s with
  | EmptyString => false
  | String _ s' => includes s' needle
  end.

(** [s.substring(n)] for [n] within the string. *)
Fixpoint drop_chars (n : nat) (s : string) : string :=
  match n, s with
  | O, _ => s
  | S n', String _ s' => drop_chars n' s'
  | S _, EmptyString => EmptyString
  end.

(** [s.replace(/^https?:\/\//, "")] *)
Definition strip_protocol (s : string) : string :=
  if String.prefix "https://" s then drop_chars 8 s
  else if String.prefix "http://" s then drop_chars 7 s
  else s.

(** [s.replace(/\/+$/, "")]: the final run of slashes goes. *)
Fixpoint strip_trailing_slashes (s : string) : string :=
  match s with
  | EmptyString => EmptyString
  | String c s' =>
      let r := strip_trailing_slashes s' in
      if Ascii.eqb c "/" && String.eqb r "" then EmptyString else String c r
  end.

(** [s.replace(/<suffix>$/, "")] for a literal suffix. *)
Fixpoint strip_suffix (suffix s : string) : string :=
  if String.eqb s suffix then EmptyString
  else match s with
       | EmptyString => EmptyString
       | String c s' => String c (strip_suffix suffix s')
       end.

(** [s.split(sep)] for a one-character separator: never the empty list. *)
Fixpoint split (sep : ascii) (s : string) : list string :=
  match s with
  | EmptyString => [EmptyString]
  | String c s' =>
      if Ascii.eqb c sep then EmptyString :: split sep s'
      else match split sep s' with
           | [] => [String c EmptyString]
           | p :: ps => String c p :: ps
           end
  end.

(** [arr[i]] on an array of strings: [undefined] out of range. *)
Definition index (l : list string) (i : nat) : JsVal :=
  match nth_error l i with
  | Some s => JStr s
  | None => JUndefined
  end.

Definition is_digit (c : ascii) : bool :=
  let n := N_of_ascii c in ((48 <=? n) && (n <=? 57))%N.

Definition is_alpha (c : ascii) : bool :=
  let n := N_of_ascii c in
  (((65 <=? n) && (n <=? 90)) || ((97 <=? n) && (n <=? 122)))%N.

(** The white space [parseInt] skips, as far as it is ASCII: TAB, LF, VT, FF,
    CR and SPACE. *)
Definition is_space (c : ascii) : bool :=
  let n := N_of_ascii c in (((9 <=? n) && (n <=? 13)) || (n =? 32))%N.

(** U+00A0 in UTF-8. *)
Definition is_nbsp (a b : ascii) : bool :=
  ((N_of_ascii a =? 194) && (N_of_ascii b =? 160))%N.

(** The white space and line terminators of three UTF-8 bytes: U+1680,
    U+2000 to U+200A, U+2028, U+2029, U+202F, U+205F, U+3000 and U+FEFF. *)
Definition is_wide_space (a b c : ascii) : bool :=
  let x := N_of_ascii a in
  let y := N_of_ascii b in
  let z := N_of_ascii c in
  (((x =? 225) && (y =? 154) && (z =? 128))
   || ((x =? 226) && (y =? 128)
       && (((128 <=? z) && (z <=? 138)) || (z =? 168) || (z =? 169) || (z =? 175)))
   || ((x =? 226) && (y =? 129) && (z =? 159))
   || ((x =? 227) && (y =? 128) && (z =? 128))
   || ((x =? 239) && (y =? 187) && (z =? 191)))%N.

(** The leading white space and line terminators go. *)
Fixpoint skip_spaces (s : string) : string :=
  match s with
  | String a s1 =>
      if is_space a then skip_spaces s1
      else
        match s1 with
        | String b s2 =>
            if is_nbsp a b then skip_spaces s2
            else
              match s2 with
              | String c s3 => if is_wide_space a b c then skip_spaces s3 else s
              | EmptyString => s
              end
        | EmptyString => s
        end
  | EmptyString => EmptyString
  end.

(** The value of the longest run of decimal digits at the head of [s], with
    [acc] the digits read so far; [None] when there is none. *)
Fixpoint read_digits (acc : option Z) (s : string) : option Z :=
  match s with
  | String c s' =>
      if is_digit c
      then read_digits
             (Some (10 * default 0 acc + (Z.of_N (N_of_ascii c) - 48))) s'
      else acc
  | EmptyString => acc
  end.

(** [parseInt(s, 10)] *)
Definition parseInt (s : string) : JsVal :=
  let s1 := skip_spaces s in
  let '(neg, s2) :=
    match s1 with
    | String "-" r => (true, r)
    | String "+" r => (false, r)
    | _ => (false, s1)
    end in
  match read_digits None s2 with
  | Some n => JNum (if neg then - n else n)
  | None => JNaN
  end.

Definition hex_digit (n : N) : ascii :=
  if (n <? 10)%N then ascii_of_N (48 + n) else ascii_of_N (55 + n).

(** [%XX], upper-case hexadecimal. *)
Definition percent (c : ascii) : string :=
  let n := N_of_ascii c in
  String "%" (String (hex_digit (n / 16)) (String (hex_digit (n mod 16)) EmptyString)).

(** The characters [encodeURIComponent] leaves alone: letters, digits and
    [- _ . ! ~ * ' ( )]. *)
Definition uri_unreserved (c : ascii) : bool :=
  is_alpha c || is_digit c ||
  existsb (Ascii.eqb c) ["-"; "_"; "."; "!"; "~"; "*"; "'"; "("; ")"]%char.

(** [encodeURIComponent(s)]: every other byte of the UTF-8 form is escaped. *)
Fixpoint encodeURIComponent (s : string) : string :=
  match s with
  | EmptyString => EmptyString
  | String c s' =>
      (if uri_unreserved c then String c EmptyString else percent c)
      +:+ encodeURIComponent s'
  end.

(** The application/x-www-form-urlencoded byte serializer used by
    [URLSearchParams.prototype.toString]: letters, digits and [* - . _] stay,
    a space becomes [+]. *)
Definition form_safe (c : ascii) : bool :=
  is_alpha c || is_digit c || existsb (Ascii.eqb c) ["*"; "-"; "."; "_"]%char.

Fixpoint form_encode (s : string) : string :=
  match s with
  | EmptyString => EmptyString
  | String c s' =>
      (if form_safe c then String c EmptyString
       else if Ascii.eqb c " " then "+" else percent c)
      +:+ form_encode s'
  end.

(** How a call that may throw ends: with a value, or with the message of the
    error thrown. *)
Inductive Outcome (A : Type) : Type :=
  | Returned (a : A)
  | Threw (message : string).
Arguments Returned {A} a.
Arguments Threw {A} message.

(** The double-quote character, as a string. *)
Definition dquote : string := String (ascii_of_N 34) EmptyString.

(** A [URLSearchParams] object: the name/value pairs in insertion order. *)
Definition URLSearchParams : Type := list (string * string).

(** [params.set(name, value)]: overwrite the first pair of that name and drop
    the others, or append. *)
Fixpoint params_set (name value : string) (ps : URLSearchParams) : URLSearchParams :=
  match ps with
  | [] => [(name, value)]
  | (k, v) :: rest =>
      if String.eqb k name
      then (name, value) :: List.filter (fun kv => negb (String.eqb (fst kv) name)) rest
      else (k, v) :: params_set name value rest
  end.

(** [params.get(name)] *)
Fixpoint params_get (name : string) (ps : URLSearchParams) : option string :=
  match ps with
  | [] => None
  | (k, v) :: rest => if String.eqb k name then Some v else params_get name rest
  end.

(** [params.toString()] *)
Fixpoint params_toString (ps : URLSearchParams) : string :=
  match ps with
  | [] => EmptyString
  | [(k, v)] => form_encode k +:+ "=" +:+ form_encode v
  | (k, v) :: rest =>
      form_encode k +:+ "=" +:+ form_encode v +:+ "&" +:+ params_toString rest
  end.

End Js.

(** ** node_helper.js *)

Module NodeHelper.
Import Js.

(** The module configuration sent by the front end ([this.config]).  The
    address and the credentials are strings; every field the helper tests for
    truthiness or compares with [===] is kept as a raw value. *)
Record Config : Type := {
  serverUrl : string;
  port : JsVal;
  secure : JsVal;
  account : string;
  password : string;
  sharedSpace : JsVal;
  albumId : JsVal;
  folderId : JsVal;
  numPhotos : JsVal;
  thumbnailSize : JsVal;
  shuffle : JsVal;
  sortBy : JsVal;
  refreshInterval : JsVal
}.

(** A raw listing entry of the remote service; [id], [time] and the
    resolution are the integers the service sends. *)
Record Resolution : Type := { res_width : Z; res_height : Z }.

Record Additional : Type := {
  thumbnail : option (gmap string JsVal);
  resolution : option Resolution
}.

Record Item : Type := {
  item_id : Z;
  item_filename : string;
  item_additional : option Additional;
  item_time : Z
}.

(** The normalized record handed to the front end. *)
Record Photo : Type := {
  id : Z;
  filename : string;
  url : string;
  width : option Z;
  height : option Z;
  time : Z
}.

(** The JSON envelope of the remote API: [{success, data: {sid, list}}]. *)
Record ReplyData : Type := { data_sid : JsVal; data_list : option (list Item) }.

Record Reply : Type := { success : JsVal; data : option ReplyData }.

(** What [fetch] resolves to. [json] is the result of [response.json()]. *)
Record Response : Type := {
  status : Z;
  statusText : string;
  content_type : JsVal;
  body : string;
  json : Outcome Reply
}.

(** [response.ok] *)
Definition ok (r : Response) : bool := (200 <=? status r) && (status r <=? 299).

(** Everything outside the process: the network, the token file and the
    random number generator. *)
Record World : Type := {
  (** [fetch(url, ...)]: a response, or a rejection with its message *)
  net : string -> Outcome Response;
  (** device_token.json: absent, unreadable, or holding a [device_id] *)
  token_file : option (Outcome JsVal);
  (** the random draw made at loop index [i];
      [Math.floor(Math.random() * (i + 1))] is its residue modulo [i + 1] *)
  random_index : nat -> nat
}.

Inductive Notification : Type :=
  | SYNOLOGY_PHOTOS_DATA (photos : list Photo)
  | SYNOLOGY_PHOTOS_ERROR (error : string).

(** The two agents [synoFetch] chooses from. *)
Inductive Agent : Type := httpsAgent | httpAgent.

(** The observable actions of the helper, in the order they happen. *)
Inductive Event : Type :=
  | Fetch (url : string) (agent : Agent) (referer : option string)
  | SendSocketNotification (n : Notification)
  | ClearTimeout
  | SetTimeout (delay : JsVal).

(** The fields of the helper object. *)
Record Helper : Type := {
  sid : JsVal;
  photos : list Photo;
  refreshTimer : option JsVal;
  config : option Config
}.

Definition set_sid (v : JsVal) (h : Helper) : Helper :=
  {| sid := v; photos := photos h; refreshTimer := refreshTimer h; config := config h |}.

Definition set_photos (ps : list Photo) (h : Helper) : Helper :=
  {| sid := sid h; photos := ps; refreshTimer := refreshTimer h; config := config h |}.

Definition set_refreshTimer (t : option JsVal) (h : Helper) : Helper :=
  {| sid := sid h; photos := photos h; refreshTimer := t; config := config h |}.

Definition set_config (c : option Config) (h : Helper) : Helper :=
  {| sid := sid h; photos := photos h; refreshTimer := refreshTimer h; config := c |}.

(** [start]: the state before any notification arrives. *)
Definition start : Helper :=
  {| sid := JNull; photos := []; refreshTimer := None; config := None |}.

(** Code that reads and writes the helper, acts on the world and may throw:
    the state and the actions done so far survive an exception. *)
Definition Run (A : Type) : Type := Helper -> Outcome A * Helper * list Event.

Definition ret {A} (a : A) : Run A := fun h => (Returned a, h, []).

Definition throw {A} (message : string) : Run A := fun h => (Threw message, h, []).

Definition bind {A B} (c : Run A) (k : A -> Run B) : Run B :=
  fun h =>
    match c h with
    | (Returned a, h1, e1) =>
        let '(r, h2, e2) := k a h1 in (r, h2, (e1 ++ e2)%list)
    | (Threw m, h1, e1) => (Threw m, h1, e1)
    end.

(** [try { c } catch (error) { handler(error.message) }] *)
Definition try_catch {A} (c : Run A) (handler : string -> Run A) : Run A :=
  fun h =>
    match c h with
    | (Returned a, h1, e1) => (Returned a, h1, e1)
    | (Threw m, h1, e1) =>
        let '(r, h2, e2) := handler m h1 in (r, h2, (e1 ++ e2)%list)
    end.

Notation "'let!' x ':=' c 'in' k" := (bind c (fun x => k))
  (at level 10, x pattern, c at level 100, k at level 200).

Definition get : Run Helper := fun h => (Returned h, h, []).
Definition modify (f : Helper -> Helper) : Run unit := fun h => (Returned tt, f h, []).
Definition emit (e : Event) : Run unit := fun h => (Returned tt, h, [e]).
Definition lift {A} (o : Outcome A) : Run A := fun h => (o, h, []).

(** The message of the TypeError raised by a property access on [undefined];
    its exact wording belongs to the engine. *)
Definition type_error : string := "Cannot read properties of undefined".

(** [this.config], dereferenced. *)
Definition the_config : Run Config :=
  let! h := get in
  match config h with
  | Some c => ret c
  | None => throw type_error
  end.

(** [synoFetch(url, serverUrl)] *)
Definition synoFetch (w : World) (url : string) (serverUrl : string) : Run Response :=
  let agent := if startsWith url "https" then httpsAgent else httpAgent in
  let referer :=
    if truthy (JStr serverUrl) then Some ("https://" +:+ serverUrl +:+ "/") else None in
  let! _ := emit (Fetch url agent referer) in
  lift (net w url).

(** [loadDeviceToken] *)
Definition loadDeviceToken (w : World) : JsVal :=
  match token_file w with
  | Some (Returned device_id) => if truthy device_id then device_id else JNull
  | Some (Threw _) => JNull
  | None => JNull
  end.

(** [isQuickConnect] *)
Definition isQuickConnect (c : Config) : bool :=
  includes (toString (or_else (JStr (serverUrl c)) (JStr ""))) "quickconnect.to".

(** [getBaseUrl] *)
Definition getBaseUrl (c : Config) : string :=
  let protocol := if negb (strict_eq (secure c) (JBool false)) then "https" else "http" in
  let portStr := if truthy (port c) then ":" +:+ toString (port c) else "" in
  protocol +:+ "://" +:+ serverUrl c +:+ portStr.

(** [getApiPath] *)
Definition getApiPath (c : Config) : string :=
  if isQuickConnect c then "/webapi" else "/photo/webapi".

(** The base URL [login] computes for itself. *)
Definition loginBaseUrl (c : Config) : string :=
  let protocol := if truthy (secure c) then "https" else "http" in
  let portStr := if truthy (port c) then ":" +:+ toString (port c) else "" in
  protocol +:+ "://" +:+ serverUrl c +:+ portStr.

Definition loginParams (w : World) (c : Config) : URLSearchParams :=
  let params :=
    [("api", "SYNO.API.Auth"); ("version", "6"); ("method", "login");
     ("account", account c); ("passwd", password c)] in
  let deviceId := loadDeviceToken w in
  if truthy deviceId
  then params_set "device_name" "MagicMirror"
         (params_set "device_id" (toString deviceId) params)
  else params.

Definition loginUrl (c : Config) : string :=
  loginBaseUrl c +:+ getApiPath c +:+ "/auth.cgi".

(** [login] *)
Definition login (w : World) : Run bool :=
  let! c := the_config in
  let params := loginParams w c in
  try_catch
    (let! response :=
       synoFetch w (loginUrl c +:+ "?" +:+ params_toString params) (serverUrl c) in
     let! data := lift (json response) in
     match data with
     | {| success := s; data := Some d |} =>
         if truthy s && truthy (data_sid d)
         then
           let! _ := modify (set_sid (data_sid d)) in
           ret true
         else ret false
     | {| success := _; data := None |} => ret false
     end)
    (fun _ => ret false).

(** ['["thumbnail","resolution"]'] *)
Definition additional_fields : string :=
  "[" +:+ dquote +:+ "thumbnail" +:+ dquote +:+ ","
      +:+ dquote +:+ "resolution" +:+ dquote +:+ "]".

Definition entryUrl (c : Config) : string :=
  getBaseUrl c +:+ getApiPath c +:+ "/entry.cgi".

(** The query each browse function builds. *)
Definition personalParams (sid offset limit : JsVal) : URLSearchParams :=
  [("api", "SYNO.Foto.Browse.Item"); ("version", "1"); ("method", "list");
   ("type", "photo"); ("offset", toString offset); ("limit", toString limit);
   ("_sid", toString sid); ("additional", additional_fields)].

Definition teamParams (sid offset limit : JsVal) : URLSearchParams :=
  [("api", "SYNO.FotoTeam.Browse.Item"); ("version", "1"); ("method", "list");
   ("type", "photo"); ("offset", toString offset); ("limit", toString limit);
   ("_sid", toString sid); ("additional", additional_fields)].

Definition albumParams (sid albumId offset limit : JsVal) : URLSearchParams :=
  [("api", "SYNO.Foto.Browse.Item"); ("version", "1"); ("method", "list");
   ("type", "photo"); ("offset", toString offset); ("limit", toString limit);
   ("album_id", toString albumId);
   ("_sid", toString sid); ("additional", additional_fields)].

Definition folderParams (sid folderId offset limit : JsVal) : URLSearchParams :=
  [("api", "SYNO.Foto.Browse.Item"); ("version", "1"); ("method", "list");
   ("type", "photo"); ("offset", toString offset); ("limit", toString limit);
   ("folder_id", toString folderId);
   ("_sid", toString sid); ("additional", additional_fields)].

(** The common tail of the four browse functions: request, then
    [response.json()]. *)
Definition browse (w : World) (params : JsVal -> URLSearchParams) : Run Reply :=
  let! c := the_config in
  let! h := get in
  let! response :=
    synoFetch w (entryUrl c +:+ "?" +:+ params_toString (params (sid h))) (serverUrl c) in
  lift (json response).

(** [fetchPersonalPhotos] *)
Definition fetchPersonalPhotos (w : World) (offset limit : JsVal) : Run Reply :=
  browse w (fun sid => personalParams sid offset limit).

(** [fetchTeamPhotos] *)
Definition fetchTeamPhotos (w : World) (offset limit : JsVal) : Run Reply :=
  browse w (fun sid => teamParams sid offset limit).

(** [fetchAlbumPhotos] *)
Definition fetchAlbumPhotos (w : World) (albumId offset limit : JsVal) : Run Reply :=
  browse w (fun sid => albumParams sid albumId offset limit).

(** [fetchFolderPhotos] *)
Definition fetchFolderPhotos (w : World) (folderId offset limit : JsVal) : Run Reply :=
  browse w (fun sid => folderParams sid folderId offset limit).

(** [buildThumbnailUrl]: reading [photo.additional.thumbnail.cache_key]
    throws when [additional] or [thumbnail] is missing. *)
Definition buildThumbnailUrl (c : Config) (sid : JsVal) (photo : Item) (size : JsVal)
  : Outcome string :=
  match item_additional photo with
  | Some {| thumbnail := Some t; resolution := _ |} =>
      let cacheKey := default JUndefined (t !! "cache_key") in
      let apiName :=
        if truthy (sharedSpace c) then "SYNO.FotoTeam.Thumbnail"
        else "SYNO.Foto.Thumbnail" in
      Returned
        (getBaseUrl c +:+ getApiPath c +:+ "/entry.cgi"
         +:+ "?api=" +:+ apiName
         +:+ "&version=1"
         +:+ "&method=get"
         +:+ "&mode=download"
         +:+ "&id=" +:+ pretty (item_id photo)
         +:+ "&type=unit"
         +:+ "&size=" +:+ toString size
         +:+ "&cache_key=" +:+ toString cacheKey
         +:+ "&_sid=" +:+ toString sid)
  | _ => Threw type_error
  end.

(** The filter callback of [fetchPhotos]. *)
Definition thumbnail_ready (thumbnailSize : JsVal) (p : Item) : bool :=
  match item_additional p with
  | Some {| thumbnail := Some t; resolution := _ |} =>
      let entry := default JUndefined (t !! toString thumbnailSize) in
      strict_eq entry (JStr "ready") || strict_eq entry (JBool true)
  | _ => false
  end.

Definition proxy_path : string := "/synology-photos/image?url=".

(** The map callback of [fetchPhotos]. *)
Definition to_photo (c : Config) (sid : JsVal) (thumbnailSize : JsVal) (p : Item)
  : Outcome Photo :=
  match buildThumbnailUrl c sid p thumbnailSize with
  | Threw m => Threw m
  | Returned signed =>
      match item_additional p with
      | None => Threw type_error
      | Some a =>
          Returned
            {| id := item_id p;
               filename := item_filename p;
               url := proxy_path +:+ encodeURIComponent signed;
               width := res_width <$> resolution a;
               height := res_height <$> resolution a;
               time := item_time p |}
      end
  end.

(** [array.map(f)] for a callback that may throw. *)
Fixpoint map_throwing {A B} (f : A -> Outcome B) (l : list A) : Outcome (list B) :=
  match l with
  | [] => Returned []
  | x :: rest =>
      match f x with
      | Threw m => Threw m
      | Returned y =>
          match map_throwing f rest with
          | Threw m => Threw m
          | Returned ys => Returned (y :: ys)
          end
      end
  end.

(** [[a[i], a[j]] = [a[j], a[i]]] for indices inside the array. *)
Definition swap {A} (i j : nat) (a : list A) : list A :=
  match a !! i, a !! j with
  | Some x, Some y => <[j := x]> (<[i := y]> a)
  | _, _ => a
  end.

(** The shuffle loop, from index [i] down to 1. *)
Fixpoint shuffle_from {A} (random : nat -> nat) (i : nat) (a : list A) : list A :=
  match i with
  | O => a
  | S i' => shuffle_from random i' (swap i (random i mod (i + 1))%nat a)
  end.

Definition shuffle_array {A} (random : nat -> nat) (a : list A) : list A :=
  shuffle_from random (length a - 1)%nat a.

(** [(a, b) => b.time - a.time] *)
Definition by_time_desc (a b : Photo) : Z := time b - time a.

(** [Array.prototype.sort(compareFn)] is a stable sort; with a consistent
    comparator every stable sort returns the same array, here by insertion. *)
Fixpoint sort_insert {A} (compareFn : A -> A -> Z) (x : A) (l : list A) : list A :=
  match l with
  | [] => [x]
  | y :: l' =>
      if compareFn x y <=? 0 then x :: y :: l'
      else y :: sort_insert compareFn x l'
  end.

Definition array_sort {A} (compareFn : A -> A -> Z) (l : list A) : list A :=
  fold_right (sort_insert compareFn) [] l.

Definition sendSocketNotification (n : Notification) : Run unit :=
  emit (SendSocketNotification n).

(** [let photoList = []; if (data.success) photoList = data.data.list;]:
    [None] is [undefined]. *)
Definition photo_list (reply : Reply) : Run (option (list Item)) :=
  if truthy (success reply)
  then match data reply with
       | Some d => ret (data_list d)
       | None => throw type_error
       end
  else ret (Some []).

(** [fetchPhotos] *)
Definition fetchPhotos (w : World) : Run unit :=
  try_catch
    (let! loggedIn := login w in
     if negb loggedIn
     then sendSocketNotification
            (SYNOLOGY_PHOTOS_ERROR "Login failed. Check your credentials and server URL.")
     else
       let! c := the_config in
       let limit := or_else (numPhotos c) (JNum 100) in
       let thumbnailSize := or_else (thumbnailSize c) (JStr "xl") in
       let! reply :=
         if truthy (albumId c) then fetchAlbumPhotos w (albumId c) (JNum 0) limit
         else if truthy (folderId c) then fetchFolderPhotos w (folderId c) (JNum 0) limit
         else if truthy (sharedSpace c) then fetchTeamPhotos w (JNum 0) limit
         else fetchPersonalPhotos w (JNum 0) limit in
       let! photoList := photo_list reply in
       let! items :=
         match photoList with
         | Some l => ret (List.filter (thumbnail_ready thumbnailSize) l)
         | None => throw type_error
         end in
       let! h := get in
       let! mapped := lift (map_throwing (to_photo c (sid h) thumbnailSize) items) in
       let photos :=
         if truthy (shuffle c) then shuffle_array (random_index w) mapped
         else if strict_eq (sortBy c) (JStr "time") then array_sort by_time_desc mapped
         else mapped in
       let! _ := modify (set_photos photos) in
       let! _ := sendSocketNotification (SYNOLOGY_PHOTOS_DATA photos) in
       let! _ := match refreshTimer h with
                 | Some _ => emit ClearTimeout
                 | None => ret tt
                 end in
       let refreshInterval := or_else (refreshInterval c) (JNum 3600000) in
       let! _ := emit (SetTimeout refreshInterval) in
       modify (set_refreshTimer (Some refreshInterval)))
    (fun message => sendSocketNotification (SYNOLOGY_PHOTOS_ERROR message)).

(** [socketNotificationReceived] *)
Definition socketNotificationReceived (w : World) (notification : string)
    (payload : Config) : Run unit :=
  if String.eqb notification "SYNOLOGY_PHOTOS_FETCH"
  then
    let! _ := modify (set_config (Some payload)) in
    fetchPhotos w
  else ret tt.

(** [req.query.url] as the query-string parser delivers it: absent, one
    string, an array for a repeated parameter, or a nested object. *)
Inductive QueryValue : Type :=
  | QAbsent
  | QString (s : string)
  | QArray (l : list string)
  | QObject.

Definition query_truthy (q : QueryValue) : bool :=
  match q with
  | QAbsent => false
  | QString s => truthy (JStr s)
  | QArray _ | QObject => true
  end.

(** What the route writes to [res]. *)
Record Sent : Type := {
  sent_status : Z;
  sent_headers : list (string * string);
  sent_body : string
}.

(** The handler [setupProxy] registers for GET /synology-photos/image. *)
Definition setupProxy (w : World) (query_url : QueryValue) : Run Sent :=
  let targetUrl := query_url in
  if negb (query_truthy targetUrl)
  then ret {| sent_status := 400; sent_headers := []; sent_body := "Missing URL" |}
  else
    try_catch
      (let! c := the_config in
       let! url :=
         match targetUrl with
         | QString s => ret s
         | _ => throw "url.startsWith is not a function"
         end in
       let! response := synoFetch w url (serverUrl c) in
       if negb (ok response)
       then ret {| sent_status := status response; sent_headers := [];
                   sent_body := statusText response |}
       else ret {| sent_status := 200;
                   sent_headers :=
                     [("Content-Type",
                       toString (or_else (content_type response) (JStr "image/jpeg")));
                      ("Cache-Control", "public, max-age=86400")];
                   sent_body := body response |})
      (fun _ => ret {| sent_status := 500; sent_headers := [];
                       sent_body := "Proxy error" |}).

End NodeHelper.

(** ** test_connection.js *)

Module TestConnection.
Import Js.

(** [{ host, port, isQuickConnect }] *)
Record Server : Type := { host : string; port : JsVal; isQuickConnect : bool }.

(** [parseServer] *)
Definition parseServer (serverArg : string) : Server :=
  let raw := strip_trailing_slashes (strip_protocol serverArg) in
  let isQuickConnect := includes raw "quickconnect.to" in
  if isQuickConnect
  then {| host := raw; port := JNull; isQuickConnect := isQuickConnect |}
  else
    let parts := split ":" raw in
    {| host := toString (index parts 0);
       port := if truthy (index parts 1)
               then parseInt (toString (index parts 1)) else JNum 5001;
       isQuickConnect := isQuickConnect |}.

(** [{ url, label }] *)
Record Candidate : Type := { url : string; label : string }.

(** The relay's answer, as far as [resolveQuickConnect] reads it. *)
Record Iface : Type := { ip : JsVal; iface_port : JsVal }.

Record External : Type := { ext_ip : JsVal; ext_port : JsVal }.

(** [srv.interface]: missing, something that cannot be iterated, or an array
    whose entries are objects or [null]. *)
Inductive InterfaceField : Type :=
  | NoInterface
  | NotIterable
  | Interfaces (l : list (option Iface)).

Record ServerInfo : Type := {
  interface : InterfaceField;
  ddns : JsVal;
  external : option External
}.

(** What the API-info request gives back: the status, the body text and what
    [JSON.parse] makes of it ([success] of the parsed object). *)
Record InfoResponse : Type := {
  status : Z;
  text : string;
  parsed_success : Outcome JsVal
}.

Record World : Type := {
  (** the relay coordinator at a URL, asked for a server id: a rejection or a
      body that is not JSON ([Threw]), a payload without [server] ([None]),
      or the server record *)
  relay : string -> string -> Outcome (option ServerInfo);
  (** [synoFetch] of an API-info URL with a Referer host *)
  api_info : string -> string -> Outcome InfoResponse
}.

(** [testApiEndpoint]: only [ok] is kept of the result. *)
Definition testApiEndpoint (w : World) (baseUrl apiPath refererHost : string) : bool :=
  let url := baseUrl +:+ apiPath +:+ "/entry.cgi?api=SYNO.API.Info&version=1&method=query" in
  match api_info w url refererHost with
  | Threw _ => false
  | Returned resp =>
      if startsWith (text resp) "{"
      then match parsed_success resp with
           | Returned s => truthy s
           | Threw _ => false
           end
      else false
  end.

(** The loop over [srv.interface]: the candidates pushed, and whether the
    loop ran to its end ([false]: it threw on a [null] entry). *)
Fixpoint push_interfaces (l : list (option Iface)) (candidates : list Candidate)
  : list Candidate * bool :=
  match l with
  | [] => (candidates, true)
  | None :: _ => (candidates, false)
  | Some iface :: rest =>
      push_interfaces rest
        (if truthy (ip iface)
         then candidates ++
              [{| url := "https://" +:+ toString (ip iface) +:+ ":"
                         +:+ toString (or_else (iface_port iface) (JNum 5001));
                  label := "LAN (" +:+ toString (ip iface) +:+ ")" |}]
         else candidates)%list
  end.

(** The body of [if (data && data.server)], up to its [break]. *)
Definition push_server (srv : ServerInfo) (candidates : list Candidate)
  : list Candidate * bool :=
  let httpsPort :=
    or_else (match external srv with Some e => ext_port e | None => JUndefined end)
            (JNum 5001) in
  let '(c1, completed) :=
    match interface srv with
    | NoInterface => (candidates, true)
    | NotIterable => (candidates, false)
    | Interfaces l => push_interfaces l candidates
    end in
  if negb completed then (c1, false)
  else
    let c2 :=
      if truthy (ddns srv)
      then (c1 ++ [{| url := "https://" +:+ toString (ddns srv) +:+ ":" +:+ toString httpsPort;
                      label := "DDNS (" +:+ toString (ddns srv) +:+ ")" |}])%list
      else c1 in
    let ext := match external srv with Some e => ext_ip e | None => JUndefined end in
    let c3 :=
      if truthy ext
      then (c2 ++ [{| url := "https://" +:+ toString ext +:+ ":" +:+ toString httpsPort;
                      label := "External IP" |}])%list
      else c2 in
    (c3, true).

(** [for (const relayUrl of relayUrls) { try { ... break; } catch { } }] *)
Fixpoint query_relays (w : World) (serverID : string) (relayUrls : list string)
    (candidates : list Candidate) : list Candidate :=
  match relayUrls with
  | [] => candidates
  | relayUrl :: rest =>
      match relay w relayUrl serverID with
      | Threw _ => query_relays w serverID rest candidates
      | Returned None => query_relays w serverID rest candidates
      | Returned (Some srv) =>
          let '(pushed, completed) := push_server srv candidates in
          if completed then pushed else query_relays w serverID rest pushed
      end
  end.

(** [resolveQuickConnect] *)
Definition resolveQuickConnect (w : World) (fullDomain : string) : list Candidate :=
  let parts := split "." (strip_suffix ".quickconnect.to" fullDomain) in
  let serverID := toString (index parts 0) in
  let region := or_else (index parts 1) JNull in
  let relayUrls :=
    ((if truthy region
      then ["https://" +:+ toString region +:+ ".quickconnect.to/Serv.php"]
      else []) ++ ["https://global.quickconnect.to/Serv.php"])%list in
  let candidates := query_relays w serverID relayUrls [] in
  (candidates ++ [{| url := "https://" +:+ fullDomain; label := "QuickConnect" |}])%list.

(** Step 1 of [main]: the candidates for a parsed server. *)
Definition candidates_of (w : World) (server : Server) : list Candidate :=
  if isQuickConnect server then resolveQuickConnect w (host server)
  else
    let protocol := if strict_eq (port server) (JNum 5000) then "http" else "https" in
    [{| url := protocol +:+ "://" +:+ host server +:+ ":" +:+ toString (port server);
        label := "Direct" |}].

Definition api_paths : list string := ["/webapi"; "/photo/webapi"].

(** The inner loop of step 1: the probes made on one candidate, in order, and
    the path that answered. *)
Fixpoint try_paths (w : World) (refererHost : string) (c : Candidate)
    (paths : list string) : list (string * string) * option string :=
  match paths with
  | [] => ([], None)
  | apiPath :: rest =>
      if testApiEndpoint w (url c) apiPath refererHost
      then ([(url c, apiPath)], Some apiPath)
      else let '(tried, found) := try_paths w refererHost c rest in
           ((url c, apiPath) :: tried, found)
  end.

(** The outer loop of step 1, entered with the current
    [(workingBase, workingPath)]: every probe made, in order, and the pair at
    the end.  The loop stops after a candidate once [workingBase] is truthy. *)
Fixpoint find_working (w : World) (refererHost : string)
    (candidates : list Candidate) (working : option (string * string))
  : list (string * string) * option (string * string) :=
  match candidates with
  | [] => ([], working)
  | c :: rest =>
      let '(tried, found) := try_paths w refererHost c api_paths in
      let working' :=
        match found with
        | Some apiPath => Some (url c, apiPath)
        | None => working
        end in
      if match working' with
         | Some (workingBase, _) => truthy (JStr workingBase)
         | None => false
         end
      then (tried, working')
      else let '(tried', final) := find_working w refererHost rest working' in
           ((tried ++ tried')%list, final)
  end.

(** Step 1 of [main] for a server argument. *)
Definition find_nas (w : World) (serverArg : string)
  : list (string * string) * option (string * string) :=
  let server := parseServer serverArg in
  find_working w (host server) (candidates_of w server) None.

End TestConnection.

(** ** Notions used to state the properties *)

Import Js.

Module Cycle.
Import NodeHelper.

(** The URLs requested in a trace, in order. *)
Definition fetches (evs : list Event) : list string :=
  omap (fun e => match e with Fetch u _ _ => Some u | _ => None end) evs.

(** The notifications sent to the front end in a trace, in order. *)
Definition notifications (evs : list Event) : list Notification :=
  omap (fun e => match e with SendSocketNotification n => Some n | _ => None end) evs.

(** The source selector of the specification: exactly one of these. *)
Inductive Source : Type :=
  | album (id : JsVal)
  | folder (id : JsVal)
  | sharedSpace
  | personalSpace.

(** Album wins over folder wins over shared space wins over the personal-space
    default; a selector is set when its configuration value is truthy. *)
Definition sourceSelector (c : Config) : Source :=
  if truthy (albumId c) then album (albumId c)
  else if truthy (folderId c) then folder (folderId c)
  else if truthy (NodeHelper.sharedSpace c) then sharedSpace
  else personalSpace.

(** The browse query of a source. *)
Definition source_params (s : Source) (sid offset limit : JsVal) : URLSearchParams :=
  match s with
  | album i => albumParams sid i offset limit
  | folder i => folderParams sid i offset limit
  | sharedSpace => teamParams sid offset limit
  | personalSpace => personalParams sid offset limit
  end.

(** The effective request limit and thumbnail size of a configuration. *)
Definition limit_of (c : Config) : JsVal := or_else (numPhotos c) (JNum 100).
Definition size_of (c : Config) : JsVal := or_else (thumbnailSize c) (JStr "xl").

Definition login_request (w : World) (c : Config) : string :=
  loginUrl c +:+ "?" +:+ params_toString (loginParams w c).

Definition browse_request (c : Config) (sid : JsVal) : string :=
  entryUrl c +:+ "?"
  +:+ params_toString (source_params (sourceSelector c) sid (JNum 0) (limit_of c)).

(** The event [synoFetch] leaves for a URL. *)
Definition fetch_event (c : Config) (u : string) : Event :=
  Fetch u (if startsWith u "https" then httpsAgent else httpAgent)
        (if truthy (JStr (serverUrl c))
         then Some ("https://" +:+ serverUrl c +:+ "/") else None).

(** The signed thumbnail URL of an item that has a thumbnail map. *)
Definition signed_url (c : Config) (sid : JsVal) (size : JsVal) (p : Item) : string :=
  match buildThumbnailUrl c sid p size with
  | Returned u => u
  | Threw _ => EmptyString
  end.

(** The normalized record of an item that has a thumbnail map. *)
Definition photo_of (c : Config) (sid : JsVal) (size : JsVal) (p : Item) : Photo :=
  {| id := item_id p;
     filename := item_filename p;
     url := proxy_path +:+ encodeURIComponent (signed_url c sid size p);
     width := a ← item_additional p; res_width <$> resolution a;
     height := a ← item_additional p; res_height <$> resolution a;
     time := item_time p |}.

(** The items the filter step keeps. *)
Definition retained (c : Config) (l : list Item) : list Item :=
  List.filter (thumbnail_ready (size_of c)) l.

(** The order step of [fetchPhotos]. *)
Definition ordered (w : World) (c : Config) (ps : list Photo) : list Photo :=
  if truthy (shuffle c) then shuffle_array (random_index w) ps
  else if strict_eq (sortBy c) (JStr "time") then array_sort by_time_desc ps
  else ps.

(** The end of a cycle that reached its listing: the state and the trace after
    the mapped photos [mapped] are ordered, stored and published. *)
Definition published (w : World) (c : Config) (h1 : Helper) (mapped : list Photo)
  : Helper * list Event :=
  let ps := ordered w c mapped in
  (set_refreshTimer (Some (or_else (refreshInterval c) (JNum 3600000))) (set_photos ps h1),
   [SendSocketNotification (SYNOLOGY_PHOTOS_DATA ps)]
   ++ (match refreshTimer h1 with Some _ => [ClearTimeout] | None => [] end)
   ++ [SetTimeout (or_else (refreshInterval c) (JNum 3600000))])%list.

(** The listing a cycle works on after a login that left session id [sid]:
    [data.data.list] of a reply flagged successful, the empty list for a
    reply that is not, nothing when the request or the reply is unusable. *)
Definition listing_of (w : World) (c : Config) (sid : JsVal) : option (list Item) :=
  match net w (browse_request c sid) with
  | Returned resp =>
      match json resp with
      | Returned reply =>
          if truthy (success reply) then d ← data reply; data_list d else Some []
      | Threw _ => None
      end
  | Threw _ => None
  end.

(** The ways a cycle with configuration [c] fails from state [h]: the login
    is refused, the browse request is rejected by the network, its body is
    not JSON, or a reply flagged successful carries no list. *)
Inductive cycle_throws (w : World) (h : Helper) (c : Config) : Prop :=
  | login_failure h1 e1 :
      login w h = (Returned false, h1, e1) -> cycle_throws w h c
  | network_error h1 e1 m :
      login w h = (Returned true, h1, e1) ->
      net w (browse_request c (sid h1)) = Threw m -> cycle_throws w h c
  | unreadable_body h1 e1 resp m :
      login w h = (Returned true, h1, e1) ->
      net w (browse_request c (sid h1)) = Returned resp ->
      json resp = Threw m -> cycle_throws w h c
  | missing_list h1 e1 resp reply :
      login w h = (Returned true, h1, e1) ->
      net w (browse_request c (sid h1)) = Returned resp ->
      json resp = Returned reply ->
      truthy (success reply) = true ->
      (d ← data reply; data_list d) = None -> cycle_throws w h c.

(** A browse-level failure response: the login went through and the browse
    reply says [success: false]. *)
Definition browse_refused (w : World) (h : Helper) (c : Config) : Prop :=
  exists h1 e1 resp reply,
    login w h = (Returned true, h1, e1)
    /\ net w (browse_request c (sid h1)) = Returned resp
    /\ json resp = Returned reply
    /\ truthy (success reply) = false.

(** What a failed cycle is said to do: the catalog stays and the only
    notification is an error. *)
Definition catalog_kept_with_error (h : Helper)
    (run : Outcome unit * Helper * list Event) : Prop :=
  photos (snd (fst run)) = photos h
  /\ exists m, notifications (snd run) = [SYNOLOGY_PHOTOS_ERROR m].

(** An item whose thumbnail-readiness map marks [size] as ready: the entry
    is the string "ready" or the boolean true. *)
Definition marked_ready (size : JsVal) (p : Item) : Prop :=
  exists a t,
    item_additional p = Some a /\ thumbnail a = Some t
    /\ (t !! toString size = Some (JStr "ready")
        \/ t !! toString size = Some (JBool true)).

(** A 4xx status. *)
Definition client_error (s : Sent) : Prop := 400 <= sent_status s <= 499.

(** A target the proxy can relay is one string naming an absolute http or
    https URL; everything else is a missing or malformed parameter. *)
Definition missing_or_malformed (q : QueryValue) : Prop :=
  match q with
  | QString s => startsWith s "http://" || startsWith s "https://" = false
  | QAbsent | QArray _ | QObject => True
  end.

(** The claim that such a parameter is answered with a client error and
    without any outbound request. *)
Definition malformed_is_client_error : Prop :=
  forall (w : World) (h : Helper) (q : QueryValue),
    missing_or_malformed q ->
    exists sent h' evs,
      setupProxy w q h = (Returned sent, h', evs)
      /\ client_error sent /\ fetches evs = [].

(** The filter callback as the earlier copy of the helper has it (the copy
    kept with the README): only the string "ready" counts. *)
Definition thumbnail_ready_earlier (thumbnailSize : JsVal) (p : Item) : bool :=
  match item_additional p with
  | Some {| thumbnail := Some t; resolution := _ |} =>
      strict_eq (default JUndefined (t !! toString thumbnailSize)) (JStr "ready")
  | _ => false
  end.

(** The claim that the session id stays out of every published URL. *)
Definition session_id_hidden (h : Helper) : Prop :=
  forall p, In p (photos h) -> includes (url p) (toString (sid h)) = false.

(** Non-increasing capture time. *)
Definition time_descending (ps : list Photo) : Prop :=
  Sorted (fun a b => time a >= time b) ps.

End Cycle.

(** ** Concrete configurations, listings and worlds *)

Module Sample.
Import NodeHelper.

Definition nas : Config :=
  {| serverUrl := "nas.local"; port := JNum 5001; secure := JBool true;
     account := "me"; password := "pw";
     sharedSpace := JBool false; albumId := JNull; folderId := JNull;
     numPhotos := JNum 0; thumbnailSize := JStr "sm";
     shuffle := JBool false; sortBy := JStr "time";
     refreshInterval := JUndefined |}.

(** The same, with [secure] left out. *)
Definition nas_without_secure : Config :=
  {| serverUrl := "nas.local"; port := JNum 5001; secure := JUndefined;
     account := "me"; password := "pw";
     sharedSpace := JBool false; albumId := JNull; folderId := JNull;
     numPhotos := JNum 0; thumbnailSize := JStr "sm";
     shuffle := JBool false; sortBy := JStr "time";
     refreshInterval := JUndefined |}.

(** Album, folder and shared space all set. *)
Definition nas_all_selectors : Config :=
  {| serverUrl := "nas.local"; port := JNum 5001; secure := JBool true;
     account := "me"; password := "pw";
     sharedSpace := JBool true; albumId := JNum 7; folderId := JNum 3;
     numPhotos := JNum 25; thumbnailSize := JStr "sm";
     shuffle := JBool false; sortBy := JStr "time";
     refreshInterval := JUndefined |}.

(** [{id, time, additional: {thumbnail: {sm: state, cache_key: "k"}}}] *)
Definition item (i : Z) (state : JsVal) (t : Z) : Item :=
  {| item_id := i; item_filename := "a.jpg";
     item_additional :=
       Some {| thumbnail := Some (<["sm" := state]> (<["cache_key" := JStr "k"]> ∅));
               resolution := None |};
     item_time := t |}.

Definition response (r : Outcome Reply) : Response :=
  {| status := 200; statusText := "OK"; content_type := JNull;
     body := EmptyString; json := r |}.

Definition session_granted : Reply :=
  {| success := JBool true;
     data := Some {| data_sid := JStr "SID123"; data_list := None |} |}.

Definition listing : Reply :=
  {| success := JBool true;
     data := Some {| data_sid := JUndefined;
                     data_list := Some [item 1 (JStr "ready") 10;
                                        item 2 (JStr "processing") 30;
                                        item 3 (JBool true) 20] |} |}.

(** [{success: false, error: {code: 119}}] *)
Definition refusal : Reply := {| success := JBool false; data := None |}.

(** A NAS that grants the login and answers every browse request with
    [browse_reply]. *)
Definition nas_answering (browse_reply : Outcome Response) : World :=
  {| net := fun u => if includes u "/auth.cgi?"
                     then Returned (response (Returned session_granted))
                     else browse_reply;
     token_file := None;
     random_index := fun _ => O |}.

Definition healthy : World := nas_answering (Returned (response (Returned listing))).
Definition refusing : World := nas_answering (Returned (response (Returned refusal))).
Definition dropping : World := nas_answering (Threw "socket hang up").

(** Nothing answers, and a target that is not an absolute URL is rejected. *)
Definition unreachable : World :=
  {| net := fun _ => Threw "request failed";
     token_file := None;
     random_index := fun _ => O |}.

(** An upstream that answers 502 Bad Gateway. *)
Definition bad_gateway : World :=
  {| net := fun _ => Returned {| status := 502; statusText := "Bad Gateway";
                                 content_type := JNull; body := EmptyString;
                                 json := Threw "Unexpected token" |};
     token_file := None;
     random_index := fun _ => O |}.

Definition configured (c : Config) : Helper := set_config (Some c) start.

(** The helper after the login of [nas_answering] went through. *)
Definition logged_in (c : Config) : Helper := set_sid (JStr "SID123") (configured c).

(** A NAS on the LAN that serves the API under /photo/webapi only, and a
    relay coordinator that cannot be reached. *)
Definition lan : TestConnection.World :=
  {| TestConnection.relay := fun _ _ => Threw "getaddrinfo ENOTFOUND";
     TestConnection.api_info := fun u _ =>
       if includes u "/photo/webapi/"
       then Returned
              {| TestConnection.status := 200;
                 TestConnection.text := "{" +:+ dquote +:+ "success" +:+ dquote +:+ ":true}";
                 TestConnection.parsed_success := Returned (JBool true) |}
       else Returned
              {| TestConnection.status := 404;
                 TestConnection.text := "<html>Not Found</html>";
                 TestConnection.parsed_success := Threw "Unexpected token <" |} |}.

End Sample.

(** ** The helper over time *)

Module Lifecycle.
Import NodeHelper Cycle.

(** The timer calls in a trace, in order. *)
Definition timers (evs : list Event) : list Event :=
  List.filter
    (fun e => match e with ClearTimeout | SetTimeout _ => true | _ => false end) evs.

(** The refresh delay a cycle arms its timer with. *)
Definition refresh_delay (c : Config) : JsVal :=
  or_else (refreshInterval c) (JNum 3600000).

(** The states a running helper goes through: from [start], a socket
    notification arrives, the refresh timer armed by an earlier cycle fires,
    or the image route is requested, each time in some state of the world. *)
Inductive reachable : Helper -> Prop :=
  | at_start : reachable start
  | after_notification w notification payload h r h' evs :
      reachable h ->
      socketNotificationReceived w notification payload h = (r, h', evs) ->
      reachable h'
  | after_timer w h r h' evs :
      reachable h ->
      refreshTimer h <> None ->
      fetchPhotos w h = (r, h', evs) ->
      reachable h'
  | after_request w q h r h' evs :
      reachable h ->
      setupProxy w q h = (r, h', evs) ->
      reachable h'.

(** A cycle that ended in an error notification. *)
Definition cycle_failed (h h' : Helper) (evs : list Event) : Prop :=
  exists m,
    notifications evs = [SYNOLOGY_PHOTOS_ERROR m]
    /\ timers evs = []
    /\ photos h' = photos h
    /\ refreshTimer h' = refreshTimer h.

(** A cycle that published a catalog. *)
Definition cycle_published (h h' : Helper) (evs : list Event) : Prop :=
  exists c ps,
    config h = Some c
    /\ notifications evs = [SYNOLOGY_PHOTOS_DATA ps]
    /\ photos h' = ps
    /\ (forall p, In p ps -> startsWith (url p) proxy_path = true)
    /\ timers evs
       = ((match refreshTimer h with Some _ => [ClearTimeout] | None => [] end)
          ++ [SetTimeout (refresh_delay c)])%list
    /\ refreshTimer h' = Some (refresh_delay c).

End Lifecycle.

(** ** Further configurations and worlds *)

Module Scenario.
Import NodeHelper.

(** Shuffle off and no sort requested. *)
Definition nas_unsorted : Config :=
  {| serverUrl := "nas.local"; port := JNum 5001; secure := JBool true;
     account := "me"; password := "pw";
     sharedSpace := JBool false; albumId := JNull; folderId := JNull;
     numPhotos := JNum 50; thumbnailSize := JStr "sm";
     shuffle := JBool false; sortBy := JStr "name";
     refreshInterval := JNum 60000 |}.

(** Shuffle on. *)
Definition nas_shuffled : Config :=
  {| serverUrl := "nas.local"; port := JNum 5001; secure := JBool true;
     account := "me"; password := "pw";
     sharedSpace := JBool false; albumId := JNull; folderId := JNull;
     numPhotos := JNum 50; thumbnailSize := JStr "sm";
     shuffle := JBool true; sortBy := JStr "time";
     refreshInterval := JNum 60000 |}.

(** The healthy NAS of [Sample], with other random draws. *)
Definition healthy_other_draws : World :=
  {| net := net Sample.healthy;
     token_file := token_file Sample.healthy;
     random_index := fun _ => 1%nat |}.

(** An image answer that declares no content type. *)
Definition jpeg_answer : Response :=
  {| status := 200; statusText := "OK"; content_type := JNull; body := "JFIF";
     json := Threw "Unexpected token" |}.

Definition serving_image : World :=
  {| net := fun _ => Returned jpeg_answer;
     token_file := None;
     random_index := fun _ => O |}.

(** A relay coordinator for the region "us" that cannot be reached and a
    global one that knows the NAS: one LAN interface, a DDNS name and an
    external address with port 443. No candidate answers the probe. *)
Definition behind_relay : TestConnection.World :=
  {| TestConnection.relay := fun relayUrl _ =>
       if includes relayUrl "global"
       then Returned
              (Some {| TestConnection.interface :=
                         TestConnection.Interfaces
                           [Some {| TestConnection.ip := JStr "192.168.1.10";
                                    TestConnection.iface_port := JUndefined |}];
                       TestConnection.ddns := JStr "mynas.synology.me";
                       TestConnection.external :=
                         Some {| TestConnection.ext_ip := JStr "203.0.113.7";
                                 TestConnection.ext_port := JNum 443 |} |})
       else Threw "getaddrinfo ENOTFOUND";
     TestConnection.api_info := fun _ _ => Threw "connect ETIMEDOUT" |}.

End Scenario.

(** ** Notions used to state the properties of the diagnostic *)

Module Probe.
Import TestConnection.

(** The kinds of candidate [resolveQuickConnect] labels. *)
Definition is_lan (c : Candidate) : bool := startsWith (label c) "LAN (".
Definition is_ddns (c : Candidate) : bool := startsWith (label c) "DDNS (".
Definition is_external (c : Candidate) : bool := String.eqb (label c) "External IP".

(** The candidate for the relay address itself. *)
Definition relay_candidate (fullDomain : string) : Candidate :=
  {| url := "https://" +:+ fullDomain; label := "QuickConnect" |}.

(** At most one candidate, of the kind [kind]. *)
Definition at_most_one (kind : Candidate -> bool) (l : list Candidate) : Prop :=
  l = [] \/ exists c, l = [c] /\ kind c = true.

(** The API-info request of a probe of the path [path] on the base [base]. *)
Definition info_url (base path : string) : string :=
  base +:+ path +:+ "/entry.cgi?api=SYNO.API.Info&version=1&method=query".

(** A valid API-info response: the request is answered, and the body is the
    text of a JSON object whose [success] is truthy. *)
Definition valid_api_info (answer : Outcome InfoResponse) : bool :=
  match answer with
  | Returned resp =>
      match parsed_success resp with
      | Returned s => startsWith (text resp) "{" && truthy s
      | Threw _ => false
      end
  | Threw _ => false
  end.

(** The world gives a valid API-info response to the probe [(base, path)]
    sent with the Referer host [refererHost]. *)
Definition answers (w : World) (refererHost : string) (probe : string * string)
  : bool :=
  valid_api_info (api_info w (info_url (fst probe) (snd probe)) refererHost).

(** Every probe step 1 can make for a list of candidates, in order: each
    candidate in turn, on /webapi and then on /photo/webapi. *)
Definition all_probes (cs : list Candidate) : list (string * string) :=
  flat_map (fun c => [(url c, "/webapi"); (url c, "/photo/webapi")]) cs.

End Probe.

(** ** test_connection.js, steps 3 to 5 and the result block of [main] *)

Module Diagnostic.
Import TestConnection.

(** The login reply as step 3 reads it: [{success, data: {sid, did,
    device_id}}]. *)
Record AuthData : Type := { auth_sid : JsVal; did : JsVal; device_id : JsVal }.

Record AuthReply : Type := { auth_success : JsVal; auth_data : option AuthData }.

(** What a login request gives back: the body text and what [JSON.parse]
    makes of it. *)
Record AuthResponse : Type := {
  auth_text : string;
  auth_parsed : Outcome AuthReply
}.

(** The token file, the file system and the NAS, as steps 3 and 4 meet
    them. *)
Record World : Type := {
  (** device_token.json: absent, unreadable, or the [device_id] it holds *)
  token_file : option (Outcome JsVal);
  (** [synoFetch] of a login URL, then [resp.text()] *)
  login_reply : string -> Outcome AuthResponse;
  (** [synoFetch] of a browse URL, then [resp.json()] *)
  browse_reply : string -> Outcome NodeHelper.Reply
}.

(** What the steps do to the outside, in order: a request, or a write of the
    token file with the device id and the server host it records (a write
    that throws is caught and changes nothing else). *)
Inductive Event : Type :=
  | Requested (url : string)
  | TokenWrite (device_id : JsVal) (server_url : string).

(** [deviceId] as step 3 loads it. *)
Definition saved_device_id (w : World) : JsVal :=
  match token_file w with
  | Some (Returned v) => v
  | Some (Threw _) => JNull
  | None => JNull
  end.

(** [loginParams] of step 3. *)
Definition loginParams (w : World) (account password : string) (otpCode : JsVal)
  : URLSearchParams :=
  let params :=
    [("api", "SYNO.API.Auth"); ("version", "6"); ("method", "login");
     ("account", account); ("passwd", password)] in
  let deviceId := saved_device_id w in
  let params :=
    if truthy deviceId
    then params_set "device_name" "MagicMirror"
           (params_set "device_id" (toString deviceId) params)
    else params in
  if truthy otpCode
  then params_set "device_name" "MagicMirror"
         (params_set "enable_device_token" "yes"
            (params_set "otp_code" (toString otpCode) params))
  else params.

(** The body of the loop over the two login endpoints, after [if (sid)
    break]: the session id it sets, if any, and what it did. *)
Definition login_attempt (w : World) (workingBase host : string)
    (params : URLSearchParams) (otpCode : JsVal) (authEndpoint : string)
  : option JsVal * list Event :=
  let loginUrl := workingBase +:+ authEndpoint +:+ "?" +:+ params_toString params in
  match login_reply w loginUrl with
  | Threw _ => (None, [Requested loginUrl])
  | Returned resp =>
      if negb (startsWith (auth_text resp) "{") then (None, [Requested loginUrl])
      else
        match auth_parsed resp with
        | Threw _ => (None, [Requested loginUrl])
        | Returned {| auth_success := s; auth_data := Some d |} =>
            if truthy s && truthy (auth_sid d)
            then
              let did0 := or_else (did d) (device_id d) in
              (Some (auth_sid d),
               Requested loginUrl
               :: (if truthy did0 && truthy otpCode
                   then [TokenWrite did0 host] else []))
            else (None, [Requested loginUrl])
        | Returned {| auth_success := _; auth_data := None |} =>
            (None, [Requested loginUrl])
        end
  end.

(** [for (const authEndpoint of [...]) { if (sid) break; try {...} catch {} }] *)
Fixpoint login_loop (w : World) (workingBase host : string)
    (params : URLSearchParams) (otpCode : JsVal) (endpoints : list string)
    (sid : JsVal) : JsVal * list Event :=
  match endpoints with
  | [] => (sid, [])
  | authEndpoint :: rest =>
      if truthy sid then (sid, [])
      else
        let '(set, evs) :=
          login_attempt w workingBase host params otpCode authEndpoint in
        let sid' := match set with Some s => s | None => sid end in
        let '(final, evs') :=
          login_loop w workingBase host params otpCode rest sid' in
        (final, (evs ++ evs')%list)
  end.

(** Step 3 of [main]: the session id, [null] when authentication failed. *)
Definition authenticate (w : World) (workingBase workingPath host : string)
    (account password : string) (otpCode : JsVal) : JsVal * list Event :=
  login_loop w workingBase host (loginParams w account password otpCode) otpCode
    [workingPath +:+ "/auth.cgi"; workingPath +:+ "/entry.cgi"] JNull.

(** The query of step 4 for one space. *)
Definition spaceParams (api : string) (sid : JsVal) : URLSearchParams :=
  [("api", api); ("version", "1"); ("method", "list"); ("type", "photo");
   ("offset", "0"); ("limit", "5"); ("_sid", toString sid);
   ("additional", NodeHelper.additional_fields)].

Definition spaces : list (string * string) :=
  [("Personal", "SYNO.Foto.Browse.Item"); ("Shared", "SYNO.FotoTeam.Browse.Item")].

(** The loop of step 4, entered with the current [photoList] and
    [usedSpace]. *)
Fixpoint probe_spaces (w : World) (workingBase workingPath : string) (sid : JsVal)
    (todo : list (string * string)) (photoList : list NodeHelper.Item)
    (usedSpace : string) : list NodeHelper.Item * string * list Event :=
  match todo with
  | [] => (photoList, usedSpace, [])
  | (space, api) :: rest =>
      let u := workingBase +:+ workingPath +:+ "/entry.cgi?"
               +:+ params_toString (spaceParams api sid) in
      let found :=
        match browse_reply w u with
        | Returned {| NodeHelper.success := s;
                      NodeHelper.data :=
                        Some {| NodeHelper.data_sid := _;
                                NodeHelper.data_list := Some (p :: l) |} |} =>
            if truthy s then Some (p :: l) else None
        | _ => None
        end in
      match found with
      | Some l => (l, space, [Requested u])
      | None =>
          let '(l, used, evs) :=
            probe_spaces w workingBase workingPath sid rest photoList usedSpace in
          (l, used, Requested u :: evs)
      end
  end.

(** Step 4 of [main]. *)
Definition fetch_sample (w : World) (workingBase workingPath : string) (sid : JsVal)
  : list NodeHelper.Item * string * list Event :=
  probe_spaces w workingBase workingPath sid spaces [] "Personal".

(** [p.additional?.thumbnail?.[size]] *)
Definition thumb_entry (p : NodeHelper.Item) (size : string) : JsVal :=
  match NodeHelper.item_additional p with
  | Some {| NodeHelper.thumbnail := Some t; NodeHelper.resolution := _ |} =>
      default JUndefined (t !! size)
  | _ => JUndefined
  end.

Definition ready_at (p : NodeHelper.Item) (size : string) : bool :=
  strict_eq (thumb_entry p size) (JStr "ready").



(** [size] of step 5. *)
Definition test_size (p : NodeHelper.Item) : string :=
  if ready_at p "xl" then "xl" else if ready_at p "m" then "m" else "sm".

(** [thumbUrl] of step 5. *)
Definition thumbUrl (workingBase workingPath usedSpace : string) (sid : JsVal)
    (p : NodeHelper.Item) : string :=
  let thumbApi :=
    if String.eqb usedSpace "Shared" then "SYNO.FotoTeam.Thumbnail"
    else "SYNO.Foto.Thumbnail" in
  workingBase +:+ workingPath +:+ "/entry.cgi?api=" +:+ thumbApi
  +:+ "&version=1&method=get&mode=download&id=" +:+ pretty (NodeHelper.item_id p)
  +:+ "&type=unit&size=" +:+ test_size p
  +:+ "&cache_key=" +:+ toString (thumb_entry p "cache_key")
  +:+ "&_sid=" +:+ toString sid.

(** The values the result block prints into the configuration it recommends. *)
Definition configPort (server : Server) : string :=
  if isQuickConnect server then "null" else toString (port server).

Definition configSecure (server : Server) : string :=
  if isQuickConnect server then "true"
  else if strict_eq (port server) (JNum 5000) then "false" else "true".

Definition configSharedSpace (usedSpace : string) : string :=
  if String.eqb usedSpace "Shared" then "true" else "false".

(** The URLs requested in a trace, and the token writes in it. *)
Definition requests (evs : list Event) : list string :=
  omap (fun e => match e with Requested u => Some u | _ => None end) evs.

Definition token_writes (evs : list Event) : list (JsVal * string) :=
  omap (fun e => match e with TokenWrite d s => Some (d, s) | _ => None end) evs.

(** A login answer that grants a session, and the data it carries: the
    request is answered, the body is the text of a JSON object, its
    [success] is truthy and its [data.sid] is truthy. *)
Definition granted (answer : Outcome AuthResponse) : option AuthData :=
  match answer with
  | Returned resp =>
      if startsWith (auth_text resp) "{"
      then match auth_parsed resp with
           | Returned {| auth_success := s; auth_data := Some d |} =>
               if truthy s && truthy (auth_sid d) then Some d else None
           | _ => None
           end
      else None
  | Threw _ => None
  end.

(** The photos a browse answer lists: [data.list] of a reply whose
    [success] is truthy, and none for every other answer. *)
Definition listed (answer : Outcome NodeHelper.Reply) : list NodeHelper.Item :=
  match answer with
  | Returned {| NodeHelper.success := s;
                NodeHelper.data :=
                  Some {| NodeHelper.data_sid := _;
                          NodeHelper.data_list := Some l |} |} =>
      if truthy s then l else []
  | _ => []
  end.

End Diagnostic.

(** ** Worlds for the diagnostic *)

Module DiagnosticSample.
Import Diagnostic.

(** A body "{...}" as the NAS sends it. *)
Definition json_body : string := "{" +:+ dquote +:+ "success" +:+ dquote +:+ ":true}".

(** A NAS that refuses auth.cgi with an HTML page, grants the login on
    entry.cgi with a device id, has no photos in personal space and two in
    shared space. *)
Definition world : World :=
  {| token_file := None;
     login_reply := fun u =>
       if includes u "/auth.cgi?"
       then Returned {| auth_text := "<html>403</html>";
                        auth_parsed := Threw "Unexpected token <" |}
       else Returned {| auth_text := json_body;
                        auth_parsed :=
                          Returned {| auth_success := JBool true;
                                      auth_data :=
                                        Some {| auth_sid := JStr "S1";
                                                did := JStr "DEV";
                                                device_id := JUndefined |} |} |};
     browse_reply := fun u =>
       if includes u "FotoTeam"
       then Returned {| NodeHelper.success := JBool true;
                        NodeHelper.data :=
                          Some {| NodeHelper.data_sid := JUndefined;
                                  NodeHelper.data_list :=
                                    Some [Sample.item 5 (JBool true) 1;
                                          Sample.item 6 (JStr "ready") 2] |} |}
       else Returned {| NodeHelper.success := JBool true;
                        NodeHelper.data :=
                          Some {| NodeHelper.data_sid := JUndefined;
                                  NodeHelper.data_list := Some [] |} |} |}.

End DiagnosticSample.

(** ** The front end (MMM-SynologyPhotos.js) *)

Module FrontEnd.
Import Js.

(** A width or height in pixels: a number, or [None] for [null]. *)
Definition pixels (v : option Z) : JsVal :=
  match v with Some n => JNum n | None => JNull end.

(** An entry of [SIZE_PRESETS]. *)
Record Preset : Type := { preset_width : option Z; preset_height : option Z }.

Definition SIZE_PRESETS : gmap string Preset :=
  list_to_map
    [("small", {| preset_width := Some 300; preset_height := Some 200 |});
     ("medium", {| preset_width := Some 480; preset_height := Some 320 |});
     ("large", {| preset_width := Some 800; preset_height := Some 600 |});
     ("xlarge", {| preset_width := Some 1024; preset_height := Some 768 |});
     ("fullscreen", {| preset_width := None; preset_height := None |})].

(** [this.config]: the fields the helper reads, and those of the front end.
    [width] and [height] are a number of pixels or [null]. *)
Record Config : Type := {
  helper : NodeHelper.Config;
  slideshowSpeed : JsVal;
  transitionSpeed : JsVal;
  backgroundSize : string;
  showFilename : JsVal;
  showDate : JsVal;
  showCounter : JsVal;
  sizePreset : JsVal;
  width : option Z;
  height : option Z;
  maxWidth : string;
  maxHeight : string
}.

(** [defaults] *)
Definition defaults : Config :=
  {| helper :=
       {| NodeHelper.serverUrl := EmptyString;
          NodeHelper.port := JNum 5001;
          NodeHelper.secure := JBool true;
          NodeHelper.account := EmptyString;
          NodeHelper.password := EmptyString;
          NodeHelper.sharedSpace := JBool false;
          NodeHelper.albumId := JNull;
          NodeHelper.folderId := JNull;
          NodeHelper.numPhotos := JNum 100;
          NodeHelper.thumbnailSize := JStr "auto";
          NodeHelper.shuffle := JBool true;
          NodeHelper.sortBy := JStr "time";
          NodeHelper.refreshInterval := JNum 3600000 |};
     slideshowSpeed := JNum 15000;
     transitionSpeed := JNum 2000;
     backgroundSize := "cover";
     showFilename := JBool false;
     showDate := JBool false;
     showCounter := JBool true;
     sizePreset := JNull;
     width := None;
     height := None;
     maxWidth := "100%";
     maxHeight := "100%" |}.

(** [{ width, height, cssWidth, cssHeight }] *)
Record Size : Type := {
  size_width : option Z;
  size_height : option Z;
  cssWidth : string;
  cssHeight : string
}.

(** [resolveSize].  A [sizePreset] that names no preset leaves both sizes
    [null]; so does, up to [undefined] for [null], one that names a property
    every object inherits. *)
Definition resolveSize (c : Config) : Size :=
  let preset :=
    if truthy (sizePreset c) then SIZE_PRESETS !! toString (sizePreset c) else None in
  let width0 := match preset with Some p => preset_width p | None => None end in
  let height0 := match preset with Some p => preset_height p | None => None end in
  let width1 := if truthy (pixels (width c)) then width c else width0 in
  let height1 := if truthy (pixels (height c)) then height c else height0 in
  {| size_width := width1;
     size_height := height1;
     cssWidth := if truthy (pixels width1)
                 then toString (pixels width1) +:+ "px" else maxWidth c;
     cssHeight := if truthy (pixels height1)
                  then toString (pixels height1) +:+ "px" else maxHeight c |}.

(** [w > k] for a size [w] and a number [k]; [null] counts as 0. *)
Definition greater (w : option Z) (k : Z) : bool :=
  match w with Some n => k <? n | None => k <? 0 end.

(** The choice [start] makes for [thumbnailSize: "auto"]. *)
Definition auto_thumbnail (w : option Z) : string :=
  if negb (truthy (pixels w)) || greater w 800 then "xl"
  else if greater w 320 then "m"
  else "sm".

(** The width of the thumbnail sizes, as the comment on [thumbnailSize] in
    [defaults] gives them: "sm" (240px), "m" (320px), "xl" (1280px). *)
Definition thumbnail_pixels (size : string) : Z :=
  if String.eqb size "sm" then 240
  else if String.eqb size "m" then 320
  else 1280.

(** [this.config.thumbnailSize = size] *)
Definition set_thumbnailSize (size : JsVal) (c : Config) : Config :=
  {| helper :=
       {| NodeHelper.serverUrl := NodeHelper.serverUrl (helper c);
          NodeHelper.port := NodeHelper.port (helper c);
          NodeHelper.secure := NodeHelper.secure (helper c);
          NodeHelper.account := NodeHelper.account (helper c);
          NodeHelper.password := NodeHelper.password (helper c);
          NodeHelper.sharedSpace := NodeHelper.sharedSpace (helper c);
          NodeHelper.albumId := NodeHelper.albumId (helper c);
          NodeHelper.folderId := NodeHelper.folderId (helper c);
          NodeHelper.numPhotos := NodeHelper.numPhotos (helper c);
          NodeHelper.thumbnailSize := size;
          NodeHelper.shuffle := NodeHelper.shuffle (helper c);
          NodeHelper.sortBy := NodeHelper.sortBy (helper c);
          NodeHelper.refreshInterval := NodeHelper.refreshInterval (helper c) |};
     slideshowSpeed := slideshowSpeed c;
     transitionSpeed := transitionSpeed c;
     backgroundSize := backgroundSize c;
     showFilename := showFilename c;
     showDate := showDate c;
     showCounter := showCounter c;
     sizePreset := sizePreset c;
     width := width c;
     height := height c;
     maxWidth := maxWidth c;
     maxHeight := maxHeight c |}.

(** The fields of the module object.  [currentIndex] is a number, [None]
    standing for [NaN]; [slideshowTimer] is [undefined] or the id of an
    interval, a positive integer. *)
Record Widget : Type := {
  config : Config;
  photos : list NodeHelper.Photo;
  currentIndex : option Z;
  loaded : bool;
  errorMessage : JsVal;
  resolvedSize : option Size;
  slideshowTimer : option positive
}.

Definition set_currentIndex (i : option Z) (m : Widget) : Widget :=
  {| config := config m; photos := photos m; currentIndex := i; loaded := loaded m;
     errorMessage := errorMessage m; resolvedSize := resolvedSize m;
     slideshowTimer := slideshowTimer m |}.

Definition set_slideshowTimer (t : option positive) (m : Widget) : Widget :=
  {| config := config m; photos := photos m; currentIndex := currentIndex m;
     loaded := loaded m; errorMessage := errorMessage m;
     resolvedSize := resolvedSize m; slideshowTimer := t |}.

(** The module object together with the intervals of its own that the
    browser is running. *)
Definition State : Type := Widget * gset positive.

(** What the module does to its surroundings. *)
Inductive Event : Type :=
  | SendSocketNotification (payload : NodeHelper.Config)
  | UpdateDom (speed : JsVal)
  | SetInterval (id : positive) (delay : JsVal)
  | ClearInterval (id : positive).

(** [start], for the merged configuration. *)
Definition start (c : Config) : State * list Event :=
  let size := resolveSize c in
  let c' :=
    if strict_eq (NodeHelper.thumbnailSize (helper c)) (JStr "auto")
    then set_thumbnailSize (JStr (auto_thumbnail (size_width size))) c
    else c in
  (({| config := c'; photos := []; currentIndex := Some 0; loaded := false;
       errorMessage := JNull; resolvedSize := Some size; slideshowTimer := None |},
    ∅),
   [SendSocketNotification (helper c')]).

(** [startSlideshow]; [id] is what [setInterval] returns if it is called. *)
Definition startSlideshow (id : positive) (s : State) : State * list Event :=
  let '(m, running) := s in
  let '(running1, cleared) :=
    match slideshowTimer m with
    | Some old => (running ∖ {[old]}, [ClearInterval old])
    | None => (running, [])
    end in
  if (length (photos m) <=? 1)%nat then ((m, running1), cleared)
  else
    ((set_slideshowTimer (Some id) m, {[id]} ∪ running1),
     (cleared ++ [SetInterval id (slideshowSpeed (config m))])%list).

(** [(this.currentIndex + 1) % this.photos.length] *)
Definition next_index (i : option Z) (n : nat) : option Z :=
  match i with
  | Some i => if (n =? 0)%nat then None else Some (Z.rem (i + 1) (Z.of_nat n))
  | None => None
  end.

(** The callback of the interval. *)
Definition on_interval (m : Widget) : Widget * list Event :=
  (set_currentIndex (next_index (currentIndex m) (length (photos m))) m,
   [UpdateDom (transitionSpeed (config m))]).

(** The interval [id] fires: nothing happens unless it is running. *)
Definition tick (id : positive) (s : State) : option (State * list Event) :=
  let '(m, running) := s in
  if decide (id ∈ running)
  then let '(m', evs) := on_interval m in Some ((m', running), evs)
  else None.

(** [socketNotificationReceived], for the two notifications of the helper. *)
Definition socketNotificationReceived (id : positive) (n : NodeHelper.Notification)
    (s : State) : State * list Event :=
  let '(m, running) := s in
  match n with
  | NodeHelper.SYNOLOGY_PHOTOS_DATA ps =>
      let m1 :=
        {| config := config m; photos := ps; currentIndex := Some 0; loaded := true;
           errorMessage := JNull; resolvedSize := resolvedSize m;
           slideshowTimer := slideshowTimer m |} in
      let '(s2, evs) := startSlideshow id (m1, running) in
      (s2, UpdateDom (transitionSpeed (config m)) :: evs)
  | NodeHelper.SYNOLOGY_PHOTOS_ERROR error =>
      (({| config := config m; photos := photos m; currentIndex := currentIndex m;
           loaded := true; errorMessage := JStr error;
           resolvedSize := resolvedSize m; slideshowTimer := slideshowTimer m |},
        running),
       [UpdateDom JUndefined])
  end.

(** [suspend] *)
Definition suspend (s : State) : State * list Event :=
  let '(m, running) := s in
  match slideshowTimer m with
  | Some old => ((m, running ∖ {[old]}), [ClearInterval old])
  | None => ((m, running), [])
  end.

(** [resume] *)
Definition resume (id : positive) (s : State) : State * list Event :=
  if (1 <? length (photos (fst s)))%nat then startSlideshow id s else (s, []).

(** [wrapper.style]: the properties [getDom] assigns. *)
Record Style : Type := {
  style_width : option string;
  style_maxWidth : string;
  style_height : option string;
  style_maxHeight : string
}.

(** The spans of the overlay; the date keeps the milliseconds given to
    [new Date], its text depends on the locale. *)
Inductive Span : Type :=
  | Filename (textContent : string)
  | DateOf (milliseconds : Z).

(** What [getDom] puts into the wrapper: markup through [innerHTML], or the
    image container. *)
Inductive Content : Type :=
  | InnerHTML (html : string)
  | Container (src alt objectFit : string) (overlay : option (list Span))
      (counter : option string).

Record Dom : Type := { style : Style; content : Content }.

(** [<div class="name">body</div>] *)
Definition div (name body : string) : string :=
  "<div class=" +:+ dquote +:+ name +:+ dquote +:+ ">" +:+ body +:+ "</div>".

(** [this.photos[this.currentIndex]] *)
Definition photo_at (ps : list NodeHelper.Photo) (i : option Z)
  : option NodeHelper.Photo :=
  match i with
  | Some i => if i <? 0 then None else ps !! Z.to_nat i
  | None => None
  end.

(** [getDom] *)
Definition getDom (m : Widget) : Outcome Dom :=
  let size := default (resolveSize (config m)) (resolvedSize m) in
  let st :=
    {| style_width :=
         if truthy (pixels (size_width size)) then Some (cssWidth size) else None;
       style_maxWidth :=
         if truthy (pixels (size_width size)) then cssWidth size
         else maxWidth (config m);
       style_height :=
         if truthy (pixels (size_height size)) then Some (cssHeight size) else None;
       style_maxHeight :=
         if truthy (pixels (size_height size)) then cssHeight size
         else maxHeight (config m) |} in
  if negb (loaded m)
  then Returned {| style := st;
                   content := InnerHTML (div "synology-photos-loading"
                                             "Loading photos&hellip;") |}
  else if truthy (errorMessage m)
  then Returned {| style := st;
                   content := InnerHTML (div "synology-photos-error"
                                             (toString (errorMessage m))) |}
  else if (length (photos m) =? 0)%nat
  then Returned {| style := st;
                   content := InnerHTML (div "synology-photos-empty"
                                             "No photos found.") |}
  else
    match photo_at (photos m) (currentIndex m) with
    | None => Threw NodeHelper.type_error
    | Some photo =>
        let c := config m in
        Returned
          {| style := st;
             content :=
               Container (NodeHelper.url photo)
                 (toString (or_else (JStr (NodeHelper.filename photo))
                                    (JStr "Synology Photo")))
                 (backgroundSize c)
                 (if truthy (showFilename c) || truthy (showDate c)
                  then Some
                         ((if truthy (showFilename c)
                           then [Filename (NodeHelper.filename photo)] else [])
                          ++ (if truthy (showDate c)
                                 && truthy (JNum (NodeHelper.time photo))
                              then [DateOf (NodeHelper.time photo * 1000)] else []))%list
                  else None)
                 (if truthy (showCounter c)
                  then Some (toString (match currentIndex m with
                                       | Some i => JNum (i + 1)
                                       | None => JNaN
                                       end)
                             +:+ " / "
                             +:+ toString (JNum (Z.of_nat (length (photos m)))))
                  else None) |}
    end.

(** The states the module goes through once started: a notification of
    the helper arrives, a running interval fires, the module is suspended or
    resumed. *)
Inductive reachable : State -> Prop :=
  | after_start c : reachable (fst (start c))
  | after_notification id n s :
      reachable s -> reachable (fst (socketNotificationReceived id n s))
  | after_tick id s s' evs :
      reachable s -> tick id s = Some (s', evs) -> reachable s'
  | after_suspend s : reachable s -> reachable (fst (suspend s))
  | after_resume id s : reachable s -> reachable (fst (resume id s)).

(** [k] firings of the interval [id] in a row. *)
Fixpoint ticks (k : nat) (id : positive) (s : State) : option State :=
  match k with
  | O => Some s
  | S k' =>
      match tick id s with
      | Some (s', _) => ticks k' id s'
      | None => None
      end
  end.

(** The notifications of the helper, delivered in order; [id] is what
    [setInterval] returns. *)
Definition deliver (id : positive) (ns : list NodeHelper.Notification) (s : State)
  : State :=
  fold_left (fun s n => fst (socketNotificationReceived id n s)) ns s.

(** What the module holds it can show. *)
Inductive wellformed : State -> Prop :=
  | wellformed_intro m running i :
      (forall id, id ∈ running -> slideshowTimer m = Some id) ->
      (running <> ∅ -> (1 < length (photos m))%nat) ->
      currentIndex m = Some i ->
      0 <= i ->
      (i = 0 \/ i < Z.of_nat (length (photos m))) ->
      resolvedSize m = Some (resolveSize (config m)) ->
      wellformed (m, running).

End FrontEnd.

(** ** A front end with photos *)

Module FrontSample.
Import FrontEnd.

Definition slide (i : Z) : NodeHelper.Photo :=
  {| NodeHelper.id := i; NodeHelper.filename := "a.jpg";
     NodeHelper.url := NodeHelper.proxy_path +:+ "x";
     NodeHelper.width := None; NodeHelper.height := None;
     NodeHelper.time := 10 * i |}.

(** The module after [start] with the defaults. *)
Definition started : State := fst (start defaults).

(** The module after three photos arrived; the interval has the id 7. *)
Definition showing : State :=
  fst (socketNotificationReceived 7%positive
         (NodeHelper.SYNOLOGY_PHOTOS_DATA [slide 1; slide 2; slide 3]) started).

(** The defaults with the "small" preset and a custom height. *)
Definition small_widget : Config :=
  {| helper := helper defaults;
     slideshowSpeed := slideshowSpeed defaults;
     transitionSpeed := transitionSpeed defaults;
     backgroundSize := backgroundSize defaults;
     showFilename := showFilename defaults;
     showDate := showDate defaults;
     showCounter := showCounter defaults;
     sizePreset := JStr "small";
     width := None;
     height := Some 250;
     maxWidth := maxWidth defaults;
     maxHeight := maxHeight defaults |}.

End FrontSample.

(** ** The earlier copy of the helper (in src/unnamed/part_000) *)

Module Earlier.
Import Js NodeHelper.

(** [fetch(url, { agent })]: always the https agent, and no Referer. *)
Definition fetch (w : World) (url : string) : Run Response :=
  let! _ := emit (Fetch url httpsAgent None) in
  lift (net w url).

(** [getBaseUrl], also the base URL [login] computes for itself. *)
Definition getBaseUrl (c : Config) : string :=
  let protocol := if truthy (secure c) then "https" else "http" in
  let portStr := if truthy (port c) then ":" +:+ toString (port c) else "" in
  protocol +:+ "://" +:+ serverUrl c +:+ portStr.

Definition loginParams (c : Config) : URLSearchParams :=
  [("api", "SYNO.API.Auth"); ("version", "3"); ("method", "login");
   ("account", account c); ("passwd", password c)].

Definition loginUrl (c : Config) : string :=
  getBaseUrl c +:+ "/photo/webapi/auth.cgi".

(** [login] *)
Definition login (w : World) : Run bool :=
  let! c := the_config in
  try_catch
    (let! response :=
       fetch w (loginUrl c +:+ "?" +:+ params_toString (loginParams c)) in
     let! data := lift (json response) in
     match data with
     | {| success := s; data := Some d |} =>
         if truthy s && truthy (data_sid d)
         then
           let! _ := modify (set_sid (data_sid d)) in
           ret true
         else ret false
     | {| success := _; data := None |} => ret false
     end)
    (fun _ => ret false).

Definition entryUrl (c : Config) : string :=
  getBaseUrl c +:+ "/photo/webapi/entry.cgi".

(** The common tail of the four browse functions; their queries are those
    of the helper. *)
Definition browse (w : World) (params : JsVal -> URLSearchParams) : Run Reply :=
  let! c := the_config in
  let! h := get in
  let! response :=
    fetch w (entryUrl c +:+ "?" +:+ params_toString (params (sid h))) in
  lift (json response).

(** [fetchPersonalPhotos] *)
Definition fetchPersonalPhotos (w : World) (offset limit : JsVal) : Run Reply :=
  browse w (fun sid => personalParams sid offset limit).

(** [fetchTeamPhotos] *)
Definition fetchTeamPhotos (w : World) (offset limit : JsVal) : Run Reply :=
  browse w (fun sid => teamParams sid offset limit).

(** [fetchAlbumPhotos] *)
Definition fetchAlbumPhotos (w : World) (albumId offset limit : JsVal) : Run Reply :=
  browse w (fun sid => albumParams sid albumId offset limit).

(** [fetchFolderPhotos] *)
Definition fetchFolderPhotos (w : World) (folderId offset limit : JsVal) : Run Reply :=
  browse w (fun sid => folderParams sid folderId offset limit).

(** [buildThumbnailUrl] *)
Definition buildThumbnailUrl (c : Config) (sid : JsVal) (photo : Item) (size : JsVal)
  : Outcome string :=
  match item_additional photo with
  | Some {| thumbnail := Some t; resolution := _ |} =>
      let cacheKey := default JUndefined (t !! "cache_key") in
      let apiName :=
        if truthy (sharedSpace c) then "SYNO.FotoTeam.Thumbnail"
        else "SYNO.Foto.Thumbnail" in
      Returned
        (getBaseUrl c +:+ "/photo/webapi/entry.cgi"
         +:+ "?api=" +:+ apiName
         +:+ "&version=1"
         +:+ "&method=get"
         +:+ "&mode=download"
         +:+ "&id=" +:+ pretty (item_id photo)
         +:+ "&type=unit"
         +:+ "&size=" +:+ toString size
         +:+ "&cache_key=" +:+ toString cacheKey
         +:+ "&_sid=" +:+ toString sid)
  | _ => Threw type_error
  end.

(** The filter callback of [fetchPhotos]: only the string "ready" counts. *)
Definition thumbnail_ready (thumbnailSize : JsVal) (p : Item) : bool :=
  match item_additional p with
  | Some {| thumbnail := Some t; resolution := _ |} =>
      strict_eq (default JUndefined (t !! toString thumbnailSize)) (JStr "ready")
  | _ => false
  end.

(** The map callback of [fetchPhotos]: the signed URL itself is the [url]. *)
Definition to_photo (c : Config) (sid : JsVal) (thumbnailSize : JsVal) (p : Item)
  : Outcome Photo :=
  match buildThumbnailUrl c sid p thumbnailSize with
  | Threw m => Threw m
  | Returned signed =>
      match item_additional p with
      | None => Threw type_error
      | Some a =>
          Returned
            {| id := item_id p;
               filename := item_filename p;
               url := signed;
               width := res_width <$> resolution a;
               height := res_height <$> resolution a;
               time := item_time p |}
      end
  end.

(** [fetchPhotos] *)
Definition fetchPhotos (w : World) : Run unit :=
  try_catch
    (let! loggedIn := login w in
     if negb loggedIn
     then sendSocketNotification
            (SYNOLOGY_PHOTOS_ERROR "Login failed. Check your credentials and server URL.")
     else
       let! c := the_config in
       let limit := or_else (numPhotos c) (JNum 100) in
       let thumbnailSize := or_else (thumbnailSize c) (JStr "xl") in
       let! reply :=
         if truthy (albumId c) then fetchAlbumPhotos w (albumId c) (JNum 0) limit
         else if truthy (folderId c) then fetchFolderPhotos w (folderId c) (JNum 0) limit
         else if truthy (sharedSpace c) then fetchTeamPhotos w (JNum 0) limit
         else fetchPersonalPhotos w (JNum 0) limit in
       let! photoList := photo_list reply in
       let! items :=
         match photoList with
         | Some l => ret (List.filter (thumbnail_ready thumbnailSize) l)
         | None => throw type_error
         end in
       let! h := get in
       let! mapped := lift (map_throwing (to_photo c (sid h) thumbnailSize) items) in
       let photos :=
         if truthy (shuffle c) then shuffle_array (random_index w) mapped
         else if strict_eq (sortBy c) (JStr "time") then array_sort by_time_desc mapped
         else mapped in
       let! _ := modify (set_photos photos) in
       let! _ := sendSocketNotification (SYNOLOGY_PHOTOS_DATA photos) in
       let! _ := match refreshTimer h with
                 | Some _ => emit ClearTimeout
                 | None => ret tt
                 end in
       let refreshInterval := or_else (refreshInterval c) (JNum 3600000) in
       let! _ := emit (SetTimeout refreshInterval) in
       modify (set_refreshTimer (Some refreshInterval)))
    (fun message => sendSocketNotification (SYNOLOGY_PHOTOS_ERROR message)).

End Earlier.

(** ** A listing whose thumbnails are marked by the boolean true *)

Module EarlierSample.
Import NodeHelper.

(** [{id: 3, filename: "a.jpg", time: 20,
      additional: {thumbnail: {sm: true, cache_key: "k"}}}] *)
Definition marked_true : Item := Sample.item 3 (JBool true) 20.

(** A NAS that grants the login and lists that one item. *)
Definition listing_marked_true : World :=
  Sample.nas_answering
    (Returned
       (Sample.response
          (Returned {| success := JBool true;
                       data := Some {| data_sid := JUndefined;
                                       data_list := Some [marked_true] |} |}))).

End EarlierSample.

(** ** Sanity checks of the string primitives *)

Example parseInt_5001 : Js.parseInt "5001" = Js.JNum 5001.
Proof. reflexivity. Qed.

Example parseInt_junk : Js.parseInt "abc" = Js.JNaN.
Proof. reflexivity. Qed.

Example parseInt_after_no_break_space :
  Js.parseInt (String (ascii_of_N 194) (String (ascii_of_N 160) "5000")) = Js.JNum 5000.
Proof. reflexivity. Qed.

Example encodeURIComponent_example :
  Js.encodeURIComponent "https://nas:5001/a?b=c&_sid=X_1"
  = "https%3A%2F%2Fnas%3A5001%2Fa%3Fb%3Dc%26_sid%3DX_1".
Proof. reflexivity. Qed.

Example split_example : Js.split ":" "192.168.1.100:5001" = ["192.168.1.100"; "5001"].
Proof. reflexivity. Qed.

Example strip_suffix_example :
  Js.strip_suffix ".quickconnect.to" "mynas.us.quickconnect.to" = "mynas.us".
Proof. reflexivity. Qed.

Example strip_trailing_example : Js.strip_trailing_slashes "a/b//" = "a/b".
Proof. reflexivity. Qed.

(** ** Properties of node_helper.js *)

Section HelperFacts.
Import NodeHelper Cycle.

Variable w : World.

Lemma the_config_run (h : Helper) (c : Config) :
  config h = Some c -> the_config h = (Returned c, h, []).
Proof. intros Hc. unfold the_config, bind, get. simpl. rewrite Hc. reflexivity. Qed.

Lemma synoFetch_run (c : Config) (u : string) (h : Helper) :
  synoFetch w u (serverUrl c) h = (net w u, h, [fetch_event c u]).
Proof.
  unfold synoFetch, bind, emit, lift, fetch_event. simpl.
  destruct (net w u); reflexivity.
Qed.

(** [login] never throws once a configuration is there; it makes one request
    and touches nothing but the session id, and only when it succeeds. *)
Lemma login_run (h : Helper) (c : Config) :
  config h = Some c ->
  exists b h1,
    login w h = (Returned b, h1, [fetch_event c (login_request w c)])
    /\ photos h1 = photos h /\ config h1 = Some c
    /\ refreshTimer h1 = refreshTimer h
    /\ (b = false -> h1 = h).
Proof.
  intros Hc. unfold login, bind at 1. rewrite (the_config_run h c Hc). simpl.
  unfold try_catch, bind. rewrite synoFetch_run. fold (login_request w c).
  destruct (net w (login_request w c)) as [resp|m]; simpl.
  - unfold lift. destruct (json resp) as [[s [d|]]|m]; simpl.
    + destruct (truthy s && truthy (data_sid d)); simpl.
      * exists true, (set_sid (data_sid d) h). repeat split; auto. discriminate.
      * exists false, h. repeat split; auto.
    + exists false, h. repeat split; auto.
    + exists false, h. repeat split; auto.
  - exists false, h. repeat split; auto.
Qed.

Lemma browse_run (params : JsVal -> URLSearchParams) (h : Helper) (c : Config) :
  config h = Some c ->
  let u := entryUrl c +:+ "?" +:+ params_toString (params (sid h)) in
  browse w params h
  = (match net w u with Returned resp => json resp | Threw m => Threw m end,
     h, [fetch_event c u]).
Proof.
  intros Hc u. unfold browse, bind at 1. rewrite (the_config_run h c Hc).
  unfold bind at 1, get. cbv beta iota. unfold bind at 1.
  rewrite synoFetch_run. fold u.
  destruct (net w u) as [resp|m]; simpl; [|reflexivity].
  unfold lift. destruct (json resp); reflexivity.
Qed.

(** The branch [fetchPhotos] takes is the browse query of the selected
    source. *)
Lemma selected_source_run (c : Config) (h : Helper) :
  (if truthy (albumId c) then fetchAlbumPhotos w (albumId c) (JNum 0) (limit_of c)
   else if truthy (folderId c) then fetchFolderPhotos w (folderId c) (JNum 0) (limit_of c)
   else if truthy (NodeHelper.sharedSpace c) then fetchTeamPhotos w (JNum 0) (limit_of c)
   else fetchPersonalPhotos w (JNum 0) (limit_of c)) h
  = browse w (fun sid => source_params (sourceSelector c) sid (JNum 0) (limit_of c)) h.
Proof.
  unfold sourceSelector.
  destruct (truthy (albumId c)); [reflexivity|].
  destruct (truthy (folderId c)); [reflexivity|].
  destruct (truthy (NodeHelper.sharedSpace c)); reflexivity.
Qed.

Lemma to_photo_ready (c : Config) (sid size : JsVal) (p : Item) :
  thumbnail_ready size p = true ->
  to_photo c sid size p = Returned (photo_of c sid size p).
Proof.
  unfold thumbnail_ready, to_photo, photo_of, signed_url, buildThumbnailUrl.
  destruct (item_additional p) as [[[t|] r]|]; try discriminate.
  intros _. reflexivity.
Qed.

Lemma map_throwing_ready (c : Config) (sid size : JsVal) (l : list Item) :
  map_throwing (to_photo c sid size) (List.filter (thumbnail_ready size) l)
  = Returned (map (photo_of c sid size) (List.filter (thumbnail_ready size) l)).
Proof.
  induction l as [|p l IH]; simpl; [reflexivity|].
  destruct (thumbnail_ready size p) eqn:E; [|exact IH].
  simpl. rewrite (to_photo_ready _ _ _ _ E), IH. reflexivity.
Qed.

Lemma fetchPhotos_no_config (h : Helper) :
  config h = None ->
  fetchPhotos w h
  = (Returned tt, h, [SendSocketNotification (SYNOLOGY_PHOTOS_ERROR type_error)]).
Proof.
  intros Hc. unfold fetchPhotos, try_catch, bind at 1, login, bind at 1.
  unfold the_config, bind, get. simpl. rewrite Hc. reflexivity.
Qed.

Lemma fetchPhotos_login_failed (h h1 : Helper) (c : Config) (e1 : list Event) :
  config h = Some c ->
  login w h = (Returned false, h1, e1) ->
  fetchPhotos w h
  = (Returned tt, h,
     (e1 ++ [SendSocketNotification
               (SYNOLOGY_PHOTOS_ERROR
                  "Login failed. Check your credentials and server URL.")])%list).
Proof.
  intros Hc Hl.
  destruct (login_run h c Hc) as (b & h1' & Hl' & _ & _ & _ & Hsame).
  rewrite Hl in Hl'. injection Hl' as <- <- ->.
  rewrite (Hsame eq_refl) in Hl.
  unfold fetchPhotos, try_catch, bind at 1. rewrite Hl. reflexivity.
Qed.

(** A cycle whose login succeeded: one browse request, then either an error
    notification with the state as login left it, or the publication of the
    retained photos. *)
Lemma fetchPhotos_logged_in (h h1 : Helper) (c : Config) (e1 : list Event) :
  config h = Some c ->
  login w h = (Returned true, h1, e1) ->
  let u := browse_request c (sid h1) in
  let fail m :=
    (Returned tt, h1,
     (e1 ++ [fetch_event c u; SendSocketNotification (SYNOLOGY_PHOTOS_ERROR m)])%list) in
  let publish l :=
    let done :=
      published w c h1 (map (photo_of c (sid h1) (size_of c)) (retained c l)) in
    (Returned tt, fst done, (e1 ++ fetch_event c u :: snd done)%list) in
  fetchPhotos w h
  = match net w u with
    | Threw m => fail m
    | Returned resp =>
        match json resp with
        | Threw m => fail m
        | Returned reply =>
            if truthy (success reply)
            then match data reply with
                 | None => fail type_error
                 | Some d =>
                     match data_list d with
                     | None => fail type_error
                     | Some l => publish l
                     end
                 end
            else publish []
        end
    end.
Proof.
  intros Hc Hl u fail publish.
  destruct (login_run h c Hc) as (b & h1' & Hl' & _ & Hc1 & _ & _).
  rewrite Hl in Hl'. injection Hl' as <- <- ->.
  unfold fetchPhotos, try_catch, bind at 1. rewrite Hl. simpl.
  unfold bind at 1. rewrite (the_config_run h1 c Hc1). simpl.
  unfold bind at 1. fold (limit_of c). rewrite selected_source_run.
  rewrite (browse_run _ h1 c Hc1). simpl. fold (browse_request c (sid h1)). fold u.
  destruct (net w u) as [resp|m]; [|reflexivity].
  destruct (json resp) as [reply|m]; [|reflexivity].
  fold (size_of c).
  unfold bind at 1, photo_list.
  destruct (truthy (success reply)).
  - destruct (data reply) as [d|]; [|reflexivity].
    simpl. destruct (data_list d) as [l|]; [|reflexivity].
    simpl. unfold bind at 1, get. simpl. unfold bind at 1, lift.
    rewrite map_throwing_ready. simpl.
    unfold publish, published, retained, ordered. simpl.
    destruct (refreshTimer h1); reflexivity.
  - cbv beta iota. unfold ret at 1. cbv beta iota.
    unfold bind at 1. unfold ret at 1. cbv beta iota.
    unfold bind at 1, get. cbv beta iota. unfold bind at 1, lift.
    rewrite map_throwing_ready.
    unfold publish, published, retained, ordered. simpl.
    destruct (refreshTimer h1); reflexivity.
Qed.

End HelperFacts.

Section Requests.
Import NodeHelper Cycle.

Lemma prefix_empty (s : string) : String.prefix "" s = true.
Proof. destruct s; reflexivity. Qed.

Lemma append_cons (x : ascii) (a b : string) :
  String x a +:+ b = String x (a +:+ b).
Proof. reflexivity. Qed.

Lemma append_assoc (a b c : string) : a +:+ b +:+ c = (a +:+ b) +:+ c.
Proof.
  induction a as [|x a IH]; [reflexivity|].
  rewrite !append_cons. by rewrite IH.
Qed.

Lemma append_empty_r (a : string) : a +:+ "" = a.
Proof.
  induction a as [|x a IH]; [reflexivity|].
  rewrite append_cons. by rewrite IH.
Qed.

(** C9. With [secure] absent, [login] builds its base URL on http while
    [getBaseUrl], on which every browse and thumbnail request is built, uses
    https: the login request and the other requests of one configuration go
    to different schemes. *)
Theorem absent_secure_splits_schemes (w : World) (c : Config) :
  secure c = JUndefined ->
  let portStr := if truthy (port c) then ":" +:+ toString (port c) else "" in
  loginBaseUrl c = "http://" +:+ serverUrl c +:+ portStr
  /\ getBaseUrl c = "https://" +:+ serverUrl c +:+ portStr
  /\ startsWith (login_request w c) "http://" = true
  /\ startsWith (login_request w c) "https://" = false
  /\ (forall sid, startsWith (browse_request c sid) "https://" = true)
  /\ (forall sid size p u,
        buildThumbnailUrl c sid p size = Returned u ->
        startsWith u "https://" = true).
Proof.
  intros Hs portStr.
  unfold login_request, browse_request, loginUrl, entryUrl, buildThumbnailUrl,
    loginBaseUrl, getBaseUrl, startsWith.
  rewrite Hs. simpl. repeat split; try reflexivity; try (intros; apply prefix_empty).
  intros sid size p u.
  destruct (item_additional p) as [[[t|] r]|]; try discriminate.
  intros [= <-]. simpl. apply prefix_empty.
Qed.

Lemma absent_secure_splits_schemes_witness :
  startsWith (login_request Sample.healthy Sample.nas_without_secure) "https://" = false
  /\ startsWith (browse_request Sample.nas_without_secure (JStr "SID123")) "https://" = true.
Proof.
  pose proof (absent_secure_splits_schemes Sample.healthy Sample.nas_without_secure
                eq_refl) as (_ & _ & _ & H1 & H2 & _).
  split; [exact H1 | exact (H2 (JStr "SID123"))].
Defined.

Lemma limit_of_source (s : Source) (sid offset limit : JsVal) :
  params_get "limit" (source_params s sid offset limit) = Some (toString limit).
Proof. destruct s; reflexivity. Qed.

Lemma fetches_app (e1 e2 : list Event) :
  fetches (e1 ++ e2) = (fetches e1 ++ fetches e2)%list.
Proof. apply omap_app. Qed.

Lemma notifications_app (e1 e2 : list Event) :
  notifications (e1 ++ e2) = (notifications e1 ++ notifications e2)%list.
Proof. apply omap_app. Qed.

Lemma published_trace (w : World) (c : Config) (h1 : Helper) (mapped : list Photo) :
  fetches (snd (published w c h1 mapped)) = []
  /\ notifications (snd (published w c h1 mapped))
     = [SYNOLOGY_PHOTOS_DATA (ordered w c mapped)]
  /\ photos (fst (published w c h1 mapped)) = ordered w c mapped
  /\ sid (fst (published w c h1 mapped)) = sid h1.
Proof. unfold published. simpl. destruct (refreshTimer h1); repeat split. Qed.

(** C10. The [limit] parameter of the browse request is the configured
    [numPhotos] when that is truthy and 100 otherwise; a configured 0 asks
    for 100 items. *)
Theorem browse_limit_parameter (w : World) (h h1 : Helper) (c : Config)
    (e1 : list Event) :
  config h = Some c ->
  login w h = (Returned true, h1, e1) ->
  let params := source_params (sourceSelector c) (sid h1) (JNum 0) (limit_of c) in
  (exists res h2 rest,
     fetchPhotos w h
     = (res, h2,
        (e1 ++ fetch_event c (entryUrl c +:+ "?" +:+ params_toString params)
            :: rest)%list)
     /\ fetches rest = [])
  /\ params_get "limit" params
     = Some (toString (if truthy (numPhotos c) then numPhotos c else JNum 100))
  /\ (numPhotos c = JNum 0 -> params_get "limit" params = Some "100").
Proof.
  intros Hc Hl params.
  pose proof (fetchPhotos_logged_in w h h1 c e1 Hc Hl) as E. cbv zeta in E.
  fold (browse_request c (sid h1)).
  split.
  - rewrite E.
    destruct (net w _) as [resp|m]; [|eauto 6].
    destruct (json resp) as [reply|m]; [|eauto 6].
    assert (forall mapped, fetches (snd (published w c h1 mapped)) = []) as Hpub
      by (intros mapped; apply published_trace).
    destruct (truthy (success reply)); [|eauto 6].
    destruct (data reply) as [d|]; [|eauto 6].
    destruct (data_list d) as [l|]; eauto 6.
  - unfold params. rewrite limit_of_source. unfold limit_of, or_else.
    split; [reflexivity|]. intros ->. reflexivity.
Qed.

Lemma browse_limit_parameter_witness :
  config (Sample.configured Sample.nas) = Some Sample.nas
  /\ login Sample.healthy (Sample.configured Sample.nas)
     = (Returned true, Sample.logged_in Sample.nas,
        [fetch_event Sample.nas (login_request Sample.healthy Sample.nas)])
  /\ params_get "limit"
       (source_params (sourceSelector Sample.nas) (JStr "SID123") (JNum 0)
          (limit_of Sample.nas))
     = Some "100".
Proof.
  assert (Hc : config (Sample.configured Sample.nas) = Some Sample.nas)
    by reflexivity.
  assert (Hl : login Sample.healthy (Sample.configured Sample.nas)
               = (Returned true, Sample.logged_in Sample.nas,
                  [fetch_event Sample.nas (login_request Sample.healthy Sample.nas)]))
    by (vm_compute; reflexivity).
  split; [exact Hc|]. split; [exact Hl|].
  exact (proj2 (proj2 (browse_limit_parameter _ _ _ _ _ Hc Hl)) eq_refl).
Defined.

(** A cycle that got past the login makes the login request and one browse
    request. *)
Lemma one_browse_request (w : World) (h h1 : Helper) (c : Config)
    (e1 : list Event) :
  config h = Some c ->
  login w h = (Returned true, h1, e1) ->
  exists res h2 evs,
    fetchPhotos w h = (res, h2, evs)
    /\ fetches evs = [login_request w c; browse_request c (sid h1)].
Proof.
  intros Hc Hl.
  pose proof (fetchPhotos_logged_in w h h1 c e1 Hc Hl) as E. cbv zeta in E.
  destruct (login_run w h c Hc) as (b & h1' & Hl' & _).
  rewrite Hl in Hl'. injection Hl' as _ _ ->.
  fold (browse_request c (sid h1)).
  assert (forall m,
            fetches ([fetch_event c (login_request w c)]
                     ++ [fetch_event c (browse_request c (sid h1));
                         SendSocketNotification (SYNOLOGY_PHOTOS_ERROR m)])
            = [login_request w c; browse_request c (sid h1)]) as Hfail
    by reflexivity.
  assert (forall mapped,
            fetches ([fetch_event c (login_request w c)]
                     ++ fetch_event c (browse_request c (sid h1))
                        :: snd (published w c h1 mapped))
            = [login_request w c; browse_request c (sid h1)]) as Hpub.
  { intros mapped.
    change (login_request w c :: browse_request c (sid h1)
              :: fetches (snd (published w c h1 mapped))
            = [login_request w c; browse_request c (sid h1)]).
    destruct (published_trace w c h1 mapped) as (-> & _). reflexivity. }
  rewrite E.
  destruct (net w _) as [resp|m]; [|eauto 6].
  destruct (json resp) as [reply|m]; [|eauto 6].
  destruct (truthy (success reply)); [|eauto 6].
  destruct (data reply) as [d|]; [|eauto 6].
  destruct (data_list d) as [l|]; eauto 6.
Qed.

(** C6. Whatever selectors are set, a cycle that got past the login makes
    exactly one browse request, to entry.cgi. It is the album query
    (SYNO.Foto.Browse.Item with [album_id]) when [albumId] is set; else the
    folder query (SYNO.Foto.Browse.Item with [folder_id]) when [folderId] is
    set; else the shared-space query (SYNO.FotoTeam.Browse.Item) when
    [sharedSpace] is set; else the personal-space query
    (SYNO.Foto.Browse.Item with neither id).  A selector is set when its
    value is truthy. *)
Theorem one_source_by_precedence (w : World) (h h1 : Helper) (c : Config)
    (e1 : list Event) :
  config h = Some c ->
  login w h = (Returned true, h1, e1) ->
  let query api selector :=
    ([("api", api); ("version", "1"); ("method", "list"); ("type", "photo");
      ("offset", "0"); ("limit", toString (limit_of c))]
     ++ selector
     ++ [("_sid", toString (sid h1)); ("additional", additional_fields)])%list in
  exists res h2 evs,
    fetchPhotos w h = (res, h2, evs)
    /\ fetches evs
       = [login_request w c;
          entryUrl c +:+ "?"
          +:+ params_toString
                (if truthy (albumId c)
                 then query "SYNO.Foto.Browse.Item"
                        [("album_id", toString (albumId c))]
                 else if truthy (folderId c)
                 then query "SYNO.Foto.Browse.Item"
                        [("folder_id", toString (folderId c))]
                 else if truthy (NodeHelper.sharedSpace c)
                 then query "SYNO.FotoTeam.Browse.Item" []
                 else query "SYNO.Foto.Browse.Item" [])].
Proof.
  intros Hc Hl query.
  destruct (one_browse_request w h h1 c e1 Hc Hl) as (res & h2 & evs & E & F).
  exists res, h2, evs. split; [exact E|]. rewrite F. f_equal. f_equal.
  unfold browse_request, sourceSelector, query. f_equal. f_equal.
  destruct (truthy (albumId c)); [reflexivity|].
  destruct (truthy (folderId c)); [reflexivity|].
  destruct (truthy (NodeHelper.sharedSpace c)); reflexivity.
Qed.

Lemma one_source_by_precedence_witness :
  config (Sample.configured Sample.nas_all_selectors) = Some Sample.nas_all_selectors
  /\ login Sample.healthy (Sample.configured Sample.nas_all_selectors)
     = (Returned true, Sample.logged_in Sample.nas_all_selectors,
        [fetch_event Sample.nas_all_selectors
           (login_request Sample.healthy Sample.nas_all_selectors)])
  /\ exists res h2 evs,
       fetchPhotos Sample.healthy (Sample.configured Sample.nas_all_selectors)
       = (res, h2, evs)
       /\ fetches evs
          = [login_request Sample.healthy Sample.nas_all_selectors;
             entryUrl Sample.nas_all_selectors +:+ "?"
             +:+ params_toString
                   [("api", "SYNO.Foto.Browse.Item"); ("version", "1");
                    ("method", "list"); ("type", "photo"); ("offset", "0");
                    ("limit", "25"); ("album_id", "7"); ("_sid", "SID123");
                    ("additional", additional_fields)]].
Proof.
  assert (Hc : config (Sample.configured Sample.nas_all_selectors)
               = Some Sample.nas_all_selectors) by reflexivity.
  assert (Hl : login Sample.healthy (Sample.configured Sample.nas_all_selectors)
               = (Returned true, Sample.logged_in Sample.nas_all_selectors,
                  [fetch_event Sample.nas_all_selectors
                     (login_request Sample.healthy Sample.nas_all_selectors)]))
    by (vm_compute; reflexivity).
  split; [exact Hc|]. split; [exact Hl|].
  destruct (one_source_by_precedence _ _ _ _ _ Hc Hl) as (res & h2 & evs & E & F).
  exists res, h2, evs. split; [exact E|exact F].
Defined.

End Requests.

Section Ordering.
Import NodeHelper Cycle.

Lemma swap_Permutation {A} (i j : nat) (a : list A) : swap i j a ≡ₚ a.
Proof.
  unfold swap. destruct (a !! i) as [x|] eqn:Hi; [|reflexivity].
  destruct (a !! j) as [y|] eqn:Hj; [|reflexivity].
  exact (Permutation_insert_swap a i j x y Hi Hj).
Qed.

Lemma shuffle_from_Permutation {A} (random : nat -> nat) (i : nat) (a : list A) :
  shuffle_from random i a ≡ₚ a.
Proof.
  revert a. induction i as [|i IH]; intros a; simpl; [reflexivity|].
  rewrite IH. apply swap_Permutation.
Qed.

Lemma shuffle_array_Permutation {A} (random : nat -> nat) (a : list A) :
  shuffle_array random a ≡ₚ a.
Proof. apply shuffle_from_Permutation. Qed.

Lemma sort_insert_Permutation {A} (f : A -> A -> Z) (x : A) (l : list A) :
  sort_insert f x l ≡ₚ x :: l.
Proof.
  induction l as [|y l IH]; simpl; [reflexivity|].
  destruct (f x y <=? 0); [reflexivity|].
  rewrite IH. apply Permutation_swap.
Qed.

Lemma array_sort_Permutation {A} (f : A -> A -> Z) (l : list A) :
  array_sort f l ≡ₚ l.
Proof.
  induction l as [|x l IH]; simpl; [reflexivity|].
  rewrite sort_insert_Permutation. by rewrite IH.
Qed.

Lemma sort_insert_descending (x : Photo) (l : list Photo) :
  time_descending l -> time_descending (sort_insert by_time_desc x l).
Proof.
  unfold time_descending. induction l as [|y l IH]; intros Hs; simpl.
  - repeat constructor.
  - unfold by_time_desc at 1. destruct (Z.leb_spec (time y - time x) 0) as [Hle|Hgt].
    + constructor; [exact Hs|]. constructor. lia.
    + inversion Hs as [|? ? Hl Hhd]; subst.
      constructor; [exact (IH Hl)|].
      destruct l as [|z l]; simpl.
      * constructor. lia.
      * unfold by_time_desc at 1. destruct (time z - time x <=? 0).
        -- constructor. lia.
        -- constructor. inversion Hhd; subst. assumption.
Qed.

Lemma array_sort_descending (l : list Photo) :
  time_descending (array_sort by_time_desc l).
Proof.
  induction l as [|x l IH]; simpl.
  - constructor.
  - apply sort_insert_descending, IH.
Qed.

Lemma ordered_Permutation (w : World) (c : Config) (ps : list Photo) :
  ordered w c ps ≡ₚ ps.
Proof.
  unfold ordered. destruct (truthy (shuffle c)).
  - apply shuffle_array_Permutation.
  - destruct (strict_eq (sortBy c) (JStr "time")); [|reflexivity].
    apply array_sort_Permutation.
Qed.

End Ordering.

Section Catalog.
Import NodeHelper Cycle.

(** A cycle that sends a data notification went through the login, read a
    listing, and published and stored the ordered photos of the retained
    items. *)
Lemma data_notification_inv (w : World) (h h2 : Helper) (c : Config)
    (res : Outcome unit) (evs : list Event) (ps : list Photo) :
  config h = Some c ->
  fetchPhotos w h = (res, h2, evs) ->
  In (SendSocketNotification (SYNOLOGY_PHOTOS_DATA ps)) evs ->
  exists l,
    listing_of w c (sid h2) = Some l
    /\ ps = ordered w c (map (photo_of c (sid h2) (size_of c)) (retained c l))
    /\ photos h2 = ps
    /\ notifications evs = [SYNOLOGY_PHOTOS_DATA ps].
Proof.
  intros Hc Hrun Hin.
  destruct (login_run w h c Hc) as (b & h1 & Hl & _ & _ & _ & _).
  destruct b.
  - pose proof (fetchPhotos_logged_in w h h1 c _ Hc Hl) as E. cbv zeta in E.
    rewrite Hrun in E. unfold listing_of.
    assert (forall m,
              (res, h2, evs)
              = (Returned tt, h1,
                 ([fetch_event c (login_request w c)]
                  ++ [fetch_event c (browse_request c (sid h1));
                      SendSocketNotification (SYNOLOGY_PHOTOS_ERROR m)])%list) ->
              False) as Hfail.
    { intros m [= -> -> ->]. simpl in Hin.
      destruct Hin as [|[|[|[]]]]; discriminate. }
    assert (forall l,
              listing_of w c (sid h1) = Some l ->
              (res, h2, evs)
              = (Returned tt,
                 fst (published w c h1
                        (map (photo_of c (sid h1) (size_of c)) (retained c l))),
                 ([fetch_event c (login_request w c)]
                  ++ fetch_event c (browse_request c (sid h1))
                     :: snd (published w c h1
                               (map (photo_of c (sid h1) (size_of c))
                                    (retained c l))))%list) ->
              exists l,
                listing_of w c (sid h2) = Some l
                /\ ps = ordered w c (map (photo_of c (sid h2) (size_of c)) (retained c l))
                /\ photos h2 = ps
                /\ notifications evs = [SYNOLOGY_PHOTOS_DATA ps]) as Hpub.
    { intros l Hlist [= -> -> ->].
      destruct (published_trace w c h1
                  (map (photo_of c (sid h1) (size_of c)) (retained c l)))
        as (_ & Hn & Hp & Hs).
      assert (ps = ordered w c (map (photo_of c (sid h1) (size_of c)) (retained c l)))
        as ->.
      { assert (In (SendSocketNotification (SYNOLOGY_PHOTOS_DATA ps))
                   (snd (published w c h1
                           (map (photo_of c (sid h1) (size_of c)) (retained c l)))))
          as Hin'.
        { simpl in Hin. destruct Hin as [|[|]]; [discriminate|discriminate|assumption]. }
        revert Hin'. unfold published. simpl.
        destruct (refreshTimer h1); simpl; intros Hin';
          repeat (destruct Hin' as [Hin'|Hin']; [try discriminate|]);
          try contradiction; congruence. }
      exists l. split; [exact Hlist|]. split; [reflexivity|]. split; [reflexivity|].
      destruct (refreshTimer h1); reflexivity. }
    unfold listing_of in Hpub.
    destruct (net w _) as [resp|m]; [|destruct (Hfail _ E)].
    destruct (json resp) as [reply|m]; [|destruct (Hfail _ E)].
    destruct (truthy (success reply)).
    + destruct (data reply) as [d|]; [|destruct (Hfail _ E)].
      simpl in Hpub.
      destruct (data_list d) as [l|]; [|destruct (Hfail _ E)].
      exact (Hpub l eq_refl E).
    + exact (Hpub [] eq_refl E).
  - rewrite (fetchPhotos_login_failed w h h1 c _ Hc Hl) in Hrun.
    injection Hrun as <- <- <-. simpl in Hin.
    destruct Hin as [|[|[]]]; discriminate.
Qed.

(** C2, as amended. A cycle that fails by a refused login or by a thrown
    error (rejected browse request, unreadable body, successful reply without
    a list) leaves the stored catalog as it was and sends one error
    notification and no data notification. *)
Theorem failed_cycle_keeps_catalog (w : World) (h : Helper) (c : Config) :
  config h = Some c ->
  cycle_throws w h c ->
  catalog_kept_with_error h (fetchPhotos w h).
Proof.
  intros Hc Hf. unfold catalog_kept_with_error.
  destruct (login_run w h c Hc) as (b & h1' & Hl' & Hp & _).
  assert (forall h1 e1 m,
            login w h = (Returned true, h1, e1) ->
            fetchPhotos w h
            = (Returned tt, h1,
               (e1 ++ [fetch_event c (browse_request c (sid h1));
                       SendSocketNotification (SYNOLOGY_PHOTOS_ERROR m)])%list) ->
            photos (snd (fst (fetchPhotos w h))) = photos h
            /\ exists m', notifications (snd (fetchPhotos w h))
                          = [SYNOLOGY_PHOTOS_ERROR m']) as Hfail.
  { intros h1 e1 m Hl E. rewrite Hl in Hl'. injection Hl' as _ <- ->.
    rewrite E. simpl. split; [exact Hp|]. exists m. reflexivity. }
  destruct Hf as [h1 e1 Hl|h1 e1 m Hl Hn|h1 e1 resp m Hl Hn Hj
                  |h1 e1 resp reply Hl Hn Hj Hs Hd].
  - rewrite (fetchPhotos_login_failed w h h1 c e1 Hc Hl).
    rewrite Hl in Hl'. injection Hl' as _ _ ->. simpl. split; [reflexivity|].
    eexists. reflexivity.
  - apply (Hfail h1 e1 m Hl).
    pose proof (fetchPhotos_logged_in w h h1 c e1 Hc Hl) as E. cbv zeta in E.
    rewrite E, Hn. reflexivity.
  - apply (Hfail h1 e1 m Hl).
    pose proof (fetchPhotos_logged_in w h h1 c e1 Hc Hl) as E. cbv zeta in E.
    rewrite E, Hn, Hj. reflexivity.
  - apply (Hfail h1 e1 type_error Hl).
    pose proof (fetchPhotos_logged_in w h h1 c e1 Hc Hl) as E. cbv zeta in E.
    rewrite E, Hn, Hj, Hs.
    destruct (data reply) as [d|]; [|reflexivity].
    simpl in Hd. rewrite Hd. reflexivity.
Qed.

(** A browse reply with [success: false] is not among these failures: the
    cycle publishes and stores the empty catalog. *)
Lemma refused_browse_publishes_nothing (w : World) (h : Helper) (c : Config) :
  config h = Some c ->
  browse_refused w h c ->
  photos (snd (fst (fetchPhotos w h))) = []
  /\ notifications (snd (fetchPhotos w h)) = [SYNOLOGY_PHOTOS_DATA []].
Proof.
  intros Hc (h1 & e1 & resp & reply & Hl & Hn & Hj & Hs).
  pose proof (fetchPhotos_logged_in w h h1 c e1 Hc Hl) as E. cbv zeta in E.
  rewrite E, Hn, Hj, Hs.
  destruct (login_run w h c Hc) as (b & h1' & Hl' & _).
  rewrite Hl in Hl'. injection Hl' as _ _ ->.
  assert (ordered w c [] = []) as Ho.
  { unfold ordered. destruct (truthy (shuffle c)); [reflexivity|].
    destruct (strict_eq _ _); reflexivity. }
  unfold published. simpl. rewrite Ho.
  destruct (refreshTimer h1); split; reflexivity.
Qed.

Lemma failed_cycle_keeps_catalog_witness :
  let h := snd (fst (fetchPhotos Sample.healthy (Sample.configured Sample.nas))) in
  config h = Some Sample.nas
  /\ cycle_throws Sample.dropping h Sample.nas
  /\ catalog_kept_with_error h (fetchPhotos Sample.dropping h).
Proof.
  intros h.
  assert (Hc : config h = Some Sample.nas) by reflexivity.
  assert (Hf : cycle_throws Sample.dropping h Sample.nas).
  { apply (network_error Sample.dropping h Sample.nas h
             [fetch_event Sample.nas (login_request Sample.dropping Sample.nas)]
             "socket hang up"); vm_compute; reflexivity. }
  split; [exact Hc|]. split; [exact Hf|].
  exact (failed_cycle_keeps_catalog Sample.dropping h Sample.nas Hc Hf).
Defined.

(** C2, as stated, fails: after a successful cycle, a cycle whose browse
    reply says [success: false] empties the stored catalog and sends a data
    notification. *)
Lemma refused_browse_clears_catalog :
  let h := snd (fst (fetchPhotos Sample.healthy (Sample.configured Sample.nas))) in
  photos h <> []
  /\ browse_refused Sample.refusing h Sample.nas
  /\ ~ catalog_kept_with_error h (fetchPhotos Sample.refusing h).
Proof.
  intros h. split; [|split].
  - vm_compute. discriminate.
  - exists h, [fetch_event Sample.nas (login_request Sample.refusing Sample.nas)],
      (Sample.response (Returned Sample.refusal)), Sample.refusal.
    repeat split; vm_compute; reflexivity.
  - intros [Hp _]. vm_compute in Hp. discriminate.
Qed.

(** C7. With shuffle off and [sortBy] equal to "time", the published photo
    sequence is non-increasing in [time], and it is the stored catalog. *)
Theorem sorted_catalog_is_time_descending (w : World) (h h2 : Helper) (c : Config)
    (res : Outcome unit) (evs : list Event) (ps : list Photo) :
  config h = Some c ->
  truthy (shuffle c) = false ->
  sortBy c = JStr "time" ->
  fetchPhotos w h = (res, h2, evs) ->
  In (SendSocketNotification (SYNOLOGY_PHOTOS_DATA ps)) evs ->
  time_descending ps /\ photos h2 = ps.
Proof.
  intros Hc Hsh Hso Hrun Hin.
  destruct (data_notification_inv w h h2 c res evs ps Hc Hrun Hin)
    as (l & _ & -> & Hp & _).
  split; [|exact Hp].
  unfold ordered. rewrite Hsh, Hso. simpl.
  apply array_sort_descending.
Qed.

Lemma sorted_catalog_is_time_descending_witness :
  let run := fetchPhotos Sample.healthy (Sample.configured Sample.nas) in
  let ps := photos (snd (fst run)) in
  map time ps = [20; 10] /\ time_descending ps.
Proof.
  intros run ps. split; [vm_compute; reflexivity|].
  refine (proj1 (sorted_catalog_is_time_descending Sample.healthy
                   (Sample.configured Sample.nas) (snd (fst run)) Sample.nas
                   (fst (fst run)) (snd run) ps eq_refl eq_refl eq_refl _ _)).
  - vm_compute. reflexivity.
  - vm_compute. right. right. left. reflexivity.
Defined.

Lemma strict_eq_ready (v : JsVal) :
  strict_eq v (JStr "ready") || strict_eq v (JBool true) = true
  <-> v = JStr "ready" \/ v = JBool true.
Proof.
  destruct v as [| |[|]| |n|s]; simpl; split;
    try (intros [|]; discriminate); try discriminate; auto.
  - rewrite orb_false_r. intros E%String.eqb_eq. left. congruence.
  - intros [[= ->]|]; [reflexivity|discriminate].
Qed.

(** The filter callback keeps exactly the items marked ready. *)
Lemma thumbnail_ready_iff (size : JsVal) (p : Item) :
  thumbnail_ready size p = true <-> marked_ready size p.
Proof.
  unfold thumbnail_ready, marked_ready.
  destruct (item_additional p) as [[[t|] r]|].
  - rewrite strict_eq_ready. split.
    + intros Hv. exists {| thumbnail := Some t; resolution := r |}, t.
      repeat split.
      destruct (t !! toString size) as [v|]; simpl in Hv.
      * destruct Hv as [->| ->]; auto.
      * destruct Hv; discriminate.
    + intros (a & t' & [= <-] & [= <-] & [E|E]); rewrite E; simpl; auto.
  - split; [discriminate|]. intros (a & t' & [= <-] & [=] & _).
  - split; [discriminate|]. intros (a & t' & [=] & _).
Qed.

(** The helper of src/node_helper.js does what the property on retained
    items says: in a cycle that publishes a catalog, the catalog holds
    exactly the photos of the listing items whose thumbnail-readiness map
    has, for the configured size, the string "ready" or the boolean true:
    every other item (no map, no entry, any other value) is dropped. *)
Theorem retained_iff_thumbnail_ready (w : World) (h h2 : Helper) (c : Config)
    (res : Outcome unit) (evs : list Event) (ps : list Photo) :
  config h = Some c ->
  fetchPhotos w h = (res, h2, evs) ->
  In (SendSocketNotification (SYNOLOGY_PHOTOS_DATA ps)) evs ->
  exists l kept,
    listing_of w c (sid h2) = Some l
    /\ ps ≡ₚ map (photo_of c (sid h2) (size_of c)) kept
    /\ map id ps ≡ₚ map item_id kept
    /\ kept = List.filter (thumbnail_ready (size_of c)) l
    /\ (forall p, In p kept <-> In p l /\ marked_ready (size_of c) p).
Proof.
  intros Hc Hrun Hin.
  destruct (data_notification_inv w h h2 c res evs ps Hc Hrun Hin)
    as (l & Hl & -> & _ & _).
  exists l, (retained c l). split; [exact Hl|].
  split; [apply ordered_Permutation|].
  split.
  - rewrite ordered_Permutation, map_map. reflexivity.
  - split; [reflexivity|]. intros p. unfold retained.
    rewrite List.filter_In, thumbnail_ready_iff. reflexivity.
Qed.

(** The earlier copy of the helper keeps fewer items: an entry that is the
    boolean true is dropped there. *)
Remark earlier_filter_drops_boolean_true :
  thumbnail_ready (JStr "sm") (Sample.item 3 (JBool true) 20) = true
  /\ thumbnail_ready_earlier (JStr "sm") (Sample.item 3 (JBool true) 20) = false.
Proof. split; vm_compute; reflexivity. Qed.

Lemma retained_iff_thumbnail_ready_witness :
  let run := fetchPhotos Sample.healthy (Sample.configured Sample.nas) in
  exists ps kept,
    In (SendSocketNotification (SYNOLOGY_PHOTOS_DATA ps)) (snd run)
    /\ map id ps ≡ₚ map item_id kept
    /\ map item_id kept = [1; 3].
Proof.
  intros run.
  assert (Hin : In (SendSocketNotification
                      (SYNOLOGY_PHOTOS_DATA (photos (snd (fst run))))) (snd run))
    by (vm_compute; right; right; left; reflexivity).
  destruct (retained_iff_thumbnail_ready Sample.healthy
              (Sample.configured Sample.nas) (snd (fst run)) Sample.nas
              (fst (fst run)) (snd run) (photos (snd (fst run)))
              eq_refl ltac:(vm_compute; reflexivity) Hin)
    as (l & kept & Hl & _ & Hids & Hk & _).
  exists (photos (snd (fst run))), kept.
  split; [exact Hin|]. split; [exact Hids|].
  rewrite Hk. vm_compute in Hl. injection Hl as <-. vm_compute. reflexivity.
Defined.

(** What the earlier copy of the helper keeps, the helper keeps too. *)
Lemma earlier_ready_is_ready (size : JsVal) (p : Item) :
  Earlier.thumbnail_ready size p = true -> thumbnail_ready size p = true.
Proof.
  unfold Earlier.thumbnail_ready, thumbnail_ready.
  destruct (item_additional p) as [[[t|] r]|]; try discriminate.
  intros ->. reflexivity.
Qed.

Lemma earlier_filter_keeps_less (size : JsVal) (l : list Item) :
  List.filter (Earlier.thumbnail_ready size) l
  = List.filter (Earlier.thumbnail_ready size) (List.filter (thumbnail_ready size) l).
Proof.
  induction l as [|p l IH]; [reflexivity|]. cbn [List.filter].
  destruct (Earlier.thumbnail_ready size p) eqn:He.
  - rewrite (earlier_ready_is_ready size p He). cbn [List.filter].
    rewrite He. f_equal. exact IH.
  - destruct (thumbnail_ready size p); [|exact IH].
    cbn [List.filter]. rewrite He. exact IH.
Qed.

(** C3. The earlier copy of the helper (the one in src/unnamed/part_000)
    drops an item the property says is retained: on a listing of one item
    whose entry for the configured size "sm" is the boolean true, its cycle
    publishes an empty catalog, while the cycle of src/node_helper.js
    publishes that item. *)
Theorem earlier_copy_drops_item_marked_true :
  marked_ready (size_of Sample.nas) EarlierSample.marked_true
  /\ listing_of EarlierSample.listing_marked_true Sample.nas (JStr "SID123")
     = Some [EarlierSample.marked_true]
  /\ notifications
       (snd (Earlier.fetchPhotos EarlierSample.listing_marked_true
               (Sample.configured Sample.nas)))
     = [SYNOLOGY_PHOTOS_DATA []]
  /\ map id
       (photos (snd (fst (fetchPhotos EarlierSample.listing_marked_true
                            (Sample.configured Sample.nas)))))
     = [3].
Proof.
  split.
  - apply thumbnail_ready_iff. vm_compute. reflexivity.
  - repeat split; vm_compute; reflexivity.
Qed.

End Catalog.

Section SessionId.
Import NodeHelper Cycle.

Lemma encodeURIComponent_app (a b : string) :
  encodeURIComponent (a +:+ b) = encodeURIComponent a +:+ encodeURIComponent b.
Proof.
  induction a as [|x a IH]; simpl; [reflexivity|].
  rewrite IH. apply append_assoc.
Qed.

(** A string of unreserved characters passes [encodeURIComponent] unchanged. *)
Lemma encodeURIComponent_unreserved (s : string) :
  forallb uri_unreserved (list_ascii_of_string s) = true ->
  encodeURIComponent s = s.
Proof.
  induction s as [|x s IH]; simpl; [reflexivity|].
  intros [Hx Hs]%andb_true_iff. rewrite Hx, (IH Hs). reflexivity.
Qed.

Lemma prefix_app (a b : string) : String.prefix a (a +:+ b) = true.
Proof.
  induction a as [|x a IH]; simpl; [apply prefix_empty|].
  destruct (ascii_dec x x); [exact IH|contradiction].
Qed.

Lemma includes_prefix (s p : string) :
  String.prefix p s = true -> includes s p = true.
Proof. intros H. destruct s; cbn [includes]; rewrite H; reflexivity. Qed.

Lemma includes_middle (a b c : string) : includes (a +:+ b +:+ c) b = true.
Proof.
  induction a as [|x a IH].
  - change ("" +:+ b +:+ c) with (b +:+ c). apply includes_prefix, prefix_app.
  - rewrite append_cons. cbn [includes]. rewrite IH. apply orb_true_r.
Qed.

(** The signed URL of an item with a thumbnail map ends with the session
    id parameter. *)
Lemma signed_url_ends_with_sid (c : Config) (sid size : JsVal) (p : Item) :
  thumbnail_ready size p = true ->
  exists pre,
    buildThumbnailUrl c sid p size = Returned (pre +:+ "&_sid=" +:+ toString sid).
Proof.
  unfold thumbnail_ready, buildThumbnailUrl.
  destruct (item_additional p) as [[[t|] r]|]; try discriminate.
  intros _. eexists. f_equal.
  rewrite !append_assoc. reflexivity.
Qed.

(** C1, as amended. Every photo of a published catalog has for [url] the
    local proxy path followed by the percent-encoded signed thumbnail URL,
    whose last parameter is the session id: the session id is part of [url]
    in percent-encoded form, which is the id itself when it is made of
    unreserved characters. *)
Theorem proxied_url_carries_session_id (w : World) (h h2 : Helper) (c : Config)
    (res : Outcome unit) (evs : list Event) (ps : list Photo) (p : Photo) :
  config h = Some c ->
  fetchPhotos w h = (res, h2, evs) ->
  In (SendSocketNotification (SYNOLOGY_PHOTOS_DATA ps)) evs ->
  In p ps ->
  exists pre,
    url p = proxy_path +:+ encodeURIComponent pre +:+ "%26_sid%3D"
            +:+ encodeURIComponent (toString (sid h2))
    /\ includes (url p) (encodeURIComponent (toString (sid h2))) = true
    /\ (forallb uri_unreserved (list_ascii_of_string (toString (sid h2))) = true ->
        includes (url p) (toString (sid h2)) = true).
Proof.
  intros Hc Hrun Hin Hp.
  destruct (data_notification_inv w h h2 c res evs ps Hc Hrun Hin)
    as (l & _ & -> & _ & _).
  apply (Permutation_in _ (ordered_Permutation w c _)) in Hp.
  apply in_map_iff in Hp as (item & <- & Hitem).
  apply List.filter_In in Hitem as [_ Hready].
  destruct (signed_url_ends_with_sid c (sid h2) (size_of c) item Hready) as (pre & E).
  exists pre.
  assert (url (photo_of c (sid h2) (size_of c) item)
          = proxy_path +:+ encodeURIComponent pre +:+ "%26_sid%3D"
            +:+ encodeURIComponent (toString (sid h2))) as Hurl.
  { unfold photo_of, signed_url. rewrite E. cbn [url].
    rewrite !encodeURIComponent_app. reflexivity. }
  assert (includes (url (photo_of c (sid h2) (size_of c) item))
            (encodeURIComponent (toString (sid h2))) = true) as Hinc.
  { rewrite Hurl.
    replace (proxy_path +:+ encodeURIComponent pre +:+ "%26_sid%3D"
             +:+ encodeURIComponent (toString (sid h2)))
      with ((proxy_path +:+ encodeURIComponent pre +:+ "%26_sid%3D")
            +:+ encodeURIComponent (toString (sid h2)) +:+ "").
    - apply includes_middle.
    - rewrite append_empty_r, <- !append_assoc. reflexivity. }
  split; [exact Hurl|]. split; [exact Hinc|].
  intros Hsafe. rewrite (encodeURIComponent_unreserved _ Hsafe) in Hinc. exact Hinc.
Qed.

Lemma proxied_url_carries_session_id_witness :
  let run := fetchPhotos Sample.healthy (Sample.configured Sample.nas) in
  exists p, In p (photos (snd (fst run)))
            /\ includes (url p) "SID123" = true.
Proof.
  intros run.
  pose (p := photo_of Sample.nas (JStr "SID123") (JStr "sm")
               (Sample.item 1 (JStr "ready") 10)).
  assert (Hp : In p (photos (snd (fst run))))
    by (vm_compute; right; left; reflexivity).
  exists p. split; [exact Hp|].
  destruct (proxied_url_carries_session_id Sample.healthy
              (Sample.configured Sample.nas) (snd (fst run)) Sample.nas
              (fst (fst run)) (snd run) (photos (snd (fst run))) p
              eq_refl ltac:(vm_compute; reflexivity)
              ltac:(vm_compute; right; right; left; reflexivity) Hp)
    as (pre & _ & _ & Hinc).
  exact (Hinc eq_refl).
Defined.

(** C1, as stated, fails: after a cycle against a NAS that granted the session
    id SID123, the URL of a published photo contains SID123. *)
Lemma session_id_in_photo_url :
  ~ session_id_hidden
      (snd (fst (fetchPhotos Sample.healthy (Sample.configured Sample.nas)))).
Proof.
  intros Hhidden.
  assert (In (photo_of Sample.nas (JStr "SID123") (JStr "sm")
                (Sample.item 1 (JStr "ready") 10))
             (photos (snd (fst (fetchPhotos Sample.healthy
                                  (Sample.configured Sample.nas)))))) as Hp
    by (vm_compute; right; left; reflexivity).
  apply Hhidden in Hp. vm_compute in Hp. discriminate.
Qed.

End SessionId.

Section Proxy.
Import NodeHelper Cycle.

(** Closes the cases of an answer that is known: those whose premises do not
    fit are contradictory, the others hold by computation. *)
Local Ltac settle_answer :=
  repeat split; try discriminate; intros;
  try match goal with
      | H : forall s, QString _ <> QString s |- _ => destruct (H _ eq_refl)
      end;
  simplify_eq;
  try match goal with
      | H1 : net ?w ?s = _, H2 : net ?w ?s = _ |- _ => rewrite H1 in H2
      end;
  simplify_eq; try congruence; try reflexivity.

(** C8, as amended. The handler always answers and never throws. A missing
    or empty [url] parameter gets 400 and no outbound request. A parameter
    that is not one string gets the 500 proxy-failure answer without an
    outbound request, and so does any request that arrives before the helper
    has a configuration. With a configuration, a string target is requested
    as it is: an upstream answer that is not a success is passed through with
    its status, and a rejected request (network error, or a target that is
    no absolute URL) gets the 500 proxy-failure answer. *)
Theorem proxy_answers (w : World) (h : Helper) (q : QueryValue) :
  exists sent evs,
    setupProxy w q h = (Returned sent, h, evs)
    /\ (query_truthy q = false ->
        sent_status sent = 400 /\ sent_body sent = "Missing URL" /\ evs = [])
    /\ (query_truthy q = true -> (forall s, q <> QString s) ->
        sent_status sent = 500 /\ sent_body sent = "Proxy error" /\ evs = [])
    /\ (query_truthy q = true -> config h = None ->
        sent_status sent = 500 /\ sent_body sent = "Proxy error" /\ evs = [])
    /\ (forall c s resp,
          config h = Some c -> q = QString s -> query_truthy q = true ->
          net w s = Returned resp -> ok resp = false ->
          sent_status sent = status resp /\ sent_body sent = statusText resp
          /\ fetches evs = [s])
    /\ (forall c s m,
          config h = Some c -> q = QString s -> query_truthy q = true ->
          net w s = Threw m ->
          sent_status sent = 500 /\ sent_body sent = "Proxy error"
          /\ fetches evs = [s]).
Proof.
  unfold setupProxy.
  destruct (query_truthy q) eqn:Hq; simpl.
  - unfold try_catch, bind at 1.
    destruct (config h) as [c|] eqn:Hc.
    + rewrite (the_config_run h c Hc).
      destruct q as [|s|l|]; try discriminate.
      * unfold bind at 1, ret at 1. cbv beta iota. unfold bind at 1.
        rewrite synoFetch_run.
        destruct (net w s) as [resp|m] eqn:Hn; [destruct (ok resp) eqn:Hok|];
          simpl; do 2 eexists; (split; [reflexivity|]); settle_answer.
      * simpl. do 2 eexists. split; [reflexivity|]. settle_answer.
      * simpl. do 2 eexists. split; [reflexivity|]. settle_answer.
    + unfold the_config, bind, get. simpl. rewrite Hc. simpl.
      do 2 eexists. split; [reflexivity|]. settle_answer.
  - do 2 eexists. split; [reflexivity|]. settle_answer.
Qed.

Lemma proxy_answers_witness :
  exists sent evs,
    setupProxy Sample.bad_gateway (QString "https://nas.local:5001/x")
      (Sample.configured Sample.nas)
    = (Returned sent, Sample.configured Sample.nas, evs)
    /\ sent_status sent = 502.
Proof.
  destruct (proxy_answers Sample.bad_gateway (Sample.configured Sample.nas)
              (QString "https://nas.local:5001/x"))
    as (sent & evs & E & _ & _ & _ & Hpass & _).
  exists sent, evs. split; [exact E|].
  exact (proj1 (Hpass Sample.nas "https://nas.local:5001/x" _
                  eq_refl eq_refl eq_refl eq_refl eq_refl)).
Defined.

(** C8, as stated, fails: a [url] parameter given twice reaches the handler
    as an array and is answered with 500, and so is a string that is no URL
    once the request for it is rejected; neither is a client error, and the
    second one did cause a request. *)
Lemma malformed_target_gets_500 :
  setupProxy Sample.unreachable (QArray ["a"; "b"]) (Sample.configured Sample.nas)
  = (Returned {| sent_status := 500; sent_headers := []; sent_body := "Proxy error" |},
     Sample.configured Sample.nas, [])
  /\ setupProxy Sample.unreachable (QString "not a url") (Sample.configured Sample.nas)
     = (Returned {| sent_status := 500; sent_headers := []; sent_body := "Proxy error" |},
        Sample.configured Sample.nas,
        [Fetch "not a url" httpAgent (Some "https://nas.local/")])
  /\ ~ malformed_is_client_error.
Proof.
  split; [reflexivity|]. split; [reflexivity|].
  intros Hclaim.
  destruct (Hclaim Sample.unreachable (Sample.configured Sample.nas)
              (QArray ["a"; "b"]) I) as (sent & h' & evs & E & [_ Hle] & _).
  injection E as <- _ _. simpl in Hle. lia.
Qed.

End Proxy.

(** ** Properties of test_connection.js *)

Section Resolver.
Import TestConnection.

Variable w : World.

Lemma direct_candidate_url_truthy (server : Server) :
  isQuickConnect server = false ->
  exists c, candidates_of w server = [c]
            /\ label c = "Direct" /\ truthy (JStr (url c)) = true.
Proof.
  intros Hd. unfold candidates_of. rewrite Hd.
  eexists. split; [reflexivity|]. split; [reflexivity|].
  simpl. destruct (strict_eq _ _); reflexivity.
Qed.

(** [testApiEndpoint] is true exactly when the world gives a valid API-info
    response to its request. *)
Lemma testApiEndpoint_answers (baseUrl apiPath refererHost : string) :
  testApiEndpoint w baseUrl apiPath refererHost
  = Probe.answers w refererHost (baseUrl, apiPath).
Proof.
  unfold testApiEndpoint, Probe.answers, Probe.valid_api_info, Probe.info_url.
  cbn [fst snd]. destruct (api_info w _ refererHost) as [resp|m]; [|reflexivity].
  destruct (startsWith (text resp) "{"), (parsed_success resp); reflexivity.
Qed.

(** C4. For a direct address step 1 of the diagnostic has exactly one
    candidate, http on port 5000 and https otherwise. It is probed with
    /webapi first: when the world gives a valid API-info response to that
    request, /webapi is adopted and no other probe is made; otherwise
    /photo/webapi is probed, and adopted when its response is valid.  The
    helper does not probe: for an address that is not a relay address it
    uses /photo/webapi. *)
Theorem direct_address_tries_webapi_first (serverArg : string) :
  isQuickConnect (parseServer serverArg) = false ->
  let server := parseServer serverArg in
  let base :=
    (if strict_eq (port server) (JNum 5000) then "http" else "https")
    +:+ "://" +:+ host server +:+ ":" +:+ toString (port server) in
  candidates_of w server = [{| url := base; label := "Direct" |}]
  /\ find_nas w serverArg
     = (if Probe.valid_api_info
             (api_info w (base +:+ "/webapi"
                          +:+ "/entry.cgi?api=SYNO.API.Info&version=1&method=query")
                (host server))
        then ([(base, "/webapi")], Some (base, "/webapi"))
        else if Probe.valid_api_info
                  (api_info w (base +:+ "/photo/webapi"
                               +:+ "/entry.cgi?api=SYNO.API.Info&version=1&method=query")
                     (host server))
             then ([(base, "/webapi"); (base, "/photo/webapi")],
                   Some (base, "/photo/webapi"))
             else ([(base, "/webapi"); (base, "/photo/webapi")], None))
  /\ (forall c : NodeHelper.Config,
        includes (NodeHelper.serverUrl c) "quickconnect.to" = false ->
        NodeHelper.getApiPath c = "/photo/webapi"
        /\ NodeHelper.loginUrl c
           = NodeHelper.loginBaseUrl c +:+ "/photo/webapi" +:+ "/auth.cgi"
        /\ NodeHelper.entryUrl c
           = NodeHelper.getBaseUrl c +:+ "/photo/webapi" +:+ "/entry.cgi").
Proof.
  intros Hd server base.
  destruct (direct_candidate_url_truthy (parseServer serverArg) Hd)
    as (c & Hc & Hlabel & Hurl).
  assert (c = {| url := base; label := "Direct" |}) as ->.
  { unfold candidates_of in Hc. rewrite Hd in Hc. injection Hc as <-. reflexivity. }
  split; [exact Hc|]. split.
  - unfold find_nas. subst server. rewrite Hc.
    unfold find_working, api_paths, try_paths. cbn [url] in *.
    rewrite !testApiEndpoint_answers. unfold Probe.answers, Probe.info_url.
    cbn [fst snd].
    destruct (Probe.valid_api_info (api_info w (base +:+ "/webapi" +:+ _) _)).
    + rewrite Hurl. reflexivity.
    + destruct (Probe.valid_api_info (api_info w (base +:+ "/photo/webapi" +:+ _) _)).
      * rewrite Hurl. reflexivity.
      * reflexivity.
  - intros c Hq.
    assert (NodeHelper.getApiPath c = "/photo/webapi") as Hp.
    { unfold NodeHelper.getApiPath, NodeHelper.isQuickConnect, or_else.
      destruct (truthy (JStr (NodeHelper.serverUrl c))) eqn:E.
      - cbn [toString]. rewrite Hq. reflexivity.
      - reflexivity. }
    split; [exact Hp|].
    unfold NodeHelper.loginUrl, NodeHelper.entryUrl. rewrite Hp. split; reflexivity.
Qed.

(** C5. Whatever the relay coordinators answer (a rejected request, a body
    that is not JSON, a payload without [server], a server record that cannot
    be read to its end), the candidate list of a relay address is not empty
    and ends with the relay address itself. *)
Theorem relay_candidate_is_last (fullDomain : string) :
  resolveQuickConnect w fullDomain <> []
  /\ last (resolveQuickConnect w fullDomain)
     = Some {| url := "https://" +:+ fullDomain; label := "QuickConnect" |}.
Proof.
  unfold resolveQuickConnect. split.
  - intros E. apply app_eq_nil in E as [_ E]. discriminate.
  - apply last_snoc.
Qed.

Lemma query_relays_all_failed (serverID : string) (relayUrls : list string)
    (candidates : list Candidate) :
  (forall u, relay w u serverID = Returned None
             \/ exists m, relay w u serverID = Threw m) ->
  query_relays w serverID relayUrls candidates = candidates.
Proof.
  intros Hfail. induction relayUrls as [|u rest IH]; simpl; [reflexivity|].
  destruct (Hfail u) as [->|[m ->]]; exact IH.
Qed.

(** When no coordinator gives a server record, the relay address is the only
    candidate. *)
Lemma failed_discovery_leaves_relay_candidate (fullDomain : string) :
  (forall u i, relay w u i = Returned None \/ exists m, relay w u i = Threw m) ->
  resolveQuickConnect w fullDomain
  = [{| url := "https://" +:+ fullDomain; label := "QuickConnect" |}].
Proof.
  intros Hfail. unfold resolveQuickConnect.
  rewrite query_relays_all_failed; [reflexivity|].
  intros u. apply Hfail.
Qed.

End Resolver.

Example unreachable_relay_example :
  TestConnection.find_nas Sample.lan "https://mynas.us.quickconnect.to/"
  = ([("https://mynas.us.quickconnect.to", "/webapi");
      ("https://mynas.us.quickconnect.to", "/photo/webapi")],
     Some ("https://mynas.us.quickconnect.to", "/photo/webapi")).
Proof. vm_compute. reflexivity. Qed.

(** The helper itself does no probing: for an address that is not a relay
    address it always uses /photo/webapi, for a relay address /webapi. *)
Remark helper_api_path (c : NodeHelper.Config) :
  NodeHelper.getApiPath c
  = if includes (NodeHelper.serverUrl c) "quickconnect.to"
    then "/webapi" else "/photo/webapi".
Proof.
  unfold NodeHelper.getApiPath, NodeHelper.isQuickConnect, or_else.
  destruct (truthy (JStr (NodeHelper.serverUrl c))) eqn:E; [reflexivity|].
  simpl in E. apply negb_false_iff, String.eqb_eq in E. rewrite E. reflexivity.
Qed.

Lemma direct_address_tries_webapi_first_witness :
  TestConnection.isQuickConnect (TestConnection.parseServer "192.168.1.100:5001") = false
  /\ TestConnection.find_nas Sample.lan "192.168.1.100:5001"
     = ([("https://192.168.1.100:5001", "/webapi");
         ("https://192.168.1.100:5001", "/photo/webapi")],
        Some ("https://192.168.1.100:5001", "/photo/webapi")).
Proof.
  assert (Hd : TestConnection.isQuickConnect
                 (TestConnection.parseServer "192.168.1.100:5001") = false)
    by reflexivity.
  split; [exact Hd|].
  destruct (direct_address_tries_webapi_first Sample.lan "192.168.1.100:5001" Hd)
    as (_ & E & _).
  rewrite E. vm_compute. reflexivity.
Defined.

(** The helper never tries /webapi for a direct address: in a cycle against
    a NAS that answers, both of its requests go to /photo/webapi. *)
Lemma helper_never_tries_webapi :
  includes (NodeHelper.serverUrl Sample.nas) "quickconnect.to" = false
  /\ length (Cycle.fetches
               (snd (NodeHelper.fetchPhotos Sample.healthy
                       (Sample.configured Sample.nas)))) = 2%nat
  /\ Forall (fun u => startsWith u "https://nas.local:5001/photo/webapi/" = true)
       (Cycle.fetches
          (snd (NodeHelper.fetchPhotos Sample.healthy (Sample.configured Sample.nas))))
  /\ ~ (exists u,
          In u (Cycle.fetches
                  (snd (NodeHelper.fetchPhotos Sample.healthy
                          (Sample.configured Sample.nas))))
          /\ startsWith u "https://nas.local:5001/webapi" = true).
Proof.
  assert (Cycle.fetches
            (snd (NodeHelper.fetchPhotos Sample.healthy (Sample.configured Sample.nas)))
          = Cycle.fetches
              (snd (NodeHelper.fetchPhotos Sample.healthy
                      (Sample.configured Sample.nas)))) as E by reflexivity.
  revert E. generalize (Cycle.fetches
            (snd (NodeHelper.fetchPhotos Sample.healthy (Sample.configured Sample.nas))))
    at 1 3 4 5.
  intros l E. vm_compute in E. subst l.
  split; [vm_compute; reflexivity|]. split; [reflexivity|].
  split.
  - repeat constructor.
  - intros (u & [<-|[<-|[]]] & Hu); vm_compute in Hu; discriminate Hu.
Qed.

(** ** The helper over time *)

Section LifecycleFacts.
Import NodeHelper Cycle Lifecycle.

(** [login] replaces the session id by a truthy one or leaves it alone. *)
Lemma login_session_id (w : World) (h h1 : Helper) (c : Config)
    (r : Outcome bool) (e1 : list Event) :
  config h = Some c ->
  login w h = (r, h1, e1) ->
  sid h1 = sid h \/ truthy (sid h1) = true.
Proof.
  intros Hc. unfold login, bind at 1. rewrite (the_config_run h c Hc). simpl.
  unfold try_catch, bind. rewrite synoFetch_run.
  destruct (net w _) as [resp|m]; simpl.
  - unfold lift. destruct (json resp) as [[s [d|]]|m]; simpl.
    + destruct (truthy s && truthy (data_sid d)) eqn:E; simpl.
      * intros [= _ <- _]. right. simpl. apply andb_true_iff in E. apply E.
      * intros [= _ <- _]. left. reflexivity.
    + intros [= _ <- _]. left. reflexivity.
    + intros [= _ <- _]. left. reflexivity.
  - intros [= _ <- _]. left. reflexivity.
Qed.

Lemma photo_of_url_prefix (c : Config) (sid0 size : JsVal) (p : Item) :
  startsWith (url (photo_of c sid0 size p)) proxy_path = true.
Proof. unfold startsWith, photo_of. cbn [url]. apply prefix_app. Qed.

(** Every cycle returns, keeps the configuration, and either fails or
    publishes. *)
Lemma cycle_outcome (w : World) (h : Helper) :
  exists h' evs,
    fetchPhotos w h = (Returned tt, h', evs)
    /\ config h' = config h
    /\ (sid h' = sid h \/ truthy (sid h') = true)
    /\ (cycle_failed h h' evs \/ cycle_published h h' evs).
Proof.
  destruct (config h) as [c|] eqn:Hc.
  - destruct (login_run w h c Hc) as (b & h1 & Hl & Hp & Hc1 & Ht & Hsame).
    pose proof (login_session_id w h h1 c _ _ Hc Hl) as Hsid.
    assert (forall m,
              exists h' evs,
                (Returned tt, h1,
                 ([fetch_event c (login_request w c)]
                  ++ [fetch_event c (browse_request c (sid h1));
                      SendSocketNotification (SYNOLOGY_PHOTOS_ERROR m)])%list)
                = (Returned tt, h', evs)
                /\ config h' = Some c
                /\ (sid h' = sid h \/ truthy (sid h') = true)
                /\ (cycle_failed h h' evs \/ cycle_published h h' evs)) as Hfail.
    { intros m. do 2 eexists. split; [reflexivity|]. split; [exact Hc1|].
      split; [exact Hsid|]. left. exists m. repeat split; assumption. }
    assert (forall l,
              exists h' evs,
                (Returned tt,
                 fst (published w c h1
                        (map (photo_of c (sid h1) (size_of c)) (retained c l))),
                 ([fetch_event c (login_request w c)]
                  ++ fetch_event c (browse_request c (sid h1))
                     :: snd (published w c h1
                               (map (photo_of c (sid h1) (size_of c))
                                    (retained c l))))%list)
                = (Returned tt, h', evs)
                /\ config h' = Some c
                /\ (sid h' = sid h \/ truthy (sid h') = true)
                /\ (cycle_failed h h' evs \/ cycle_published h h' evs)) as Hpub.
    { intros l. do 2 eexists. split; [reflexivity|].
      split; [exact Hc1|]. split; [exact Hsid|].
      right. exists c, (ordered w c (map (photo_of c (sid h1) (size_of c)) (retained c l))).
      split; [exact Hc|]. unfold published. cbn [fst snd].
      split; [destruct (refreshTimer h1); reflexivity|].
      split; [reflexivity|].
      split.
      - intros p Hin. apply (Permutation_in _ (ordered_Permutation w c _)) in Hin.
        apply in_map_iff in Hin as (item & <- & _). apply photo_of_url_prefix.
      - rewrite <- Ht. unfold refresh_delay.
        split; [destruct (refreshTimer h1); reflexivity|reflexivity]. }
    destruct b.
    + pose proof (fetchPhotos_logged_in w h h1 c _ Hc Hl) as E. cbv zeta in E.
      rewrite E. clear E.
      destruct (net w _) as [resp|m]; [|apply Hfail].
      destruct (json resp) as [reply|m]; [|apply Hfail].
      destruct (truthy (success reply)); [|apply Hpub].
      destruct (data reply) as [d|]; [|apply Hfail].
      destruct (data_list d) as [l|]; [apply Hpub|apply Hfail].
    + rewrite (fetchPhotos_login_failed w h h1 c _ Hc Hl).
      do 2 eexists. split; [reflexivity|]. split; [exact Hc|].
      split; [left; reflexivity|]. left. eexists. repeat split.
  - rewrite (fetchPhotos_no_config w h Hc).
    do 2 eexists. split; [reflexivity|]. split; [exact Hc|].
    split; [left; reflexivity|]. left. eexists. repeat split.
Qed.

(** X1. Whatever the world answers and whatever state the helper is in, a
    fetch cycle returns without throwing and sends exactly one notification
    to the front end. *)
Theorem cycle_notifies_exactly_once (w : World) (h : Helper) :
  exists h' evs n,
    fetchPhotos w h = (Returned tt, h', evs) /\ notifications evs = [n].
Proof.
  destruct (cycle_outcome w h) as (h' & evs & E & _ & _ & [(m & Hn & _)|(c & ps & _ & Hn & _)]);
    eauto.
Qed.

(** X2. A cycle that ends in an error notification schedules no refresh: it
    makes no timer call, and the timer field and the stored catalog are what
    they were. *)
Theorem failed_cycle_schedules_no_refresh (w : World) (h h' : Helper)
    (r : Outcome unit) (evs : list Event) (m : string) :
  fetchPhotos w h = (r, h', evs) ->
  In (SendSocketNotification (SYNOLOGY_PHOTOS_ERROR m)) evs ->
  timers evs = [] /\ refreshTimer h' = refreshTimer h /\ photos h' = photos h.
Proof.
  intros Hrun Hin.
  destruct (cycle_outcome w h) as (h2 & evs2 & E & _ & _ & Hcase).
  rewrite Hrun in E. injection E as -> <- <-.
  destruct Hcase as [(m' & _ & Ht & Hp & Hr)|(c & ps & _ & Hn & _)]; [auto|].
  assert (In (SYNOLOGY_PHOTOS_ERROR m) (notifications evs)) as Hin'.
  { apply list_elem_of_In, list_elem_of_omap.
    exists (SendSocketNotification (SYNOLOGY_PHOTOS_ERROR m)).
    split; [apply list_elem_of_In, Hin|reflexivity]. }
  rewrite Hn in Hin'. destruct Hin' as [|[]]; discriminate.
Qed.

(** X3. A cycle that publishes a catalog re-arms the refresh timer once, with
    the configured [refreshInterval] or one hour when that is falsy, after
    clearing the timer of the cycle before if there was one. *)
Theorem published_cycle_rearms_timer (w : World) (h h' : Helper) (c : Config)
    (r : Outcome unit) (evs : list Event) (ps : list Photo) :
  config h = Some c ->
  fetchPhotos w h = (r, h', evs) ->
  In (SendSocketNotification (SYNOLOGY_PHOTOS_DATA ps)) evs ->
  let delay := if truthy (refreshInterval c) then refreshInterval c else JNum 3600000 in
  timers evs
  = ((match refreshTimer h with Some _ => [ClearTimeout] | None => [] end)
     ++ [SetTimeout delay])%list
  /\ refreshTimer h' = Some delay.
Proof.
  intros Hc Hrun Hin delay.
  destruct (cycle_outcome w h) as (h2 & evs2 & E & _ & _ & Hcase).
  rewrite Hrun in E. injection E as -> <- <-.
  destruct Hcase as [(m' & Hn & _)|(c' & ps' & Hc' & _ & _ & _ & Ht & Hr)].
  - assert (In (SYNOLOGY_PHOTOS_DATA ps) (notifications evs)) as Hin'.
    { apply list_elem_of_In, list_elem_of_omap.
      exists (SendSocketNotification (SYNOLOGY_PHOTOS_DATA ps)).
      split; [apply list_elem_of_In, Hin|reflexivity]. }
    rewrite Hn in Hin'. destruct Hin' as [|[]]; discriminate.
  - rewrite Hc in Hc'. injection Hc' as <-. split; assumption.
Qed.

Lemma published_cycle_rearms_timer_witness :
  let run := fetchPhotos Sample.healthy (Sample.configured Sample.nas) in
  timers (snd run) = [SetTimeout (JNum 3600000)]
  /\ refreshTimer (snd (fst run)) = Some (JNum 3600000).
Proof.
  intros run.
  exact (published_cycle_rearms_timer Sample.healthy (Sample.configured Sample.nas)
           (snd (fst run)) Sample.nas (fst (fst run)) (snd run)
           (photos (snd (fst run))) eq_refl
           ltac:(vm_compute; reflexivity)
           ltac:(vm_compute; right; right; left; reflexivity)).
Defined.

Lemma failed_cycle_schedules_no_refresh_witness :
  let h := snd (fst (fetchPhotos Sample.healthy (Sample.configured Sample.nas))) in
  let run := fetchPhotos Sample.dropping h in
  timers (snd run) = [] /\ refreshTimer (snd (fst run)) = Some (JNum 3600000).
Proof.
  intros h run.
  destruct (failed_cycle_schedules_no_refresh Sample.dropping h (snd (fst run))
              (fst (fst run)) (snd run) "socket hang up"
              ltac:(vm_compute; reflexivity)
              ltac:(vm_compute; right; right; left; reflexivity))
    as (Ht & Hr & _).
  split; [exact Ht|]. rewrite Hr. reflexivity.
Defined.

(** The facts that hold of every state the helper reaches. *)
Lemma socket_notification_outcome (w : World) (notification : string)
    (payload : Config) (h : Helper) :
  exists h' evs,
    socketNotificationReceived w notification payload h = (Returned tt, h', evs)
    /\ ((notification <> "SYNOLOGY_PHOTOS_FETCH" /\ h' = h /\ evs = [])
        \/ (notification = "SYNOLOGY_PHOTOS_FETCH"
            /\ fetchPhotos w (set_config (Some payload) h) = (Returned tt, h', evs))).
Proof.
  unfold socketNotificationReceived.
  destruct (String.eqb_spec notification "SYNOLOGY_PHOTOS_FETCH") as [->|Hne].
  - destruct (cycle_outcome w (set_config (Some payload) h)) as (h' & evs & E & _).
    exists h', evs. unfold bind, modify. rewrite E. split; [reflexivity|].
    right. split; reflexivity.
  - exists h, []. split; [reflexivity|]. left. repeat split. exact Hne.
Qed.




End LifecycleFacts.

(** ** Ordering, login and the image route *)

Section HelperMore.
Import NodeHelper Cycle Lifecycle.

Lemma login_ext (w1 w2 : World) (h : Helper) :
  (forall u, net w1 u = net w2 u) ->
  token_file w1 = token_file w2 ->
  login w1 h = login w2 h.
Proof.
  intros Hn Ht.
  unfold login, bind, try_catch, synoFetch, bind, emit, lift, loginParams,
    loadDeviceToken.
  rewrite Ht. destruct (the_config h) as [[[c|m] h0] e0]; [|reflexivity].
  rewrite Hn. reflexivity.
Qed.

(** A cycle ends with the session id its login left. *)
Lemma cycle_session_id (w : World) (h h1 h' : Helper) (c : Config)
    (b : bool) (e1 evs : list Event) (r : Outcome unit) :
  config h = Some c ->
  login w h = (Returned b, h1, e1) ->
  fetchPhotos w h = (r, h', evs) ->
  sid h' = sid h1.
Proof.
  intros Hc Hl Hrun. destruct b.
  - pose proof (fetchPhotos_logged_in w h h1 c e1 Hc Hl) as E. cbv zeta in E.
    rewrite Hrun in E.
    destruct (net w _) as [resp|m]; [|by injection E as _ -> _].
    destruct (json resp) as [reply|m]; [|by injection E as _ -> _].
    destruct (truthy (success reply)); [|by injection E as _ -> _].
    destruct (data reply) as [d|]; [|by injection E as _ -> _].
    destruct (data_list d) as [l|]; by injection E as _ -> _.
  - destruct (login_run w h c Hc) as (b' & h1' & Hl' & _ & _ & _ & Hsame).
    rewrite Hl in Hl'. injection Hl' as <- <- _. rewrite (Hsame eq_refl).
    rewrite (fetchPhotos_login_failed w h h1 c e1 Hc Hl) in Hrun.
    by injection Hrun as _ <- _.
Qed.

(** X5. Shuffling only reorders: two cycles from the same state against
    worlds that answer alike and differ at most in their random draws publish
    catalogs that are permutations of each other. *)
Theorem shuffle_only_reorders (w1 w2 : World) (h h1' h2' : Helper) (c : Config)
    (r1 r2 : Outcome unit) (evs1 evs2 : list Event) (ps1 ps2 : list Photo) :
  config h = Some c ->
  (forall u, net w1 u = net w2 u) ->
  token_file w1 = token_file w2 ->
  fetchPhotos w1 h = (r1, h1', evs1) ->
  fetchPhotos w2 h = (r2, h2', evs2) ->
  In (SendSocketNotification (SYNOLOGY_PHOTOS_DATA ps1)) evs1 ->
  In (SendSocketNotification (SYNOLOGY_PHOTOS_DATA ps2)) evs2 ->
  ps1 ≡ₚ ps2.
Proof.
  intros Hc Hn Ht Hrun1 Hrun2 Hin1 Hin2.
  destruct (login_run w1 h c Hc) as (b & h1 & Hl1 & _).
  pose proof Hl1 as Hl2. rewrite (login_ext w1 w2 h Hn Ht) in Hl2.
  pose proof (cycle_session_id w1 h h1 h1' c b _ _ _ Hc Hl1 Hrun1) as Hs1.
  pose proof (cycle_session_id w2 h h1 h2' c b _ _ _ Hc Hl2 Hrun2) as Hs2.
  destruct (data_notification_inv w1 h h1' c r1 evs1 ps1 Hc Hrun1 Hin1)
    as (l1 & Hlist1 & -> & _).
  destruct (data_notification_inv w2 h h2' c r2 evs2 ps2 Hc Hrun2 Hin2)
    as (l2 & Hlist2 & -> & _).
  rewrite Hs1 in *. rewrite Hs2 in *.
  unfold listing_of in Hlist1, Hlist2. rewrite Hn, Hlist2 in Hlist1.
  injection Hlist1 as ->.
  rewrite !ordered_Permutation. reflexivity.
Qed.

Lemma shuffle_only_reorders_witness :
  let run1 := fetchPhotos Sample.healthy (Sample.configured Scenario.nas_shuffled) in
  let run2 := fetchPhotos Scenario.healthy_other_draws
                (Sample.configured Scenario.nas_shuffled) in
  map id (photos (snd (fst run1))) = [3; 1]
  /\ map id (photos (snd (fst run2))) = [1; 3]
  /\ photos (snd (fst run1)) ≡ₚ photos (snd (fst run2)).
Proof.
  intros run1 run2.
  split; [vm_compute; reflexivity|]. split; [vm_compute; reflexivity|].
  exact (shuffle_only_reorders Sample.healthy Scenario.healthy_other_draws
           (Sample.configured Scenario.nas_shuffled)
           (snd (fst run1)) (snd (fst run2)) Scenario.nas_shuffled
           (fst (fst run1)) (fst (fst run2)) (snd run1) (snd run2)
           (photos (snd (fst run1))) (photos (snd (fst run2)))
           eq_refl (fun u => eq_refl) eq_refl
           ltac:(vm_compute; reflexivity) ltac:(vm_compute; reflexivity)
           ltac:(vm_compute; right; right; left; reflexivity)
           ltac:(vm_compute; right; right; left; reflexivity)).
Defined.

(** X6. With shuffle off and [sortBy] different from "time", the published
    catalog keeps the order of the listing: it is the normalized records of
    the retained items, one after the other. *)
Theorem listing_order_is_kept (w : World) (h h' : Helper) (c : Config)
    (r : Outcome unit) (evs : list Event) (ps : list Photo) :
  config h = Some c ->
  truthy (shuffle c) = false ->
  strict_eq (sortBy c) (JStr "time") = false ->
  fetchPhotos w h = (r, h', evs) ->
  In (SendSocketNotification (SYNOLOGY_PHOTOS_DATA ps)) evs ->
  exists l,
    listing_of w c (sid h') = Some l
    /\ ps = map (photo_of c (sid h') (size_of c))
              (List.filter (thumbnail_ready (size_of c)) l)
    /\ map id ps = map item_id (List.filter (thumbnail_ready (size_of c)) l).
Proof.
  intros Hc Hsh Hso Hrun Hin.
  destruct (data_notification_inv w h h' c r evs ps Hc Hrun Hin)
    as (l & Hl & -> & _).
  exists l. split; [exact Hl|].
  unfold ordered. rewrite Hsh, Hso. split; [reflexivity|].
  rewrite map_map. reflexivity.
Qed.

Lemma listing_order_is_kept_witness :
  let run := fetchPhotos Sample.healthy (Sample.configured Scenario.nas_unsorted) in
  map id (photos (snd (fst run))) = [1; 3].
Proof.
  intros run.
  destruct (listing_order_is_kept Sample.healthy
              (Sample.configured Scenario.nas_unsorted) (snd (fst run))
              Scenario.nas_unsorted (fst (fst run)) (snd run)
              (photos (snd (fst run))) eq_refl eq_refl eq_refl
              ltac:(vm_compute; reflexivity)
              ltac:(vm_compute; right; right; left; reflexivity))
    as (l & Hl & _ & Hids).
  rewrite Hids. vm_compute in Hl. injection Hl as <-. vm_compute. reflexivity.
Defined.

Lemma filter_sort_insert (t : Z) (x : Photo) (l : list Photo) :
  List.filter (fun p => time p =? t) (sort_insert by_time_desc x l)
  = List.filter (fun p => time p =? t) (x :: l).
Proof.
  induction l as [|y l IH]; [reflexivity|].
  cbn [sort_insert]. unfold by_time_desc at 1.
  destruct (Z.leb_spec (time y - time x) 0) as [Hle|Hgt]; [reflexivity|].
  cbn [List.filter] in *. rewrite IH.
  destruct (Z.eqb_spec (time y) t), (Z.eqb_spec (time x) t); try reflexivity; lia.
Qed.

(** X7. The sort by time is stable: photos with the same capture time come
    out in the order they went in. *)
Theorem sort_by_time_is_stable (t : Z) (l : list Photo) :
  List.filter (fun p => time p =? t) (array_sort by_time_desc l)
  = List.filter (fun p => time p =? t) l.
Proof.
  induction l as [|x l IH]; [reflexivity|].
  cbn [array_sort fold_right]. rewrite filter_sort_insert.
  cbn [List.filter]. fold (array_sort by_time_desc l). rewrite IH. reflexivity.
Qed.

(** X8. The browse request and the thumbnail URLs choose their API apart.
    The browse request names SYNO.FotoTeam.Browse.Item exactly when shared
    space is the selected source ([albumId] and [folderId] falsy,
    [sharedSpace] truthy) and SYNO.Foto.Browse.Item for an album, a folder
    and personal space; the thumbnail URL names SYNO.FotoTeam.Thumbnail
    exactly when [sharedSpace] is truthy, and SYNO.Foto.Thumbnail otherwise.
    So with an album or folder selected and [sharedSpace] set, the listing is
    asked of SYNO.Foto.Browse.Item and the thumbnails of
    SYNO.FotoTeam.Thumbnail. *)
Theorem album_with_shared_space_mixes_apis (c : Config) (sid0 size : JsVal)
    (p : Item) :
  let shared_selected :=
    negb (truthy (albumId c)) && negb (truthy (folderId c))
    && truthy (NodeHelper.sharedSpace c) in
  (exists rest,
     browse_request c sid0
     = entryUrl c +:+ "?api="
       +:+ (if shared_selected then "SYNO.FotoTeam.Browse.Item"
            else "SYNO.Foto.Browse.Item")
       +:+ "&version=1&method=list&type=photo&offset=0&limit=" +:+ rest)
  /\ (forall u,
        buildThumbnailUrl c sid0 p size = Returned u ->
        exists rest,
          u = entryUrl c +:+ "?api="
              +:+ (if truthy (NodeHelper.sharedSpace c)
                   then "SYNO.FotoTeam.Thumbnail" else "SYNO.Foto.Thumbnail")
              +:+ "&version=1&method=get&mode=download&id=" +:+ rest)
  /\ (truthy (albumId c) || truthy (folderId c) = true ->
      truthy (NodeHelper.sharedSpace c) = true ->
      forall u,
        buildThumbnailUrl c sid0 p size = Returned u ->
        exists rest rest',
          browse_request c sid0
          = entryUrl c +:+ "?api=SYNO.Foto.Browse.Item&version=1" +:+ rest
          /\ u = entryUrl c +:+ "?api=SYNO.FotoTeam.Thumbnail&version=1" +:+ rest').
Proof.
  intros shared_selected.
  assert (exists rest,
            browse_request c sid0
            = entryUrl c +:+ "?api="
              +:+ (if shared_selected then "SYNO.FotoTeam.Browse.Item"
                   else "SYNO.Foto.Browse.Item")
              +:+ "&version=1&method=list&type=photo&offset=0&limit=" +:+ rest)
    as Hbrowse.
  { unfold browse_request, sourceSelector. subst shared_selected.
    destruct (truthy (albumId c)); [|destruct (truthy (folderId c));
      [|destruct (truthy (NodeHelper.sharedSpace c))]];
      cbn [negb andb source_params];
      unfold albumParams, folderParams, teamParams, personalParams;
      eexists; f_equal; cbv [params_toString]; reflexivity. }
  assert (forall u,
            buildThumbnailUrl c sid0 p size = Returned u ->
            exists rest,
              u = entryUrl c +:+ "?api="
                  +:+ (if truthy (NodeHelper.sharedSpace c)
                       then "SYNO.FotoTeam.Thumbnail" else "SYNO.Foto.Thumbnail")
                  +:+ "&version=1&method=get&mode=download&id=" +:+ rest)
    as Hthumb.
  { intros u Hu. unfold buildThumbnailUrl in Hu.
    destruct (item_additional p) as [[[t|] res]|]; try discriminate.
    injection Hu as <-. eexists. unfold entryUrl.
    rewrite <- !append_assoc.
    destruct (truthy (NodeHelper.sharedSpace c)); reflexivity. }
  split; [exact Hbrowse|]. split; [exact Hthumb|].
  intros Hsel Hshared u Hu.
  destruct Hbrowse as (rest & Hb). destruct (Hthumb u Hu) as (rest' & Ht).
  assert (shared_selected = false) as Hs.
  { subst shared_selected.
    destruct (truthy (albumId c)); [reflexivity|].
    destruct (truthy (folderId c)); [reflexivity|discriminate]. }
  rewrite Hs in Hb. rewrite Hshared in Ht.
  exists ("&method=list&type=photo&offset=0&limit=" +:+ rest),
    ("&method=get&mode=download&id=" +:+ rest').
  split; [rewrite Hb|rewrite Ht]; reflexivity.
Qed.

End HelperMore.

Section LoginAndRoute.
Import NodeHelper Cycle Lifecycle.

(** X9. The login request asks the API SYNO.API.Auth, version 6, method
    login, with the account and the password, and never carries an OTP code.
    It carries [device_id] and [device_name] (MagicMirror), after the
    password, exactly when the token file exists, can be read and holds a
    truthy [device_id]. *)
Theorem login_query_parameters (w : World) (c : Config) :
  let ps := loginParams w c in
  let device :=
    match token_file w with
    | Some (Returned device_id) =>
        if truthy device_id
        then [("device_id", toString device_id); ("device_name", "MagicMirror")]
        else []
    | Some (Threw _) | None => []
    end in
  ps = ([("api", "SYNO.API.Auth"); ("version", "6"); ("method", "login");
         ("account", account c); ("passwd", password c)] ++ device)%list
  /\ login_request w c
     = loginBaseUrl c +:+ getApiPath c +:+ "/auth.cgi" +:+ "?"
       +:+ params_toString
             ([("api", "SYNO.API.Auth"); ("version", "6"); ("method", "login");
               ("account", account c); ("passwd", password c)] ++ device)%list
  /\ params_get "account" ps = Some (account c)
  /\ params_get "passwd" ps = Some (password c)
  /\ params_get "otp_code" ps = None
  /\ match token_file w with
     | Some (Returned device_id) =>
         if truthy device_id
         then params_get "device_id" ps = Some (toString device_id)
              /\ params_get "device_name" ps = Some "MagicMirror"
         else params_get "device_id" ps = None
              /\ params_get "device_name" ps = None
     | Some (Threw _) | None =>
         params_get "device_id" ps = None /\ params_get "device_name" ps = None
     end.
Proof.
  unfold login_request, loginUrl, loginParams, loadDeviceToken.
  destruct (token_file w) as [[d|m]|]; [destruct (truthy d) eqn:E|..];
    cbn zeta; rewrite ?E; rewrite <- ?append_assoc; repeat split; reflexivity.
Qed.

(** X10. Once configured, [login] never throws and makes one request. It
    returns true, storing the session id of the reply, exactly when the reply
    is JSON with a truthy [success] and a truthy [data.sid]; in every other
    case (rejected request, unreadable body, refusal) it returns false and
    leaves the helper, and so an earlier session id, untouched. *)
Theorem login_outcome (w : World) (h : Helper) (c : Config) :
  config h = Some c ->
  exists b h1,
    login w h = (Returned b, h1, [fetch_event c (login_request w c)])
    /\ (b = true <->
        exists resp s d,
          net w (login_request w c) = Returned resp
          /\ json resp = Returned {| success := s; data := Some d |}
          /\ truthy s = true /\ truthy (data_sid d) = true
          /\ h1 = set_sid (data_sid d) h)
    /\ (b = false -> h1 = h).
Proof.
  intros Hc. unfold login, bind at 1. rewrite (the_config_run h c Hc). simpl.
  unfold try_catch, bind. rewrite synoFetch_run. fold (login_request w c).
  destruct (net w (login_request w c)) as [resp|m] eqn:Hn; simpl.
  - unfold lift. destruct (json resp) as [[s [d|]]|m] eqn:Hj; simpl.
    + destruct (truthy s && truthy (data_sid d)) eqn:E; simpl.
      * exists true, (set_sid (data_sid d) h).
        apply andb_true_iff in E as [Es Ed].
        split; [reflexivity|]. split; [|discriminate].
        split; [|intros _; reflexivity]. intros _. exists resp, s, d.
        repeat split; assumption.
      * exists false, h. split; [reflexivity|]. split; [|reflexivity].
        split; [discriminate|].
        intros (resp' & s' & d' & [= <-] & Hj' & Es & Ed & _).
        rewrite Hj in Hj'. injection Hj' as <- <-.
        rewrite Es, Ed in E. discriminate.
    + exists false, h. split; [reflexivity|]. split; [|reflexivity].
      split; [discriminate|].
      intros (resp' & s' & d' & [= <-] & Hj' & _). rewrite Hj in Hj'. discriminate.
    + exists false, h. split; [reflexivity|]. split; [|reflexivity].
      split; [discriminate|].
      intros (resp' & s' & d' & [= <-] & Hj' & _). rewrite Hj in Hj'. discriminate.
  - exists false, h. split; [reflexivity|]. split; [|reflexivity].
    split; [discriminate|]. intros (resp' & s' & d' & [=] & _).
Qed.

Lemma login_outcome_witness :
  login Sample.dropping (Sample.logged_in Sample.nas)
  = (Returned true, Sample.logged_in Sample.nas,
     [fetch_event Sample.nas (login_request Sample.dropping Sample.nas)])
  /\ exists b,
       login Sample.unreachable (Sample.logged_in Sample.nas)
       = (Returned b, Sample.logged_in Sample.nas,
          [fetch_event Sample.nas (login_request Sample.unreachable Sample.nas)]).
Proof.
  split; [vm_compute; reflexivity|].
  destruct (login_outcome Sample.unreachable (Sample.logged_in Sample.nas)
              Sample.nas eq_refl) as (b & h1 & E & Hiff & Hsame).
  exists b. destruct b.
  - destruct (proj1 Hiff eq_refl) as (resp & s & d & Hn & _). discriminate Hn.
  - rewrite (Hsame eq_refl) in E. exact E.
Defined.

(** X11. A socket notification other than SYNOLOGY_PHOTOS_FETCH is ignored:
    no state change, no request, no notification. A fetch notification
    installs its payload as the configuration, which is still there after
    the cycle it starts, whatever that cycle's outcome, and is answered by
    exactly one notification. *)
Theorem socket_notification_handling (w : World) (notification : string)
    (payload : Config) (h : Helper) :
  exists h' evs,
    socketNotificationReceived w notification payload h = (Returned tt, h', evs)
    /\ (notification <> "SYNOLOGY_PHOTOS_FETCH" -> h' = h /\ evs = [])
    /\ (notification = "SYNOLOGY_PHOTOS_FETCH" ->
        config h' = Some payload /\ exists n, notifications evs = [n]).
Proof.
  destruct (socket_notification_outcome w notification payload h)
    as (h' & evs & E & [(Hne & -> & ->)|(-> & Hcyc)]).
  - exists h, []. split; [exact E|]. split; [auto|]. intros Heq. contradiction.
  - exists h', evs. split; [exact E|]. split; [intros Hne; contradiction|].
    intros _.
    destruct (cycle_outcome w (set_config (Some payload) h))
      as (h2 & evs2 & E2 & Hc & _ & Hcase).
    rewrite Hcyc in E2. injection E2 as <- <-.
    split; [exact Hc|].
    destruct Hcase as [(m & Hn & _)|(c & ps & _ & Hn & _)]; eauto.
Qed.

(** X12. With a configuration, a string target whose upstream answer is a
    success is relayed with status 200, the upstream body, a one-day public
    cache lifetime and the upstream content type, image/jpeg when the
    upstream declares none; the one request made is for the target as given. *)
Theorem proxy_relays_success (w : World) (h : Helper) (c : Config)
    (s : string) (resp : Response) :
  config h = Some c ->
  s <> "" ->
  net w s = Returned resp ->
  ok resp = true ->
  setupProxy w (QString s) h
  = (Returned
       {| sent_status := 200;
          sent_headers :=
            [("Content-Type",
              if truthy (content_type resp) then toString (content_type resp)
              else "image/jpeg");
             ("Cache-Control", "public, max-age=86400")];
          sent_body := body resp |},
     h, [fetch_event c s]).
Proof.
  intros Hc Hs Hn Hok. unfold setupProxy.
  assert (query_truthy (QString s) = true) as ->.
  { simpl. destruct (String.eqb_spec s ""); [contradiction|reflexivity]. }
  cbn [negb]. unfold try_catch, bind at 1. rewrite (the_config_run h c Hc).
  unfold bind at 1, ret at 1. cbv beta iota. unfold bind at 1.
  rewrite synoFetch_run, Hn. cbv beta iota. rewrite Hok. unfold or_else.
  destruct (truthy (content_type resp)); reflexivity.
Qed.

Lemma proxy_relays_success_witness :
  exists sent,
    setupProxy Scenario.serving_image (QString "https://nas.local:5001/x")
      (Sample.configured Sample.nas)
    = (Returned sent, Sample.configured Sample.nas,
       [fetch_event Sample.nas "https://nas.local:5001/x"])
    /\ sent_headers sent
       = [("Content-Type", "image/jpeg"); ("Cache-Control", "public, max-age=86400")].
Proof.
  eexists. split.
  - apply (proxy_relays_success Scenario.serving_image (Sample.configured Sample.nas)
             Sample.nas "https://nas.local:5001/x" Scenario.jpeg_answer eq_refl);
      [discriminate|reflexivity|reflexivity].
  - reflexivity.
Defined.

Lemma hex_digit_inj (n m : N) :
  (n < 16)%N -> (m < 16)%N -> hex_digit n = hex_digit m -> n = m.
Proof.
  intros Hn Hm E. apply (f_equal N_of_ascii) in E. unfold hex_digit in E.
  destruct (N.ltb_spec n 10), (N.ltb_spec m 10);
    rewrite !N_ascii_embedding in E by lia; lia.
Qed.

Lemma percent_inj (x y : ascii) : percent x = percent y -> x = y.
Proof.
  unfold percent. intros [= E1 E2].
  pose proof (N_ascii_bounded x). pose proof (N_ascii_bounded y).
  apply hex_digit_inj in E1; [|apply N.Div0.div_lt_upper_bound; lia..].
  apply hex_digit_inj in E2; [|apply N.mod_lt; lia..].
  rewrite <- (ascii_N_embedding x), <- (ascii_N_embedding y). f_equal.
  rewrite (N.div_mod (N_of_ascii x) 16), (N.div_mod (N_of_ascii y) 16) by lia.
  congruence.
Qed.

Lemma percent_is_safe (x : ascii) :
  forallb (fun ch => uri_unreserved ch || Ascii.eqb ch "%")
    (list_ascii_of_string (percent x)) = true.
Proof. destruct x as [[] [] [] [] [] [] [] []]; vm_compute; reflexivity. Qed.

Lemma encodeURIComponent_is_safe (s : string) :
  forallb (fun ch => uri_unreserved ch || Ascii.eqb ch "%")
    (list_ascii_of_string (encodeURIComponent s)) = true.
Proof.
  induction s as [|x s IH]; [reflexivity|].
  cbn [encodeURIComponent]. destruct (uri_unreserved x) eqn:E.
  - rewrite append_cons. cbn [list_ascii_of_string forallb].
    rewrite E. exact IH.
  - pose proof (percent_is_safe x) as Hp. unfold percent in *.
    rewrite !append_cons. cbn [list_ascii_of_string forallb] in *.
    apply andb_true_iff in Hp as [H1 Hp]. apply andb_true_iff in Hp as [H2 Hp].
    apply andb_true_iff in Hp as [H3 _].
    rewrite H1, H2, H3. exact IH.
Qed.

Lemma encodeURIComponent_inj (a b : string) :
  encodeURIComponent a = encodeURIComponent b -> a = b.
Proof.
  revert b. induction a as [|x a IH]; intros [|y b]; cbn [encodeURIComponent].
  - reflexivity.
  - destruct (uri_unreserved y); unfold percent; rewrite !append_cons; discriminate.
  - destruct (uri_unreserved x); unfold percent; rewrite !append_cons; discriminate.
  - destruct (uri_unreserved x) eqn:Ex, (uri_unreserved y) eqn:Ey.
    + rewrite !append_cons. intros [= -> E]. f_equal. apply IH, E.
    + unfold percent. rewrite !append_cons. intros [= -> _]. discriminate Ex.
    + unfold percent. rewrite !append_cons. intros [= <- _]. discriminate Ey.
    + intros E.
      assert (percent x = percent y /\ encodeURIComponent a = encodeURIComponent b)
        as [Hp Hr].
      { unfold percent in *. rewrite !append_cons in E.
        injection E as E1 E2 E3. rewrite E1, E2. split; [reflexivity|exact E3]. }
      f_equal; [exact (percent_inj x y Hp)|exact (IH b Hr)].
Qed.

(** X13. The [url] of a normalized photo is the proxy path followed by an
    encoding of the signed thumbnail URL that is made of unreserved
    characters and percent escapes only, so that nothing in it ends or splits
    the [url] query parameter, and from which the signed URL is recovered
    uniquely. *)
Theorem proxy_url_holds_signed_url (c : Config) (sid0 size : JsVal) (p : Item)
    (ph : Photo) :
  to_photo c sid0 size p = Returned ph ->
  exists signed,
    buildThumbnailUrl c sid0 p size = Returned signed
    /\ url ph = proxy_path +:+ encodeURIComponent signed
    /\ forallb (fun ch => uri_unreserved ch || Ascii.eqb ch "%")
         (list_ascii_of_string (encodeURIComponent signed)) = true
    /\ (forall other, encodeURIComponent other = encodeURIComponent signed ->
                      other = signed).
Proof.
  unfold to_photo. destruct (buildThumbnailUrl c sid0 p size) as [signed|m];
    [|discriminate].
  destruct (item_additional p) as [a|]; [|discriminate].
  intros [= <-]. exists signed. split; [reflexivity|]. split; [reflexivity|].
  split; [apply encodeURIComponent_is_safe|].
  intros other. apply encodeURIComponent_inj.
Qed.

Lemma proxy_url_holds_signed_url_witness :
  exists ph signed,
    to_photo Sample.nas (JStr "SID123") (JStr "sm")
      (Sample.item 1 (JStr "ready") 10) = Returned ph
    /\ url ph = proxy_path +:+ encodeURIComponent signed
    /\ includes signed "&_sid=SID123" = true.
Proof.
  eexists.
  destruct (proxy_url_holds_signed_url Sample.nas (JStr "SID123") (JStr "sm")
              (Sample.item 1 (JStr "ready") 10) _ eq_refl)
    as (signed & Hb & Hu & _).
  exists signed. split; [reflexivity|]. split; [exact Hu|].
  vm_compute in Hb. injection Hb as <-. vm_compute. reflexivity.
Defined.

End LoginAndRoute.

(** ** More on step 1 of the diagnostic *)

Section ResolverMore.
Import TestConnection Probe.

Lemma strip_trailing_slashes_snoc (s : string) :
  strip_trailing_slashes (s +:+ "/") = strip_trailing_slashes s.
Proof.
  induction s as [|c s IH]; [reflexivity|].
  rewrite append_cons. cbn [strip_trailing_slashes]. rewrite IH. reflexivity.
Qed.

(** X14. [parseServer] reads an address the same with or without a protocol
    in front and a slash at the end. *)
Theorem parseServer_ignores_decoration (s : string) :
  strip_protocol s = s ->
  parseServer ("https://" +:+ s +:+ "/") = parseServer s
  /\ parseServer ("http://" +:+ s) = parseServer s.
Proof.
  intros Hs. unfold parseServer.
  assert (strip_protocol ("https://" +:+ s +:+ "/") = s +:+ "/") as ->.
  { unfold strip_protocol. rewrite (prefix_app "https://" (s +:+ "/")). reflexivity. }
  assert (strip_protocol ("http://" +:+ s) = s) as ->.
  { unfold strip_protocol.
    replace (String.prefix "https://" ("http://" +:+ s)) with false by reflexivity.
    rewrite (prefix_app "http://" s). reflexivity. }
  rewrite strip_trailing_slashes_snoc, Hs. split; reflexivity.
Qed.

Lemma parseServer_ignores_decoration_witness :
  parseServer "https://192.168.1.100:5000/"
  = {| host := "192.168.1.100"; port := JNum 5000; isQuickConnect := false |}.
Proof.
  exact (eq_trans
           (proj1 (parseServer_ignores_decoration "192.168.1.100:5000" eq_refl))
           eq_refl).
Defined.

Lemma split_head_has_no_separator (sep : ascii) (s : string) :
  exists p ps, split sep s = p :: ps
               /\ includes p (String sep EmptyString) = false.
Proof.
  induction s as [|c s (p & ps & E & Hp)].
  - exists EmptyString, []. split; reflexivity.
  - cbn [split]. destruct (Ascii.eqb_spec c sep) as [->|Hne].
    + exists EmptyString, (split sep s). split; reflexivity.
    + rewrite E. exists (String c p), ps. split; [reflexivity|].
      cbn [includes]. rewrite Hp. cbn [String.prefix].
      destruct (ascii_dec sep c) as [->|_]; [contradiction|reflexivity].
Qed.

Lemma split_without_separator (sep : ascii) (s : string) :
  includes s (String sep EmptyString) = false -> split sep s = [s].
Proof.
  induction s as [|c s IH]; [reflexivity|].
  cbn [includes String.prefix]. intros H. apply orb_false_iff in H as [Hc Hs].
  cbn [split]. destruct (Ascii.eqb_spec c sep) as [->|Hne].
  - destruct (ascii_dec sep sep); [|contradiction].
    rewrite prefix_empty in Hc. discriminate.
  - rewrite (IH Hs). reflexivity.
Qed.

(** X15. For a direct address the host [parseServer] returns never contains
    a colon, and when the address has none either the port is 5001. *)
Theorem direct_address_host_and_port (serverArg : string) :
  isQuickConnect (parseServer serverArg) = false ->
  includes (host (parseServer serverArg)) ":" = false
  /\ (includes (strip_trailing_slashes (strip_protocol serverArg)) ":" = false ->
      host (parseServer serverArg) = strip_trailing_slashes (strip_protocol serverArg)
      /\ port (parseServer serverArg) = JNum 5001).
Proof.
  unfold parseServer.
  destruct (includes (strip_trailing_slashes (strip_protocol serverArg))
              "quickconnect.to") eqn:Hq; [discriminate|].
  intros _. cbn [host port]. split.
  - destruct (split_head_has_no_separator ":"
                (strip_trailing_slashes (strip_protocol serverArg)))
      as (p & ps & -> & Hp). exact Hp.
  - intros Hno. rewrite (split_without_separator _ _ Hno). split; reflexivity.
Qed.

Lemma direct_address_host_and_port_witness :
  host (parseServer "http://mynas.synology.me/") = "mynas.synology.me"
  /\ port (parseServer "http://mynas.synology.me/") = JNum 5001.
Proof.
  exact (proj2 (direct_address_host_and_port "http://mynas.synology.me/" eq_refl)
           eq_refl).
Defined.

Lemma strip_trailing_slashes_no_slash (s r : string) :
  strip_trailing_slashes s <> r +:+ "/".
Proof.
  revert r. induction s as [|c s IH]; intros r; cbn [strip_trailing_slashes].
  - destruct r; discriminate.
  - destruct (Ascii.eqb_spec c "/") as [->|Hc]; cbn [andb].
    + destruct (String.eqb_spec (strip_trailing_slashes s) "") as [He|Hne].
      * destruct r; discriminate.
      * destruct r as [|x r]; [|rewrite append_cons; intros [= _ E]; exact (IH _ E)].
        intros [= E]. contradiction.
    + destruct r as [|x r]; [|rewrite append_cons; intros [= _ E]; exact (IH _ E)].
      intros [= E _]. contradiction.
Qed.

(** X16. For a relay address [parseServer] keeps the whole address, without
    protocol and trailing slashes, as the host and sets no port; the host
    never ends in a slash. *)
Theorem relay_address_host_and_port (serverArg : string) :
  isQuickConnect (parseServer serverArg) = true ->
  host (parseServer serverArg) = strip_trailing_slashes (strip_protocol serverArg)
  /\ port (parseServer serverArg) = JNull
  /\ includes (host (parseServer serverArg)) "quickconnect.to" = true
  /\ (forall r, host (parseServer serverArg) <> r +:+ "/").
Proof.
  unfold parseServer.
  destruct (includes (strip_trailing_slashes (strip_protocol serverArg))
              "quickconnect.to") eqn:Hq; [|discriminate].
  intros _. cbn [host port]. repeat split; [exact Hq|].
  intros r. apply strip_trailing_slashes_no_slash.
Qed.

Lemma relay_address_host_and_port_witness :
  host (parseServer "https://mynas.us.quickconnect.to//") = "mynas.us.quickconnect.to"
  /\ port (parseServer "https://mynas.us.quickconnect.to//") = JNull.
Proof.
  destruct (relay_address_host_and_port "https://mynas.us.quickconnect.to//" eq_refl)
    as (Hh & Hp & _).
  split; [rewrite Hh; reflexivity|exact Hp].
Defined.

Variable w : World.

Lemma push_interfaces_shape (l : list (option Iface)) (cs : list Candidate) :
  exists lans,
    fst (push_interfaces l cs) = (cs ++ lans)%list
    /\ Forall (fun c => is_lan c = true /\ startsWith (url c) "https://" = true) lans.
Proof.
  revert cs. induction l as [|[iface|] l IH]; intros cs; cbn [push_interfaces].
  - exists []. split; [symmetry; apply app_nil_r|constructor].
  - destruct (truthy (ip iface)).
    + destruct (IH (cs ++ [{| url := "https://" +:+ toString (ip iface) +:+ ":"
                                    +:+ toString (or_else (iface_port iface) (JNum 5001));
                             label := "LAN (" +:+ toString (ip iface) +:+ ")" |}])%list)
        as (lans & E & Hl).
      eexists. split; [rewrite E, <- app_assoc; reflexivity|].
      constructor; [|exact Hl]. split; apply prefix_app.
    + apply IH.
  - exists []. split; [symmetry; apply app_nil_r|constructor].
Qed.

(** What one server record adds to candidates: LAN entries, and when the
    record was read to its end at most one DDNS and one external entry. *)
Lemma push_server_shape (srv : ServerInfo) (cs : list Candidate) :
  exists lans ddns ext,
    fst (push_server srv cs) = (cs ++ lans ++ ddns ++ ext)%list
    /\ Forall (fun c => is_lan c = true /\ startsWith (url c) "https://" = true) lans
    /\ Forall (fun c => startsWith (url c) "https://" = true) (ddns ++ ext)
    /\ at_most_one is_ddns ddns /\ at_most_one is_external ext
    /\ (snd (push_server srv cs) = false -> ddns = [] /\ ext = []).
Proof.
  unfold push_server.
  assert (exists lans completed,
            match interface srv with
            | NoInterface => (cs, true)
            | NotIterable => (cs, false)
            | Interfaces l => push_interfaces l cs
            end = ((cs ++ lans)%list, completed)
            /\ Forall (fun c => is_lan c = true
                                /\ startsWith (url c) "https://" = true) lans)
    as (lans & completed & -> & Hl).
  { destruct (interface srv) as [| |l].
    - exists [], true. split; [rewrite app_nil_r; reflexivity|constructor].
    - exists [], false. split; [rewrite app_nil_r; reflexivity|constructor].
    - destruct (push_interfaces_shape l cs) as (lans & E & Hl).
      destruct (push_interfaces l cs) as [out b]. cbn [fst] in E. subst out.
      exists lans, b. split; [reflexivity|exact Hl]. }
  destruct completed; cbn [negb fst snd].
  - set (httpsPort := or_else match external srv with
                              | Some e => ext_port e | None => JUndefined end
                        (JNum 5001)).
    set (ext_ip0 := match external srv with
                    | Some e => ext_ip e | None => JUndefined end).
    exists lans,
      (if truthy (ddns srv)
       then [{| url := "https://" +:+ toString (ddns srv) +:+ ":" +:+ toString httpsPort;
                label := "DDNS (" +:+ toString (ddns srv) +:+ ")" |}]
       else []),
      (if truthy ext_ip0
       then [{| url := "https://" +:+ toString ext_ip0 +:+ ":" +:+ toString httpsPort;
                label := "External IP" |}]
       else []).
    destruct (truthy (ddns srv)), (truthy ext_ip0);
      rewrite <- ?app_assoc, ?app_nil_r;
      (split; [reflexivity|]); (split; [exact Hl|]);
      (split; [repeat (constructor; [apply prefix_app|]); constructor|]);
      (split; [first [left; reflexivity
                     | right; eexists; split; [reflexivity|apply prefix_app]]|]);
      (split; [first [left; reflexivity
                     | right; eexists; split; reflexivity]|]);
      discriminate.
  - exists lans, [], []. rewrite !app_nil_r.
    split; [reflexivity|]. split; [exact Hl|]. split; [constructor|].
    split; [left; reflexivity|]. split; [left; reflexivity|]. auto.
Qed.

Lemma query_relays_shape (serverID : string) (relayUrls : list string)
    (cs : list Candidate) :
  exists lans ddns ext,
    query_relays w serverID relayUrls cs = (cs ++ lans ++ ddns ++ ext)%list
    /\ Forall (fun c => is_lan c = true /\ startsWith (url c) "https://" = true) lans
    /\ Forall (fun c => startsWith (url c) "https://" = true) (ddns ++ ext)
    /\ at_most_one is_ddns ddns /\ at_most_one is_external ext.
Proof.
  revert cs. induction relayUrls as [|u rest IH]; intros cs; cbn [query_relays].
  - exists [], [], []. rewrite app_nil_r.
    split; [reflexivity|]. split; [constructor|]. split; [constructor|].
    split; left; reflexivity.
  - destruct (relay w u serverID) as [[srv|]|m]; [|apply IH..].
    destruct (push_server_shape srv cs) as (lans & ddns & ext & E & Hl & Hh & Hd & He & Hstop).
    destruct (push_server srv cs) as [pushed completed]. cbn [fst snd] in *.
    subst pushed. destruct completed.
    + exists lans, ddns, ext. auto.
    + destruct (Hstop eq_refl) as [-> ->]. rewrite !app_nil_r.
      destruct (IH (cs ++ lans)%list) as (lans' & ddns' & ext' & E' & Hl' & Hh' & Hd' & He').
      exists (lans ++ lans')%list, ddns', ext'.
      rewrite E', <- !app_assoc. split; [reflexivity|].
      split; [apply Forall_app; split; assumption|]. auto.
Qed.

(** X17. The candidates of a relay address keep the priority order even when
    a coordinator's record breaks off midway: first the LAN interfaces, then
    at most one DDNS name, then at most one external address, and last the
    relay address itself. *)
Theorem relay_candidates_in_priority_order (fullDomain : string) :
  exists lans ddns ext,
    resolveQuickConnect w fullDomain
    = (lans ++ ddns ++ ext ++ [relay_candidate fullDomain])%list
    /\ Forall (fun c => is_lan c = true) lans
    /\ at_most_one is_ddns ddns
    /\ at_most_one is_external ext.
Proof.
  unfold resolveQuickConnect.
  destruct (query_relays_shape
              (toString (index (split "." (strip_suffix ".quickconnect.to" fullDomain)) 0))
              ((if truthy (or_else (index (split "." (strip_suffix ".quickconnect.to"
                                                        fullDomain)) 1) JNull)
                then ["https://"
                      +:+ toString (or_else (index (split "." (strip_suffix
                                                     ".quickconnect.to" fullDomain)) 1)
                                      JNull)
                      +:+ ".quickconnect.to/Serv.php"]
                else []) ++ ["https://global.quickconnect.to/Serv.php"])%list [])
    as (lans & ddns & ext & E & Hl & _ & Hd & He).
  exists lans, ddns, ext. cbv zeta. rewrite E. cbn [app].
  rewrite <- !app_assoc. split; [reflexivity|].
  split; [|auto]. eapply Forall_impl; [exact Hl|]. intros c [H _]. exact H.
Qed.

(** X18. Every candidate of a relay address is an https URL, whatever port
    the coordinator advertises. *)
Theorem relay_candidates_are_https (fullDomain : string) (c : Candidate) :
  In c (resolveQuickConnect w fullDomain) ->
  startsWith (url c) "https://" = true.
Proof.
  unfold resolveQuickConnect. cbv zeta.
  destruct (query_relays_shape
              (toString (index (split "." (strip_suffix ".quickconnect.to" fullDomain)) 0))
              ((if truthy (or_else (index (split "." (strip_suffix ".quickconnect.to"
                                                        fullDomain)) 1) JNull)
                then ["https://"
                      +:+ toString (or_else (index (split "." (strip_suffix
                                                     ".quickconnect.to" fullDomain)) 1)
                                      JNull)
                      +:+ ".quickconnect.to/Serv.php"]
                else []) ++ ["https://global.quickconnect.to/Serv.php"])%list [])
    as (lans & ddns & ext & -> & Hl & Hh & _).
  cbn [app]. intros Hin. apply in_app_or in Hin as [Hin|[<-|[]]].
  - apply in_app_or in Hin as [Hin|Hin].
    + rewrite Forall_forall in Hl. apply Hl. apply list_elem_of_In, Hin.
    + rewrite Forall_forall in Hh. apply Hh. apply list_elem_of_In, Hin.
  - apply prefix_app.
Qed.

End ResolverMore.

Lemma relay_candidates_are_https_witness :
  startsWith "https://mynas.synology.me:443" "https://" = true.
Proof.
  apply (relay_candidates_are_https Scenario.behind_relay "mynas.us.quickconnect.to"
           {| TestConnection.url := "https://mynas.synology.me:443";
              TestConnection.label := "DDNS (mynas.synology.me)" |}).
  vm_compute. right. left. reflexivity.
Defined.

(** ** The diagnostic: probing, authentication and sample photos *)

Section ProbeFacts.
Import TestConnection Probe.

Variable w : World.

Lemma https_url_is_truthy (u : string) :
  startsWith u "https://" = true -> truthy (JStr u) = true.
Proof. destruct u; [discriminate|reflexivity]. Qed.

Lemma candidates_have_urls (server : Server) (c : Candidate) :
  In c (candidates_of w server) -> truthy (JStr (url c)) = true.
Proof.
  unfold candidates_of. destruct (isQuickConnect server) eqn:Hq.
  - unfold resolveQuickConnect. cbv zeta.
    destruct (query_relays_shape w
                (toString (index (split "." (strip_suffix ".quickconnect.to"
                                               (host server))) 0))
                ((if truthy (or_else (index (split "." (strip_suffix ".quickconnect.to"
                                                          (host server))) 1) JNull)
                  then ["https://"
                        +:+ toString (or_else (index (split "." (strip_suffix
                                                       ".quickconnect.to" (host server))) 1)
                                        JNull)
                        +:+ ".quickconnect.to/Serv.php"]
                  else []) ++ ["https://global.quickconnect.to/Serv.php"])%list [])
      as (lans & ddns & ext & -> & Hl & Hh & _).
    cbn [app]. intros Hin. apply https_url_is_truthy.
    apply in_app_or in Hin as [Hin|[<-|[]]]; [|apply prefix_app].
    apply in_app_or in Hin as [Hin|Hin].
    + rewrite Forall_forall in Hl. apply Hl. apply list_elem_of_In, Hin.
    + rewrite Forall_forall in Hh. apply Hh. apply list_elem_of_In, Hin.
  - intros [<-|[]]. cbn [url]. destruct (strict_eq _ _); reflexivity.
Qed.

Lemma probe_answers (baseUrl apiPath refererHost : string) :
  testApiEndpoint w baseUrl apiPath refererHost
  = answers w refererHost (baseUrl, apiPath).
Proof.
  unfold testApiEndpoint, answers, valid_api_info, info_url.
  cbn [fst snd]. destruct (api_info w _ refererHost) as [resp|m]; [|reflexivity].
  destruct (startsWith (text resp) "{"), (parsed_success resp); reflexivity.
Qed.

(** The probes of a list of candidates with no working endpoint so far. *)
Lemma find_working_first (refererHost : string) (cs : list Candidate)
    (tried : list (string * string)) (working : option (string * string)) :
  (forall c, In c cs -> truthy (JStr (url c)) = true) ->
  find_working w refererHost cs None = (tried, working) ->
  match working with
  | Some probe =>
      exists failed later,
        all_probes cs = (failed ++ probe :: later)%list
        /\ tried = (failed ++ [probe])%list
        /\ answers w refererHost probe = true
        /\ Forall (fun bp => answers w refererHost bp = false) failed
  | None =>
      tried = all_probes cs
      /\ Forall (fun bp => answers w refererHost bp = false) tried
  end.
Proof.
  revert tried working. induction cs as [|c cs IH]; intros tried working Hurls.
  - intros [= <- <-]. split; [reflexivity|constructor].
  - cbn [find_working]. unfold api_paths, try_paths.
    pose proof (Hurls c (or_introl eq_refl)) as Hc.
    rewrite !probe_answers.
    destruct (answers w refererHost (url c, "/webapi")) eqn:E1.
    + rewrite Hc. intros [= <- <-].
      exists [], ((url c, "/photo/webapi") :: all_probes cs).
      repeat split; [exact E1|constructor].
    + destruct (answers w refererHost (url c, "/photo/webapi")) eqn:E2.
      * rewrite Hc. intros [= <- <-].
        exists [(url c, "/webapi")], (all_probes cs).
        repeat split; [exact E2|repeat constructor; exact E1].
      * destruct (find_working w refererHost cs None) as [tried' final] eqn:Erec.
        intros [= <- <-].
        specialize (IH tried' final (fun c0 H => Hurls c0 (or_intror H)) eq_refl).
        destruct final as [probe|].
        -- destruct IH as (failed & later & Hall & -> & Hok & Hf).
           exists ((url c, "/webapi") :: (url c, "/photo/webapi") :: failed), later.
           split; [cbn [all_probes flat_map app] in *; fold (all_probes cs);
                   rewrite Hall; reflexivity|].
           split; [reflexivity|]. split; [exact Hok|].
           repeat constructor; assumption.
        -- destruct IH as [-> Hf]. split; [reflexivity|].
           repeat constructor; assumption.
Qed.

(** X19. Step 1 goes through the probes in a fixed order, each candidate in
    the order of the list, on /webapi and then on /photo/webapi, and stops at
    the first one the world gives a valid API-info response to: the probes
    made are the ones up to and including it, it is the one adopted, and the
    world gave no valid response to any probe before it. When the world
    gives a valid response to none, every candidate was probed on both paths
    and nothing is adopted. *)
Theorem first_answering_probe_is_adopted (serverArg : string)
    (tried : list (string * string)) (working : option (string * string)) :
  find_nas w serverArg = (tried, working) ->
  let referer := host (parseServer serverArg) in
  let probes :=
    flat_map (fun c => [(url c, "/webapi"); (url c, "/photo/webapi")])
      (candidates_of w (parseServer serverArg)) in
  let valid probe :=
    valid_api_info
      (api_info w (fst probe +:+ snd probe
                   +:+ "/entry.cgi?api=SYNO.API.Info&version=1&method=query")
         referer) in
  match working with
  | Some adopted =>
      exists failed later,
        probes = (failed ++ adopted :: later)%list
        /\ tried = (failed ++ [adopted])%list
        /\ valid adopted = true
        /\ Forall (fun probe => valid probe = false) failed
  | None =>
      tried = probes /\ Forall (fun probe => valid probe = false) probes
  end.
Proof.
  unfold find_nas. intros Hrun.
  pose proof (find_working_first _ _ _ _
                (candidates_have_urls (parseServer serverArg)) Hrun) as H.
  cbv zeta. destruct working as [adopted|].
  - exact H.
  - destruct H as [-> Hf]. split; [reflexivity|exact Hf].
Qed.

Lemma strict_eq_num (v : JsVal) (n : Z) : strict_eq v (JNum n) = true -> v = JNum n.
Proof.
  destruct v; try discriminate. cbn. intros E%Z.eqb_eq. congruence.
Qed.

(** X20. The [secure] value the result block recommends agrees with the
    scheme step 1 probed. It is "false" exactly for a direct address on port
    5000, and then the candidate is an http URL and the recommended port is
    "5000"; in every other case it is "true" and every candidate is an https
    URL. For a direct address the recommended port is the port parsed, for a
    relay address it is "null". *)
Theorem recommended_secure_matches_probes (serverArg : string) (c : Candidate) :
  let server := parseServer serverArg in
  In c (candidates_of w server) ->
  (Diagnostic.configSecure server = "false"
   <-> isQuickConnect server = false /\ port server = JNum 5000)
  /\ (Diagnostic.configSecure server = "false"
      \/ Diagnostic.configSecure server = "true")
  /\ (Diagnostic.configSecure server = "false" ->
      startsWith (url c) "http://" = true
      /\ startsWith (url c) "https://" = false
      /\ Diagnostic.configPort server = "5000")
  /\ (Diagnostic.configSecure server = "true" ->
      startsWith (url c) "https://" = true)
  /\ Diagnostic.configPort server
     = (if isQuickConnect server then "null" else toString (port server)).
Proof.
  intros server Hin.
  assert (Diagnostic.configPort server
          = (if isQuickConnect server then "null" else toString (port server)))
    as Hport by reflexivity.
  unfold Diagnostic.configSecure in *.
  unfold candidates_of in Hin. destruct (isQuickConnect server) eqn:Hq.
  - assert (startsWith (url c) "https://" = true) as Hs.
    { unfold resolveQuickConnect in Hin. cbv zeta in Hin.
      destruct (query_relays_shape w
                  (toString (index (split "." (strip_suffix ".quickconnect.to"
                                                 (host server))) 0))
                  ((if truthy (or_else (index (split "." (strip_suffix ".quickconnect.to"
                                                            (host server))) 1) JNull)
                    then ["https://"
                          +:+ toString (or_else (index (split "." (strip_suffix
                                                         ".quickconnect.to" (host server))) 1)
                                          JNull)
                          +:+ ".quickconnect.to/Serv.php"]
                    else []) ++ ["https://global.quickconnect.to/Serv.php"])%list [])
        as (lans & ddns & ext & E & Hl & Hh & _).
      rewrite E in Hin. cbn [app] in Hin.
      apply in_app_or in Hin as [Hin|[<-|[]]]; [|apply prefix_app].
      apply in_app_or in Hin as [Hin|Hin].
      + rewrite Forall_forall in Hl. apply Hl. apply list_elem_of_In, Hin.
      + rewrite Forall_forall in Hh. apply Hh. apply list_elem_of_In, Hin. }
    split; [split; [discriminate|intros [? _]; discriminate]|].
    split; [right; reflexivity|].
    split; [discriminate|]. split; [intros _; exact Hs|exact Hport].
  - destruct Hin as [<-|[]]. cbn [url].
    destruct (strict_eq (port server) (JNum 5000)) eqn:Hp.
    + apply strict_eq_num in Hp.
      split; [split; [intros _; split; [reflexivity|exact Hp]|reflexivity]|].
      split; [left; reflexivity|].
      split; [|split; [discriminate|exact Hport]].
      intros _. split; [apply (prefix_app "http://")|].
      split; [reflexivity|]. rewrite Hport, Hp. reflexivity.
    + split; [split; [discriminate|]|].
      * intros [_ Hn]. rewrite Hn in Hp. discriminate.
      * split; [right; reflexivity|].
        split; [discriminate|].
        split; [intros _; apply (prefix_app "https://")|exact Hport].
Qed.


End ProbeFacts.

Lemma first_answering_probe_is_adopted_witness :
  exists failed later,
    [("https://mynas.quickconnect.to", "/webapi");
     ("https://mynas.quickconnect.to", "/photo/webapi")]
    = (failed ++ ("https://mynas.quickconnect.to", "/photo/webapi") :: later)%list
    /\ fst (TestConnection.find_nas Sample.lan "mynas.quickconnect.to")
       = (failed ++ [("https://mynas.quickconnect.to", "/photo/webapi")])%list
    /\ Forall (fun probe =>
                 Probe.valid_api_info
                   (TestConnection.api_info Sample.lan
                      (fst probe +:+ snd probe
                       +:+ "/entry.cgi?api=SYNO.API.Info&version=1&method=query")
                      "mynas.quickconnect.to") = false) failed.
Proof.
  destruct (first_answering_probe_is_adopted Sample.lan "mynas.quickconnect.to"
              (fst (TestConnection.find_nas Sample.lan "mynas.quickconnect.to"))
              (Some ("https://mynas.quickconnect.to", "/photo/webapi"))
              ltac:(vm_compute; reflexivity))
    as (failed & later & Hall & Ht & _ & Hf).
  exists failed, later. split; [|split; [exact Ht|exact Hf]].
  rewrite <- Hall. vm_compute. reflexivity.
Defined.

Lemma recommended_secure_matches_probes_witness :
  Diagnostic.configSecure (TestConnection.parseServer "192.168.1.100:5000") = "false"
  /\ Diagnostic.configPort (TestConnection.parseServer "192.168.1.100:5000") = "5000".
Proof.
  destruct (recommended_secure_matches_probes Sample.lan "192.168.1.100:5000"
              {| TestConnection.url := "http://192.168.1.100:5000";
                 TestConnection.label := "Direct" |}
              (or_introl eq_refl))
    as (Hiff & _ & Hfalse & _).
  assert (Diagnostic.configSecure (TestConnection.parseServer "192.168.1.100:5000")
          = "false") as Hs by (apply Hiff; split; reflexivity).
  split; [exact Hs|]. exact (proj2 (proj2 (Hfalse Hs))).
Defined.

Section DiagnosticFacts.
Import Diagnostic.

Variable w : World.

(** One login attempt: one request; a session id it sets is truthy; a token
    write happens at most once, and only with an OTP code, a successful login
    and a truthy device id, for the host given. *)
Lemma login_attempt_facts (workingBase host : string) (params : URLSearchParams)
    (otpCode : JsVal) (authEndpoint : string) :
  let a := login_attempt w workingBase host params otpCode authEndpoint in
  requests (snd a)
  = [workingBase +:+ authEndpoint +:+ "?" +:+ params_toString params]
  /\ (forall s, fst a = Some s -> truthy s = true)
  /\ (token_writes (snd a) = []
      \/ exists d, token_writes (snd a) = [(d, host)]
                   /\ truthy d = true /\ truthy otpCode = true /\ fst a <> None).
Proof.
  unfold login_attempt.
  destruct (login_reply w _) as [resp|m]; cbn zeta;
    [|repeat split; [discriminate|left; reflexivity]].
  destruct (startsWith (auth_text resp) "{"); cbn [negb];
    [|repeat split; [discriminate|left; reflexivity]].
  destruct (auth_parsed resp) as [[s [d|]]|m];
    [|repeat split; [discriminate|left; reflexivity]..].
  destruct (truthy s && truthy (auth_sid d)) eqn:E;
    [|repeat split; [discriminate|left; reflexivity]].
  apply andb_true_iff in E as [_ Hsid].
  destruct (truthy (or_else (did d) (device_id d)) && truthy otpCode) eqn:Ew.
  - apply andb_true_iff in Ew as [Hd Ho].
    split; [reflexivity|]. split; [intros s' [= <-]; exact Hsid|].
    right. eexists. repeat split; try eassumption. discriminate.
  - split; [reflexivity|]. split; [intros s' [= <-]; exact Hsid|].
    left. reflexivity.
Qed.

Lemma requests_app (e1 e2 : list Event) :
  requests (e1 ++ e2) = (requests e1 ++ requests e2)%list.
Proof. apply omap_app. Qed.

(** Step 3 in terms of its two attempts. *)
Lemma authenticate_unfold (workingBase workingPath host account password : string)
    (otpCode : JsVal) :
  let params := loginParams w account password otpCode in
  let a1 := login_attempt w workingBase host params otpCode (workingPath +:+ "/auth.cgi") in
  let a2 := login_attempt w workingBase host params otpCode (workingPath +:+ "/entry.cgi") in
  authenticate w workingBase workingPath host account password otpCode
  = match fst a1 with
    | Some s => (s, snd a1)
    | None =>
        (match fst a2 with Some s => s | None => JNull end, (snd a1 ++ snd a2)%list)
    end.
Proof.
  intros params a1 a2. unfold authenticate. cbn [login_loop truthy].
  fold params. fold a1.
  destruct (login_attempt_facts workingBase host params otpCode
              (workingPath +:+ "/auth.cgi")) as (_ & Hs1 & _).
  fold a1 in Hs1. destruct a1 as [[s1|] e1]; cbn [fst snd] in *.
  - rewrite (Hs1 s1 eq_refl). rewrite app_nil_r. reflexivity.
  - cbn [truthy]. fold a2. destruct a2 as [[s2|] e2]; cbn [fst snd].
    + destruct (truthy s2); rewrite ?app_nil_r; reflexivity.
    + rewrite app_nil_r. reflexivity.
Qed.

(** X21. Step 3 makes at most two login requests: entry.cgi is tried exactly
    when auth.cgi gave no session id (rejected request, a body that is not
    JSON, a refusal), and the session id is [null] at the end exactly when
    both attempts failed; otherwise it is truthy. *)
Theorem entry_cgi_is_a_fallback (workingBase workingPath host account password : string)
    (otpCode sid : JsVal) (evs : list Event) :
  authenticate w workingBase workingPath host account password otpCode = (sid, evs) ->
  let params := loginParams w account password otpCode in
  let u1 := workingBase +:+ (workingPath +:+ "/auth.cgi") +:+ "?" +:+ params_toString params in
  let u2 := workingBase +:+ (workingPath +:+ "/entry.cgi") +:+ "?" +:+ params_toString params in
  let a1 := login_attempt w workingBase host params otpCode (workingPath +:+ "/auth.cgi") in
  let a2 := login_attempt w workingBase host params otpCode (workingPath +:+ "/entry.cgi") in
  (requests evs = [u1] /\ fst a1 = Some sid /\ truthy sid = true)
  \/ (requests evs = [u1; u2] /\ fst a1 = None /\ fst a2 = Some sid /\ truthy sid = true)
  \/ (requests evs = [u1; u2] /\ fst a1 = None /\ fst a2 = None /\ sid = JNull).
Proof.
  intros Hrun params u1 u2 a1 a2.
  pose proof (authenticate_unfold workingBase workingPath host account password otpCode)
    as E. cbv zeta in E. fold params in E. fold a1 a2 in E. rewrite Hrun in E.
  destruct (login_attempt_facts workingBase host params otpCode
              (workingPath +:+ "/auth.cgi")) as (Hr1 & Hs1 & _).
  destruct (login_attempt_facts workingBase host params otpCode
              (workingPath +:+ "/entry.cgi")) as (Hr2 & Hs2 & _).
  fold a1 in Hr1, Hs1. fold a2 in Hr2, Hs2. fold u1 in Hr1. fold u2 in Hr2.
  destruct (fst a1) as [s1|] eqn:E1.
  - injection E as -> ->. left. auto.
  - injection E as -> ->. rewrite requests_app, Hr1, Hr2.
    destruct (fst a2) as [s2|] eqn:E2; [right; left|right; right]; auto.
Qed.

(** One login attempt in terms of the answer of the world. *)
Lemma login_attempt_granted (workingBase host : string) (params : URLSearchParams)
    (otpCode : JsVal) (authEndpoint : string) :
  login_attempt w workingBase host params otpCode authEndpoint
  = match granted (login_reply w (workingBase +:+ authEndpoint +:+ "?"
                                  +:+ params_toString params)) with
    | Some d =>
        (Some (auth_sid d),
         Requested (workingBase +:+ authEndpoint +:+ "?" +:+ params_toString params)
         :: (if truthy (or_else (did d) (device_id d)) && truthy otpCode
             then [TokenWrite (or_else (did d) (device_id d)) host] else []))
    | None =>
        (None,
         [Requested (workingBase +:+ authEndpoint +:+ "?" +:+ params_toString params)])
    end.
Proof.
  unfold login_attempt, granted. cbv zeta.
  destruct (login_reply w _) as [resp|m]; [|reflexivity].
  destruct (startsWith (auth_text resp) "{"); cbn [negb]; [|reflexivity].
  destruct (auth_parsed resp) as [[s [d|]]|m]; try reflexivity.
  destruct (truthy s && truthy (auth_sid d)); reflexivity.
Qed.

(** X22. What step 3 writes to the token file is decided by the login answer
    it adopts, the one to auth.cgi if that grants a session and else the one
    to entry.cgi. With an answer adopted, the session id is its [data.sid],
    and the file is written, once, exactly when an OTP code was given and the
    answer carries a truthy [did] or [device_id]; the record holds that
    device id ([did] before [device_id]) and the server host. With no answer
    adopted, and whenever no OTP code was given, nothing is written. *)
Theorem token_saved_only_after_otp_login
    (workingBase workingPath host account password : string)
    (otpCode sid : JsVal) (evs : list Event) :
  authenticate w workingBase workingPath host account password otpCode = (sid, evs) ->
  let query := params_toString (loginParams w account password otpCode) in
  let first :=
    granted (login_reply w (workingBase +:+ (workingPath +:+ "/auth.cgi")
                            +:+ "?" +:+ query)) in
  let second :=
    granted (login_reply w (workingBase +:+ (workingPath +:+ "/entry.cgi")
                            +:+ "?" +:+ query)) in
  match (match first with Some d => Some d | None => second end) with
  | Some d =>
      sid = auth_sid d
      /\ token_writes evs
         = (if truthy (or_else (did d) (device_id d)) && truthy otpCode
            then [(or_else (did d) (device_id d), host)] else [])
  | None => sid = JNull /\ token_writes evs = []
  end.
Proof.
  intros Hrun query first second.
  pose proof (authenticate_unfold workingBase workingPath host account password otpCode)
    as E. cbv zeta in E. rewrite Hrun in E.
  rewrite !login_attempt_granted in E. fold query in E. fold first second in E.
  destruct first as [d1|]; cbn [fst snd] in E.
  - injection E as -> ->. split; [reflexivity|]. cbn [token_writes omap].
    destruct (truthy (or_else (did d1) (device_id d1)) && truthy otpCode); reflexivity.
  - destruct second as [d2|]; cbn [fst snd] in E.
    + injection E as -> ->. split; [reflexivity|]. cbn [token_writes omap app].
      destruct (truthy (or_else (did d2) (device_id d2)) && truthy otpCode); reflexivity.
    + injection E as -> ->. split; reflexivity.
Qed.

(** X23. Step 4 asks personal space first. When that answer lists photos,
    they are the sample, the space reported is Personal and shared space is
    not asked. When it lists none (a rejected request, an unreadable body, a
    refusal, an empty list), shared space is asked: its photos, if it lists
    any, are the sample and the space reported is Shared; when neither space
    lists photos the sample is empty and the space reported stays Personal. *)
Theorem shared_space_is_a_fallback (workingBase workingPath : string) (sid : JsVal)
    (photoList : list NodeHelper.Item) (usedSpace : string) (evs : list Event) :
  fetch_sample w workingBase workingPath sid = (photoList, usedSpace, evs) ->
  let query api :=
    workingBase +:+ workingPath +:+ "/entry.cgi?"
    +:+ params_toString
          [("api", api); ("version", "1"); ("method", "list"); ("type", "photo");
           ("offset", "0"); ("limit", "5"); ("_sid", toString sid);
           ("additional", NodeHelper.additional_fields)] in
  let personal := listed (browse_reply w (query "SYNO.Foto.Browse.Item")) in
  let shared := listed (browse_reply w (query "SYNO.FotoTeam.Browse.Item")) in
  match personal, shared with
  | _ :: _, _ =>
      photoList = personal /\ usedSpace = "Personal"
      /\ requests evs = [query "SYNO.Foto.Browse.Item"]
  | [], _ :: _ =>
      photoList = shared /\ usedSpace = "Shared"
      /\ requests evs = [query "SYNO.Foto.Browse.Item"; query "SYNO.FotoTeam.Browse.Item"]
  | [], [] =>
      photoList = [] /\ usedSpace = "Personal"
      /\ requests evs = [query "SYNO.Foto.Browse.Item"; query "SYNO.FotoTeam.Browse.Item"]
  end.
Proof.
  intros Hrun query personal shared. unfold fetch_sample, spaces in Hrun.
  cbn [probe_spaces] in Hrun. unfold spaceParams in Hrun.
  change (workingBase +:+ workingPath +:+ "/entry.cgi?"
          +:+ params_toString
                [("api", "SYNO.Foto.Browse.Item"); ("version", "1"); ("method", "list");
                 ("type", "photo"); ("offset", "0"); ("limit", "5");
                 ("_sid", toString sid); ("additional", NodeHelper.additional_fields)])
    with (query "SYNO.Foto.Browse.Item") in Hrun.
  change (workingBase +:+ workingPath +:+ "/entry.cgi?"
          +:+ params_toString
                [("api", "SYNO.FotoTeam.Browse.Item"); ("version", "1");
                 ("method", "list"); ("type", "photo"); ("offset", "0"); ("limit", "5");
                 ("_sid", toString sid); ("additional", NodeHelper.additional_fields)])
    with (query "SYNO.FotoTeam.Browse.Item") in Hrun.
  subst personal shared. unfold listed.
  destruct (browse_reply w (query "SYNO.Foto.Browse.Item"))
    as [[s1 [[sd1 [[|p1 l1]|]]|]]|m1];
    try destruct (truthy s1);
    try (injection Hrun as <- <- <-; repeat split; reflexivity);
    (destruct (browse_reply w (query "SYNO.FotoTeam.Browse.Item"))
      as [[s2 [[sd2 [[|p2 l2]|]]|]]|m2];
     try destruct (truthy s2);
     injection Hrun as <- <- <-; repeat split; reflexivity).
Qed.



End DiagnosticFacts.

Lemma entry_cgi_is_a_fallback_witness :
  exists evs,
    Diagnostic.authenticate DiagnosticSample.world "https://nas:5001" "/webapi" "nas"
      "me" "pw" (JStr "123456") = (JStr "S1", evs)
    /\ length (Diagnostic.requests evs) = 2%nat.
Proof.
  eexists. split; [vm_compute; reflexivity|].
  destruct (entry_cgi_is_a_fallback DiagnosticSample.world "https://nas:5001"
              "/webapi" "nas" "me" "pw" (JStr "123456") (JStr "S1") _
              ltac:(vm_compute; reflexivity))
    as [(_ & H1 & _)|[(Hr & _)|(_ & _ & _ & Hs)]].
  - vm_compute in H1. discriminate H1.
  - rewrite Hr. reflexivity.
  - discriminate Hs.
Defined.

Lemma token_saved_only_after_otp_login_witness :
  exists evs,
    Diagnostic.authenticate DiagnosticSample.world "https://nas:5001" "/webapi" "nas"
      "me" "pw" (JStr "123456") = (JStr "S1", evs)
    /\ Diagnostic.token_writes evs = [(JStr "DEV", "nas")].
Proof.
  eexists. split; [vm_compute; reflexivity|].
  pose proof (token_saved_only_after_otp_login DiagnosticSample.world "https://nas:5001"
                "/webapi" "nas" "me" "pw" (JStr "123456") (JStr "S1") _
                ltac:(vm_compute; reflexivity)) as H.
  vm_compute in H. vm_compute. exact (proj2 H).
Defined.

Lemma shared_space_is_a_fallback_witness :
  exists photoList evs,
    Diagnostic.fetch_sample DiagnosticSample.world "https://nas:5001" "/webapi"
      (JStr "S1") = (photoList, "Shared", evs)
    /\ length photoList = 2%nat
    /\ length (Diagnostic.requests evs) = 2%nat.
Proof.
  do 2 eexists. split; [vm_compute; reflexivity|].
  pose proof (shared_space_is_a_fallback DiagnosticSample.world "https://nas:5001"
                "/webapi" (JStr "S1") _ "Shared" _ ltac:(vm_compute; reflexivity)) as H.
  vm_compute in H. destruct H as (_ & _ & Hr). split; [reflexivity|].
  vm_compute. reflexivity.
Defined.

(** ** The front end *)

Section FrontEndFacts.
Import FrontEnd.

Lemma resolveSize_set_thumbnailSize (size : JsVal) (c : Config) :
  resolveSize (set_thumbnailSize size c) = resolveSize c.
Proof. reflexivity. Qed.

Lemma start_wellformed (c : Config) : wellformed (fst (start c)).
Proof.
  unfold start. cbn [fst].
  apply (wellformed_intro _ _ 0).
  - intros id Hid. set_solver.
  - intros Hne. contradiction.
  - reflexivity.
  - lia.
  - left. reflexivity.
  - cbn. destruct (strict_eq _ _); reflexivity.
Qed.

(** [startSlideshow] leaves at most the interval it has just set running. *)
Lemma startSlideshow_wellformed (id : positive) (m : Widget) (running : gset positive)
    (i : Z) :
  (forall id', id' ∈ running -> slideshowTimer m = Some id') ->
  currentIndex m = Some i ->
  0 <= i ->
  (i = 0 \/ i < Z.of_nat (length (photos m))) ->
  resolvedSize m = Some (resolveSize (config m)) ->
  wellformed (fst (startSlideshow id (m, running))).
Proof.
  intros Hrun Hi H0 Hlt Hsize. unfold startSlideshow.
  assert ((match slideshowTimer m with
           | Some old => (running ∖ {[old]}, [ClearInterval old])
           | None => (running, [])
           end).1 = ∅) as Hempty.
  { destruct (slideshowTimer m) as [old|] eqn:Ht; cbn [fst].
    - apply set_eq. intros x. split; [|set_solver].
      intros Hx. apply elem_of_difference in Hx as [Hx Hne].
      specialize (Hrun x Hx). injection Hrun as ->. set_solver.
    - apply set_eq. intros x. split; [|set_solver].
      intros Hx. specialize (Hrun x Hx). discriminate. }
  destruct (match slideshowTimer m with
            | Some old => (running ∖ {[old]}, [ClearInterval old])
            | None => (running, [])
            end) as [running1 cleared].
  cbn [fst] in Hempty. subst running1.
  destruct (length (photos m) <=? 1)%nat eqn:Hlen; cbn [fst].
  - apply (wellformed_intro _ _ i); auto; set_solver.
  - apply Nat.leb_gt in Hlen.
    apply (wellformed_intro _ _ i); cbn; auto.
    intros id' Hid. apply elem_of_union in Hid as [Hid|Hid].
    + apply elem_of_singleton in Hid. congruence.
    + apply elem_of_empty in Hid. contradiction.
Qed.

Lemma next_index_in_range (i : Z) (n : nat) :
  0 <= i -> (1 < n)%nat ->
  next_index (Some i) n = Some ((i + 1) mod Z.of_nat n)
  /\ 0 <= (i + 1) mod Z.of_nat n < Z.of_nat n.
Proof.
  intros H0 Hn. unfold next_index.
  destruct (n =? 0)%nat eqn:E; [apply Nat.eqb_eq in E; lia|].
  split.
  - rewrite Z.rem_mod_nonneg by lia. reflexivity.
  - apply Z.mod_pos_bound. lia.
Qed.

(** What holds in every state the module reaches. *)
Lemma reachable_wellformed (s : State) : reachable s -> wellformed s.
Proof.
  induction 1 as [c|id n s _ IH|id s s' evs _ IH Ht|s _ IH|id s _ IH].
  - apply start_wellformed.
  - destruct IH as [m running i Hrun Hlive Hi H0 Hlt Hsize].
    destruct n as [ps|error].
    + unfold socketNotificationReceived.
      pose proof (startSlideshow_wellformed id
                    {| config := config m; photos := ps; currentIndex := Some 0;
                       loaded := true; errorMessage := JNull;
                       resolvedSize := resolvedSize m;
                       slideshowTimer := slideshowTimer m |} running 0
                    Hrun eq_refl ltac:(lia) ltac:(left; reflexivity) Hsize) as Hwf.
      destruct (startSlideshow id _) as [s2 evs]. exact Hwf.
    + cbn. apply (wellformed_intro _ _ i); auto.
  - destruct IH as [m running i Hrun Hlive Hi H0 Hlt Hsize].
    unfold tick in Ht. destruct (decide (id ∈ running)) as [Hin|]; [|discriminate].
    cbn in Ht. injection Ht as <- _.
    assert (1 < length (photos m))%nat as Hlen.
    { apply Hlive. intros Hempty. rewrite Hempty in Hin.
      apply elem_of_empty in Hin. contradiction. }
    destruct (next_index_in_range i _ H0 Hlen) as [Hn Hb].
    apply (wellformed_intro _ _ ((i + 1) mod Z.of_nat (length (photos m))));
      cbn; auto; try lia.
    rewrite Hi. exact Hn.
  - destruct IH as [m running i Hrun Hlive Hi H0 Hlt Hsize].
    unfold suspend. destruct (slideshowTimer m) as [old|] eqn:Ht; cbn [fst].
    + apply (wellformed_intro _ _ i); auto.
      * intros id Hid. rewrite Ht. apply Hrun.
        apply elem_of_difference in Hid. apply Hid.
      * intros Hne. apply Hlive. intros Hempty. apply Hne.
        rewrite Hempty. apply set_eq. intros x. rewrite elem_of_difference.
        split; [intros [Hx _]; exact Hx|intros Hx; apply elem_of_empty in Hx; contradiction].
    + apply (wellformed_intro _ _ i); auto. rewrite Ht. exact Hrun.
  - unfold resume. destruct (1 <? length (photos s.1))%nat; [|exact IH].
    destruct IH as [m running i Hrun Hlive Hi H0 Hlt Hsize].
    apply (startSlideshow_wellformed id m running i); assumption.
Qed.

(** X25. [start] sends the configuration to the helper once, and never with
    [thumbnailSize] "auto": a size other than "auto" goes out as configured,
    "auto" is replaced by "xl", "m" or "sm", and every other field the helper
    reads goes out as configured. The size the helper then filters by is
    never "auto". *)
Theorem helper_never_gets_auto (c : Config) :
  exists payload,
    snd (start c) = [SendSocketNotification payload]
    /\ helper (config (fst (fst (start c)))) = payload
    /\ Cycle.size_of payload <> JStr "auto"
    /\ (if strict_eq (NodeHelper.thumbnailSize (helper c)) (JStr "auto")
        then In (NodeHelper.thumbnailSize payload) [JStr "xl"; JStr "m"; JStr "sm"]
        else payload = helper c)
    /\ (forall w, Cycle.login_request w payload = Cycle.login_request w (helper c))
    /\ (forall sid, Cycle.browse_request payload sid
                    = Cycle.browse_request (helper c) sid)
    /\ NodeHelper.shuffle payload = NodeHelper.shuffle (helper c)
    /\ NodeHelper.sortBy payload = NodeHelper.sortBy (helper c)
    /\ NodeHelper.refreshInterval payload = NodeHelper.refreshInterval (helper c).
Proof.
  unfold start. cbn [fst snd config].
  destruct (strict_eq (NodeHelper.thumbnailSize (helper c)) (JStr "auto")) eqn:E.
  - eexists. split; [reflexivity|]. split; [reflexivity|].
    split; [|split; [|repeat split]].
    + unfold auto_thumbnail.
      destruct (negb _ || _); [discriminate|]. destruct (greater _ 320); discriminate.
    + unfold auto_thumbnail. cbn.
      destruct (negb _ || _); [auto|]. destruct (greater _ 320); auto.
  - eexists. split; [reflexivity|]. split; [reflexivity|].
    split; [|repeat split].
    unfold Cycle.size_of, or_else.
    destruct (truthy (NodeHelper.thumbnailSize (helper c))); [|discriminate].
    intros Heq. rewrite Heq in E. discriminate.
Qed.

(** X26. For a widget of positive width the automatic choice grows with the
    width: a wider widget never gets a narrower thumbnail. The thumbnail
    chosen is at least as wide as the widget exactly for widths up to 240 and
    for widths above 800 up to 1280; from 241 to 800 pixels the widget is
    wider than the thumbnail it shows. *)
Theorem auto_thumbnail_grows_with_width (w1 w2 : Z) :
  0 < w1 <= w2 ->
  thumbnail_pixels (auto_thumbnail (Some w1)) <= thumbnail_pixels (auto_thumbnail (Some w2))
  /\ (w1 <= thumbnail_pixels (auto_thumbnail (Some w1))
      <-> w1 <= 240 \/ 800 < w1 <= 1280).
Proof.
  intros H. unfold auto_thumbnail, greater, pixels, truthy.
  destruct (Z.eqb_spec w1 0) as [|_]; [lia|].
  destruct (Z.eqb_spec w2 0) as [|_]; [lia|]. cbn [negb orb].
  destruct (Z.ltb_spec 800 w1), (Z.ltb_spec 800 w2),
    (Z.ltb_spec 320 w1), (Z.ltb_spec 320 w2); cbn; lia.
Qed.

(** X27. In every state the module reaches, at most one interval of its own
    is running, the one [slideshowTimer] names; an interval runs only while
    there are at least two photos; and [currentIndex] is a number from 0 up
    to, but not including, the number of photos, or 0 when there are none.
    So the callback of the interval never divides by zero. *)
Theorem slideshow_stays_in_range (s : State) :
  reachable s ->
  (forall id, id ∈ snd s -> slideshowTimer (fst s) = Some id)
  /\ (snd s <> ∅ -> (1 < length (photos (fst s)))%nat)
  /\ exists i,
       currentIndex (fst s) = Some i
       /\ 0 <= i
       /\ (i = 0 \/ i < Z.of_nat (length (photos (fst s)))).
Proof.
  intros Hr. destruct (reachable_wellformed s Hr) as [m running i Hrun Hlive Hi H0 Hlt _].
  cbn [fst snd]. split; [exact Hrun|]. split; [exact Hlive|].
  exists i. auto.
Qed.

(** X28. In every state the module reaches [getDom] returns: it never reads
    a photo that is not there. It shows markup (loading, the error, or "No
    photos found.") exactly when nothing was received yet, an error message
    is held, or the catalog is empty; otherwise it shows the photo at
    [currentIndex], and a counter, if configured, from 1 to the number of
    photos. *)
Theorem getDom_always_renders (s : State) :
  reachable s ->
  exists dom,
    getDom (fst s) = Returned dom
    /\ match content dom with
       | InnerHTML _ =>
           loaded (fst s) = false \/ truthy (errorMessage (fst s)) = true
           \/ photos (fst s) = []
       | Container src _ _ _ counter =>
           loaded (fst s) = true
           /\ truthy (errorMessage (fst s)) = false
           /\ exists i photo,
                currentIndex (fst s) = Some i
                /\ photos (fst s) !! Z.to_nat i = Some photo
                /\ src = NodeHelper.url photo
                /\ 1 <= i + 1 <= Z.of_nat (length (photos (fst s)))
                /\ counter
                   = (if truthy (showCounter (config (fst s)))
                      then Some (pretty (i + 1) +:+ " / "
                                 +:+ pretty (Z.of_nat (length (photos (fst s)))))
                      else None)
       end.
Proof.
  intros Hr. destruct (reachable_wellformed s Hr) as [m running i Hrun Hlive Hi H0 Hlt _].
  cbn [fst]. unfold getDom. cbv zeta.
  destruct (loaded m); cbn [negb]; [|eexists; split; [reflexivity|]; cbn; auto].
  destruct (truthy (errorMessage m)) eqn:He; [eexists; split; [reflexivity|]; cbn; auto|].
  destruct (length (photos m) =? 0)%nat eqn:Hn.
  - eexists. split; [reflexivity|]. cbn. right. right.
    apply Nat.eqb_eq in Hn. destruct (photos m); [reflexivity|discriminate].
  - apply Nat.eqb_neq in Hn.
    assert (i < Z.of_nat (length (photos m))) as Hlt' by lia.
    destruct (lookup_lt_is_Some_2 (photos m) (Z.to_nat i) ltac:(lia)) as [photo Hp].
    rewrite Hi. unfold photo_at.
    destruct (Z.ltb_spec i 0) as [|_]; [lia|]. rewrite Hp.
    eexists. split; [reflexivity|]. cbn [content].
    split; [reflexivity|]. split; [reflexivity|].
    exists i, photo. repeat split; auto; lia.
Qed.

Lemma tick_running (id : positive) (m : Widget) (running : gset positive) :
  id ∈ running ->
  tick id (m, running)
  = Some ((set_currentIndex (next_index (currentIndex m) (length (photos m))) m,
           running),
          [UpdateDom (transitionSpeed (config m))]).
Proof.
  intros Hin. unfold tick. destruct (decide (id ∈ running)); [reflexivity|contradiction].
Qed.

(** X29. While its interval runs the slideshow goes round the catalog: after
    [k] firings from index [i] the index is [(i + k) mod n] for the [n]
    photos held, so every photo comes up once in any [n] firings in a row;
    the catalog and the interval stay as they are. *)
Theorem slideshow_goes_round (k : nat) (id : positive) (s : State) (i : Z) :
  reachable s ->
  id ∈ snd s ->
  currentIndex (fst s) = Some i ->
  exists s',
    ticks k id s = Some s'
    /\ currentIndex (fst s')
       = Some ((i + Z.of_nat k) mod Z.of_nat (length (photos (fst s))))
    /\ photos (fst s') = photos (fst s)
    /\ snd s' = snd s.
Proof.
  revert s i. induction k as [|k IH]; intros s i Hr Hin Hi.
  - exists s. split; [reflexivity|]. split; [|auto].
    destruct (reachable_wellformed s Hr) as [m running j Hrun Hlive Hj H0 Hlt _].
    cbn [fst snd] in *. rewrite Hj in Hi. injection Hi as ->.
    assert (1 < length (photos m))%nat as Hlen.
    { apply Hlive. intros He. rewrite He in Hin. apply elem_of_empty in Hin.
      contradiction. }
    rewrite Z.add_0_r, Z.mod_small by lia. exact Hj.
  - pose proof (reachable_wellformed s Hr) as Hwf.
    destruct Hwf as [m running j Hrun Hlive Hj H0 Hlt _].
    cbn [fst snd] in *. rewrite Hj in Hi. injection Hi as ->.
    assert (1 < length (photos m))%nat as Hlen.
    { apply Hlive. intros He. rewrite He in Hin. apply elem_of_empty in Hin.
      contradiction. }
    destruct (next_index_in_range i _ H0 Hlen) as [Hn _].
    cbn [ticks]. pose proof (tick_running id m running Hin) as Ht.
    rewrite Ht. rewrite Hj, Hn in *.
    destruct (IH (set_currentIndex (Some ((i + 1) mod Z.of_nat (length (photos m)))) m,
                  running)
                 ((i + 1) mod Z.of_nat (length (photos m)))
                 (after_tick id (m, running) _ _ Hr Ht) Hin eq_refl)
      as (s' & Hk & Hidx & Hph & Hrunning).
    exists s'. split; [exact Hk|]. split; [|auto].
    rewrite Hidx. cbn [fst photos set_currentIndex]. f_equal.
    rewrite Zplus_mod_idemp_l. f_equal. lia.
Qed.

(** X30. The front end and the helper hold the same catalog after every
    cycle, if they did before it: a cycle that publishes hands its catalog to
    both, and the slideshow starts again at its first photo with no error
    held; a cycle that fails leaves both catalogs and the index alone, and
    the front end holds the error message. *)
Theorem front_end_catalog_follows_helper (w : NodeHelper.World)
    (h : NodeHelper.Helper) (id : positive) (s : State) :
  photos (fst s) = NodeHelper.photos h ->
  exists h' evs,
    NodeHelper.fetchPhotos w h = (Returned tt, h', evs)
    /\ photos (fst (deliver id (Cycle.notifications evs) s)) = NodeHelper.photos h'
    /\ loaded (fst (deliver id (Cycle.notifications evs) s)) = true
    /\ ((exists ps,
           Cycle.notifications evs = [NodeHelper.SYNOLOGY_PHOTOS_DATA ps]
           /\ errorMessage (fst (deliver id (Cycle.notifications evs) s)) = JNull
           /\ currentIndex (fst (deliver id (Cycle.notifications evs) s)) = Some 0)
        \/ (exists m,
              Cycle.notifications evs = [NodeHelper.SYNOLOGY_PHOTOS_ERROR m]
              /\ errorMessage (fst (deliver id (Cycle.notifications evs) s)) = JStr m
              /\ currentIndex (fst (deliver id (Cycle.notifications evs) s))
                 = currentIndex (fst s)
              /\ NodeHelper.photos h' = NodeHelper.photos h)).
Proof.
  intros Hsame. destruct s as [m running].
  destruct (cycle_outcome w h) as (h' & evs & E & _ & _ & Hcase).
  exists h', evs. split; [exact E|].
  destruct Hcase as [(msg & Hn & _ & Hp & _)|(c & ps & _ & Hn & Hp & _)];
    rewrite Hn; unfold deliver; cbn [fold_left].
  - cbn. split; [rewrite Hp; exact Hsame|]. split; [reflexivity|].
    right. exists msg. auto.
  - unfold socketNotificationReceived, startSlideshow.
    destruct (slideshowTimer m); cbn [photos];
      destruct (length ps <=? 1)%nat; cbn;
      (split; [symmetry; exact Hp|]); (split; [reflexivity|]);
      left; exists ps; auto.
Qed.

End FrontEndFacts.

Lemma auto_thumbnail_grows_with_width_witness :
  FrontEnd.thumbnail_pixels (FrontEnd.auto_thumbnail (Some 300))
  <= FrontEnd.thumbnail_pixels (FrontEnd.auto_thumbnail (Some 800))
  /\ ~ 300 <= FrontEnd.thumbnail_pixels (FrontEnd.auto_thumbnail (Some 300)).
Proof.
  destruct (auto_thumbnail_grows_with_width 300 800 ltac:(lia)) as [Hm Hw].
  split; [exact Hm|]. intros H. apply Hw in H. lia.
Defined.

Lemma showing_is_reachable : FrontEnd.reachable FrontSample.showing.
Proof.
  unfold FrontSample.showing, FrontSample.started.
  apply FrontEnd.after_notification, FrontEnd.after_start.
Defined.

Lemma slideshow_stays_in_range_witness :
  snd FrontSample.showing <> ∅
  /\ (1 < length (FrontEnd.photos (fst FrontSample.showing)))%nat.
Proof.
  assert (snd FrontSample.showing <> ∅) as Hne.
  { intros He. assert (7%positive ∈ snd FrontSample.showing) as Hin
      by (apply elem_of_union; left; apply elem_of_singleton; reflexivity).
    rewrite He in Hin. apply elem_of_empty in Hin. exact Hin. }
  split; [exact Hne|].
  destruct (slideshow_stays_in_range FrontSample.showing showing_is_reachable)
    as (_ & Hlive & _).
  exact (Hlive Hne).
Defined.

Lemma getDom_always_renders_witness :
  exists dom counter,
    FrontEnd.getDom (fst FrontSample.showing) = Returned dom
    /\ FrontEnd.content dom
       = FrontEnd.Container (NodeHelper.proxy_path +:+ "x") "a.jpg" "cover" None
           (Some counter).
Proof.
  destruct (getDom_always_renders FrontSample.showing showing_is_reachable)
    as (dom & Hd & _).
  exists dom. eexists. split; [exact Hd|].
  assert (Returned dom = FrontEnd.getDom (fst FrontSample.showing)) as E
    by (symmetry; exact Hd).
  vm_compute in E. injection E as ->. reflexivity.
Defined.

Lemma slideshow_goes_round_witness :
  exists s',
    FrontEnd.ticks 4 7%positive FrontSample.showing = Some s'
    /\ FrontEnd.currentIndex (fst s') = Some 1.
Proof.
  destruct (slideshow_goes_round 4 7%positive FrontSample.showing 0
              showing_is_reachable
              ltac:(apply elem_of_union; left; apply elem_of_singleton; reflexivity)
              eq_refl)
    as (s' & Hk & Hi & _).
  exists s'. split; [exact Hk|exact Hi].
Defined.

Lemma front_end_catalog_follows_helper_witness :
  exists h' evs,
    NodeHelper.fetchPhotos Sample.healthy (Sample.configured Sample.nas)
    = (Returned tt, h', evs)
    /\ FrontEnd.photos
         (fst (FrontEnd.deliver 7%positive (Cycle.notifications evs)
                 FrontSample.started))
       = NodeHelper.photos h'
    /\ length (NodeHelper.photos h') = 2%nat.
Proof.
  destruct (front_end_catalog_follows_helper Sample.healthy
              (Sample.configured Sample.nas) 7%positive FrontSample.started eq_refl)
    as (h' & evs & E & Hp & _).
  exists h', evs. split; [exact E|]. split; [exact Hp|].
  assert (NodeHelper.photos
            (snd (fst (NodeHelper.fetchPhotos Sample.healthy
                         (Sample.configured Sample.nas)))) = NodeHelper.photos h') as Hh
    by (rewrite E; reflexivity).
  rewrite <- Hh. vm_compute. reflexivity.
Defined.
